(** * QR generator SaaS: the usage gate, the content formatter, the styled
      renderer and the format converter

    A shallow embedding of
    [backend/src/services/subscriptionService.ts] and
    [backend/src/services/qrCodeService.ts], with the properties the
    specification states about them, and of the subscription middleware
    [checkSubscriptionAccess] and [AuthUtils.extractTokenFromHeader], with
    further properties of the life of a subscription, of the usage
    counters, of [createQrCode] and of the formatter and the renderer.

    Conventions of the embedding.
    - A [Date] is its [getTime()] value: milliseconds since the epoch, in [Z].
      The calendar methods ([getFullYear], [getMonth], [new Date(y, m, d)],
      [setHours(0,0,0,0)]) read the process time zone, taken to be UTC.
    - The Prisma client is a store of tables; each service method is a
      computation that threads the store and may throw.
    - The clock does not advance inside one service call. *)

From Stdlib Require Import ZArith List String Ascii Bool Lia.
From Stdlib Require Import Floats.PrimFloat Numbers.DecimalString.
Import ListNotations.
Set Warnings "-inexact-float".
Open Scope string_scope.
Open Scope list_scope.
Open Scope Z_scope.

(** String concatenation, the [+] of the source on strings. *)
Infix "+++" := String.append (at level 60, right associativity).

(* ================================================================== *)
(** * Part I. Definitions *)
(* ================================================================== *)

(** ** Dates *)

Definition msPerDay : Z := 1000 * 60 * 60 * 24.

(** Days since 1970-01-01 of the civil date [y]-[m]-[d], [m] in 1..12
    (proleptic Gregorian calendar). *)
Definition days_from_civil (y m d : Z) : Z :=
  let y' := if m <=? 2 then y - 1 else y in
  let era := y' / 400 in
  let yoe := y' - era * 400 in
  let mp := if 2 <? m then m - 3 else m + 9 in
  let doy := (153 * mp + 2) / 5 + d - 1 in
  let doe := yoe * 365 + yoe / 4 - yoe / 100 + doy in
  era * 146097 + doe - 719468.

(** The civil date (year, month in 1..12, day) of a day number. *)
Definition civil_from_days (z : Z) : Z * Z * Z :=
  let z' := z + 719468 in
  let era := z' / 146097 in
  let doe := z' - era * 146097 in
  let yoe := (doe - doe / 1460 + doe / 36524 - doe / 146096) / 365 in
  let doy := doe - (365 * yoe + yoe / 4 - yoe / 100) in
  let mp := (5 * doy + 2) / 153 in
  let d := doy - (153 * mp + 2) / 5 + 1 in
  let m := if mp <? 10 then mp + 3 else mp - 9 in
  ((if m <=? 2 then yoe + era * 400 + 1 else yoe + era * 400), m, d).

(** [date.getFullYear()], [date.getMonth()] (0-based) and [date.getDate()]. *)
Definition getFullYear (t : Z) : Z := fst (fst (civil_from_days (t / msPerDay))).
Definition getMonth (t : Z) : Z := snd (fst (civil_from_days (t / msPerDay))) - 1.
Definition getDate (t : Z) : Z := snd (civil_from_days (t / msPerDay)).

(** [new Date(year, monthIndex, day)]: midnight of that day; a month index
    outside 0..11 carries into the year and day 0 is the last day of the
    month before. *)
Definition mkDate (year monthIndex day : Z) : Z :=
  (days_from_civil (year + monthIndex / 12) (monthIndex mod 12 + 1) 1 + (day - 1))
  * msPerDay.

(** The month of a day number as one index: twelve times the year plus
    the month from 0. *)
Definition monthIndex (z : Z) : Z :=
  let '(y, m, _) := civil_from_days z in 12 * y + (m - 1).

(** The day number of the first day of the month of index [i]. *)
Definition firstDay (i : Z) : Z := days_from_civil (i / 12) (i mod 12 + 1) 1.

(** Two dates of the same month of the same year. *)
Definition sameMonth (a b : Z) : bool :=
  (getFullYear a =? getFullYear b) && (getMonth a =? getMonth b).

(** The days from the first of March of year 0 to the first of March of
    year [Y]. *)
Definition daysBeforeYear (Y : Z) : Z := 365 * Y + Y / 4 - Y / 100 + Y / 400.

(** [d.setHours(0, 0, 0, 0)]. *)
Definition startOfDay (t : Z) : Z := t - t mod msPerDay.

(** [Math.ceil(a / b)] for an integer [a] and a positive integer [b]. *)
Definition ceilDiv (a b : Z) : Z := - ((- a) / b).

(** ** Plans *)

(** Modelled from the spec: the [PlanType] enumeration of the Prisma schema,
    which is not among the sources; the five fixed tiers, the keys of
    [PLAN_LIMITS]. *)
Inductive PlanType := TRIAL | FREE | PRO | BUSINESS | ENTERPRISE.

(** Modelled from the spec: the [SubscriptionStatus] enumeration of the
    Prisma schema; the statuses the service reads and writes. *)
Inductive SubscriptionStatus := ACTIVE | TRIALING | PAST_DUE | CANCELED | EXPIRED.

Inductive AnalyticsTier := analytics_none | analytics_basic | analytics_advanced.

(** [UsageLimits] of [types]; a quota of [-1] stands for unlimited. *)
Record UsageLimits := {
  qrCodesPerMonth : Z;
  dynamicQrCodes : Z;
  apiCallsPerMonth : Z;
  logoUploads : bool;
  analytics : AnalyticsTier;
  exportFormats : list string;
  watermark : bool
}.

(** [SubscriptionService.PLAN_LIMITS]. The source indexes the table by the
    plan's name and falls back on [FREE] for a name it does not hold; every
    [PlanType] is a key, so the lookup is a total function. *)
Definition PLAN_LIMITS (p : PlanType) : UsageLimits :=
  match p with
  | TRIAL =>
      {| qrCodesPerMonth := 100; dynamicQrCodes := 10; apiCallsPerMonth := 1000;
         logoUploads := true; analytics := analytics_basic;
         exportFormats := ["png"; "jpg"; "svg"; "pdf"]; watermark := false |}
  | FREE =>
      {| qrCodesPerMonth := 10; dynamicQrCodes := 0; apiCallsPerMonth := 0;
         logoUploads := false; analytics := analytics_none;
         exportFormats := ["png"]; watermark := true |}
  | PRO =>
      {| qrCodesPerMonth := -1; dynamicQrCodes := 50; apiCallsPerMonth := 10000;
         logoUploads := true; analytics := analytics_advanced;
         exportFormats := ["png"; "jpg"; "svg"; "pdf"]; watermark := false |}
  | BUSINESS =>
      {| qrCodesPerMonth := -1; dynamicQrCodes := 200; apiCallsPerMonth := 50000;
         logoUploads := true; analytics := analytics_advanced;
         exportFormats := ["png"; "jpg"; "svg"; "pdf"]; watermark := false |}
  | ENTERPRISE =>
      {| qrCodesPerMonth := -1; dynamicQrCodes := -1; apiCallsPerMonth := -1;
         logoUploads := true; analytics := analytics_advanced;
         exportFormats := ["png"; "jpg"; "svg"; "pdf"]; watermark := false |}
  end.

(** ** The store *)

(** Modelled from the spec: the Prisma schema is not among the sources. A
    [SubscriptionRecord] carries the fields the service reads and writes; the
    primary key is a number here, and [createdAt] is the time of insertion. *)
Record Subscription := {
  sub_id : nat;
  sub_userId : string;
  sub_planType : PlanType;
  sub_status : SubscriptionStatus;
  sub_trialStart : option Z;
  sub_trialEnd : option Z;
  sub_stripeSubscriptionId : option string;
  sub_stripeCustomerId : option string;
  sub_currentPeriodStart : option Z;
  sub_currentPeriodEnd : option Z;
  sub_createdAt : Z
}.

(** Modelled from the spec: a [UsageCounter], one row per
    (user, action kind, calendar day). *)
Record UsageTracking := {
  usage_userId : string;
  usage_actionType : string;
  usage_count : Z;
  usage_date : Z
}.

(** Modelled from the spec: the columns of a QR code row the services use. *)
Record QrCode := {
  qr_id : nat;
  qr_userId : string;
  qr_content : string;
  qr_isDynamic : bool;
  qr_isActive : bool
}.

Record World := {
  subscriptions : list Subscription;
  usageTrackings : list UsageTracking;
  qrCodes : list QrCode;
  clock : Z
}.

(** ** Computations over the store *)

Inductive PrismaError := RecordNotFound.

Inductive Result (A : Type) :=
| Ok (a : A)
| Throw (e : PrismaError).
Arguments Ok {A} a.
Arguments Throw {A} e.

Definition Prisma (A : Type) : Type := World -> Result A * World.

Definition ret {A} (a : A) : Prisma A := fun w => (Ok a, w).

Definition bind {A B} (m : Prisma A) (k : A -> Prisma B) : Prisma B :=
  fun w =>
    match m w with
    | (Ok a, w') => k a w'
    | (Throw e, w') => (Throw e, w')
    end.

Declare Scope prisma_scope.
Delimit Scope prisma_scope with prisma.
Notation "x <- m ;; k" := (bind m (fun x => k))
  (at level 100, m at next level, right associativity) : prisma_scope.
Notation "m ;;; k" := (bind m (fun _ => k))
  (at level 100, right associativity) : prisma_scope.
Open Scope prisma_scope.

Definition throw {A} (e : PrismaError) : Prisma A := fun w => (Throw e, w).

(** [new Date()]. *)
Definition newDate : Prisma Z := fun w => (Ok (clock w), w).

Definition getSubscriptions : Prisma (list Subscription) :=
  fun w => (Ok (subscriptions w), w).

Definition putSubscriptions (l : list Subscription) : Prisma unit :=
  fun w =>
    (Ok tt,
     {| subscriptions := l; usageTrackings := usageTrackings w;
        qrCodes := qrCodes w; clock := clock w |}).

Definition getUsageTrackings : Prisma (list UsageTracking) :=
  fun w => (Ok (usageTrackings w), w).

Definition putUsageTrackings (l : list UsageTracking) : Prisma unit :=
  fun w =>
    (Ok tt,
     {| subscriptions := subscriptions w; usageTrackings := l;
        qrCodes := qrCodes w; clock := clock w |}).

Definition getQrCodes : Prisma (list QrCode) := fun w => (Ok (qrCodes w), w).

(** *** [prisma.subscription] *)

(** The first row of [l] among those of greatest [createdAt]:
    [orderBy: { createdAt: 'desc' }] followed by taking the first row. *)
Fixpoint newest (l : list Subscription) : option Subscription :=
  match l with
  | [] => None
  | s :: r =>
      match newest r with
      | Some t => if sub_createdAt s <? sub_createdAt t then Some t else Some s
      | None => Some s
      end
  end.

Definition subscription_findFirst (where_ : Subscription -> bool)
  : Prisma (option Subscription) :=
  l <- getSubscriptions ;; ret (newest (filter where_ l)).

Definition subscription_findMany (where_ : Subscription -> bool)
  : Prisma (list Subscription) :=
  l <- getSubscriptions ;; ret (filter where_ l).

Definition subscription_findUnique (id : nat) : Prisma (option Subscription) :=
  l <- getSubscriptions ;; ret (find (fun s => Nat.eqb (sub_id s) id) l).

Definition setStatus (st : SubscriptionStatus) (s : Subscription) : Subscription :=
  {| sub_id := sub_id s; sub_userId := sub_userId s; sub_planType := sub_planType s;
     sub_status := st;
     sub_trialStart := sub_trialStart s; sub_trialEnd := sub_trialEnd s;
     sub_stripeSubscriptionId := sub_stripeSubscriptionId s;
     sub_stripeCustomerId := sub_stripeCustomerId s;
     sub_currentPeriodStart := sub_currentPeriodStart s;
     sub_currentPeriodEnd := sub_currentPeriodEnd s;
     sub_createdAt := sub_createdAt s |}.

(** [update({ where: { id }, data: { status } })]: throws when no row has the
    key. *)
Definition subscription_update (id : nat) (st : SubscriptionStatus) : Prisma unit :=
  l <- getSubscriptions ;;
  if existsb (fun s => Nat.eqb (sub_id s) id) l
  then putSubscriptions
         (map (fun s => if Nat.eqb (sub_id s) id then setStatus st s else s) l)
  else throw RecordNotFound.

(** [updateMany({ where, data: { status } })]. *)
Definition subscription_updateMany (where_ : Subscription -> bool)
  (st : SubscriptionStatus) : Prisma unit :=
  l <- getSubscriptions ;;
  putSubscriptions (map (fun s => if where_ s then setStatus st s else s) l).

(** A key no row of the table has. *)
Definition freshId (l : list Subscription) : nat :=
  S (fold_right Nat.max 0%nat (map sub_id l)).

(** The columns a caller of [create] chooses. *)
Record SubscriptionData := {
  data_userId : string;
  data_planType : PlanType;
  data_status : SubscriptionStatus;
  data_trialStart : option Z;
  data_trialEnd : option Z;
  data_stripeSubscriptionId : option string;
  data_stripeCustomerId : option string;
  data_currentPeriodStart : option Z;
  data_currentPeriodEnd : option Z
}.

Definition subscription_create (d : SubscriptionData) : Prisma Subscription :=
  l <- getSubscriptions ;;
  now <- newDate ;;
  let row :=
    {| sub_id := freshId l; sub_userId := data_userId d;
       sub_planType := data_planType d; sub_status := data_status d;
       sub_trialStart := data_trialStart d; sub_trialEnd := data_trialEnd d;
       sub_stripeSubscriptionId := data_stripeSubscriptionId d;
       sub_stripeCustomerId := data_stripeCustomerId d;
       sub_currentPeriodStart := data_currentPeriodStart d;
       sub_currentPeriodEnd := data_currentPeriodEnd d;
       sub_createdAt := now |} in
  putSubscriptions (l ++ [row]) ;;;
  ret row.

(** *** [prisma.usageTracking] and [prisma.qrCode] *)

(** [aggregate({ where, _sum: { count: true } })]: the sum of the rows'
    counts, [null] over no row. *)
Definition usageTracking_aggregate_sum (where_ : UsageTracking -> bool)
  : Prisma (option Z) :=
  l <- getUsageTrackings ;;
  match filter where_ l with
  | [] => ret None
  | rows => ret (Some (fold_right Z.add 0 (map usage_count rows)))
  end.

Definition addCount (n : Z) (u : UsageTracking) : UsageTracking :=
  {| usage_userId := usage_userId u; usage_actionType := usage_actionType u;
     usage_count := usage_count u + n; usage_date := usage_date u |}.

(** [upsert] on the key (userId, actionType, date), as the database carries
    it out when it accepts the write. *)
Definition usageTracking_upsert (userId actionType : string) (date : Z)
  (increment : Z) (create : UsageTracking) : Prisma unit :=
  l <- getUsageTrackings ;;
  let key u :=
    String.eqb (usage_userId u) userId
    && String.eqb (usage_actionType u) actionType
    && (usage_date u =? date) in
  if existsb key l
  then putUsageTrackings (map (fun u => if key u then addCount increment u else u) l)
  else putUsageTrackings (l ++ [create]).

Definition qrCode_count (where_ : QrCode -> bool) : Prisma Z :=
  l <- getQrCodes ;; ret (Z.of_nat (List.length (filter where_ l))).

(** ** [SubscriptionService] *)

(** [status: { in: ['ACTIVE', 'TRIALING', 'PAST_DUE'] }]. *)
Definition isCurrentStatus (st : SubscriptionStatus) : bool :=
  match st with
  | ACTIVE | TRIALING | PAST_DUE => true
  | CANCELED | EXPIRED => false
  end.

Definition isCurrentOf (userId : string) (s : Subscription) : bool :=
  String.eqb (sub_userId s) userId && isCurrentStatus (sub_status s).

Definition status_eqb (a b : SubscriptionStatus) : bool :=
  match a, b with
  | ACTIVE, ACTIVE | TRIALING, TRIALING | PAST_DUE, PAST_DUE
  | CANCELED, CANCELED | EXPIRED, EXPIRED => true
  | _, _ => false
  end.

Definition plan_eqb (a b : PlanType) : bool :=
  match a, b with
  | TRIAL, TRIAL | FREE, FREE | PRO, PRO | BUSINESS, BUSINESS
  | ENTERPRISE, ENTERPRISE => true
  | _, _ => false
  end.

Definition newSubscription (userId : string) (p : PlanType)
  (st : SubscriptionStatus) : SubscriptionData :=
  {| data_userId := userId; data_planType := p; data_status := st;
     data_trialStart := None; data_trialEnd := None;
     data_stripeSubscriptionId := None; data_stripeCustomerId := None;
     data_currentPeriodStart := None; data_currentPeriodEnd := None |}.


(** [expireTrial]. *)
Definition expireTrial (subscriptionId : nat) : Prisma unit :=
  subscription_update subscriptionId EXPIRED ;;;
  expiredSub <- subscription_findUnique subscriptionId ;;
  match expiredSub with
  | Some expiredSub =>
      subscription_create (newSubscription (sub_userId expiredSub) FREE ACTIVE) ;;;
      ret tt
  | None => ret tt
  end.

(** [SubscriptionInfo] of [types]. *)
Record SubscriptionInfo := {
  info_planType : PlanType;
  info_status : SubscriptionStatus;
  trialDaysLeft : Z;
  isTrialActive : bool;
  info_currentPeriodEnd : option Z
}.

(** [Math.max(0, Math.ceil(timeDiff / (1000 * 60 * 60 * 24)))], computed on
    integers. The quotient of the source is a binary64 value; whether the
    result is zero does not depend on its rounding, since the quotient of a
    positive difference is positive. *)
Definition daysLeft (trialEnd now : Z) : Z :=
  Z.max 0 (ceilDiv (trialEnd - now) msPerDay).

(** [getSubscriptionInfo]. The record returned is built from the row as it
    was read, before [expireTrial] ran. *)
Definition getSubscriptionInfo (userId : string) : Prisma (option SubscriptionInfo) :=
  subscription <- subscription_findFirst (isCurrentOf userId) ;;
  match subscription with
  | None => ret None
  | Some subscription =>
      match sub_planType subscription, sub_trialEnd subscription with
      | TRIAL, Some trialEnd =>
          now <- newDate ;;
          let trialDaysLeft := daysLeft trialEnd now in
          let isTrialActive := 0 <? trialDaysLeft in
          (if (trialDaysLeft =? 0) && status_eqb (sub_status subscription) TRIALING
           then expireTrial (sub_id subscription)
           else ret tt) ;;;
          ret (Some {| info_planType := sub_planType subscription;
                       info_status := sub_status subscription;
                       trialDaysLeft := trialDaysLeft;
                       isTrialActive := isTrialActive;
                       info_currentPeriodEnd := sub_currentPeriodEnd subscription |})
      | _, _ =>
          ret (Some {| info_planType := sub_planType subscription;
                       info_status := sub_status subscription;
                       trialDaysLeft := 0;
                       isTrialActive := false;
                       info_currentPeriodEnd := sub_currentPeriodEnd subscription |})
      end
  end.

(** [getPlanLimits]. *)
Definition getPlanLimits (userId : string) : Prisma UsageLimits :=
  subscriptionInfo <- getSubscriptionInfo userId ;;
  match subscriptionInfo with
  | None => ret (PLAN_LIMITS FREE)
  | Some subscriptionInfo => ret (PLAN_LIMITS (info_planType subscriptionInfo))
  end.

(** [getCurrentMonthlyUsage]: [usage._sum.count || 0] over the rows dated
    from the first to the last day of the month of now. *)
Definition getCurrentMonthlyUsage (userId actionType : string) : Prisma Z :=
  now <- newDate ;;
  let startOfMonth := mkDate (getFullYear now) (getMonth now) 1 in
  let endOfMonth := mkDate (getFullYear now) (getMonth now + 1) 0 in
  sum <- usageTracking_aggregate_sum
           (fun u =>
              String.eqb (usage_userId u) userId
              && String.eqb (usage_actionType u) actionType
              && (startOfMonth <=? usage_date u)
              && (usage_date u <=? endOfMonth)) ;;
  match sum with
  | Some n => ret n
  | None => ret 0
  end.

(** [trackUsage]. *)
Definition trackUsage (userId actionType : string) (count : Z) : Prisma unit :=
  now <- newDate ;;
  let today := startOfDay now in
  usageTracking_upsert userId actionType today count
    {| usage_userId := userId; usage_actionType := actionType;
       usage_count := count; usage_date := today |}.

Inductive Action := qr_generated | api_call | dynamic_qr | logo_upload.

(** The object [canPerformAction] resolves to. *)
Record Decision := {
  allowed : bool;
  reason : option string;
  upgradeRequired : option bool
}.

Definition allow : Decision :=
  {| allowed := true; reason := None; upgradeRequired := None |}.

Definition deny (why : string) : Decision :=
  {| allowed := false; reason := Some why; upgradeRequired := Some true |}.

(** [canPerformAction]. *)
Definition canPerformAction (userId : string) (action : Action) : Prisma Decision :=
  limits <- getPlanLimits userId ;;
  subscriptionInfo <- getSubscriptionInfo userId ;;
  if match subscriptionInfo with
     | Some i => plan_eqb (info_planType i) TRIAL && negb (isTrialActive i)
     | None => false
     end
  then ret (deny "Trial has expired")
  else
    match action with
    | logo_upload =>
        if negb (logoUploads limits)
        then ret (deny "Logo uploads not available in your plan")
        else ret allow
    | qr_generated =>
        if negb (qrCodesPerMonth limits =? -1)
        then
          currentUsage <- getCurrentMonthlyUsage userId "QR_GENERATED" ;;
          if qrCodesPerMonth limits <=? currentUsage
          then ret (deny "Monthly QR code limit reached")
          else ret allow
        else ret allow
    | api_call =>
        if apiCallsPerMonth limits =? 0
        then ret (deny "API access not available in your plan")
        else if negb (apiCallsPerMonth limits =? -1)
        then
          currentUsage <- getCurrentMonthlyUsage userId "API_CALL" ;;
          if apiCallsPerMonth limits <=? currentUsage
          then ret (deny "Monthly API call limit reached")
          else ret allow
        else ret allow
    | dynamic_qr =>
        if dynamicQrCodes limits =? 0
        then ret (deny "Dynamic QR codes not available in your plan")
        else if negb (dynamicQrCodes limits =? -1)
        then
          currentDynamicQrs <-
            qrCode_count
              (fun q => String.eqb (qr_userId q) userId
                        && qr_isDynamic q && qr_isActive q) ;;
          if dynamicQrCodes limits <=? currentDynamicQrs
          then ret (deny "Dynamic QR code limit reached")
          else ret allow
        else ret allow
    end.

(** [upgradeSubscription]. *)
Definition upgradeSubscription (userId : string) (newPlanType : PlanType)
  (stripeSubscriptionId stripeCustomerId : option string) : Prisma Subscription :=
  subscription_updateMany (isCurrentOf userId) CANCELED ;;;
  now <- newDate ;;
  let nextMonth := mkDate (getFullYear now) (getMonth now + 1) (getDate now) in
  subscription_create
    {| data_userId := userId; data_planType := newPlanType; data_status := ACTIVE;
       data_trialStart := None; data_trialEnd := None;
       data_stripeSubscriptionId := stripeSubscriptionId;
       data_stripeCustomerId := stripeCustomerId;
       data_currentPeriodStart := Some now;
       data_currentPeriodEnd := Some nextMonth |}.

(** [processExpiredTrials]: the loop over the rows found. *)
Fixpoint expireAll (trials : list Subscription) : Prisma unit :=
  match trials with
  | [] => ret tt
  | trial :: rest => expireTrial (sub_id trial) ;;; expireAll rest
  end.

Definition processExpiredTrials : Prisma unit :=
  now <- newDate ;;
  expiredTrials <-
    subscription_findMany
      (fun s => plan_eqb (sub_planType s) TRIAL
                && status_eqb (sub_status s) TRIALING
                && match sub_trialEnd s with
                   | Some e => e <? now
                   | None => false
                   end) ;;
  expireAll expiredTrials.

(** ** Strings of the runtime

    A string is its sequence of code units; the model carries the code units
    below 256, one [ascii] each. *)

(** [x || ''] on an optional string: an absent and an empty string are both
    falsy. *)
Definition orEmpty (o : option string) : string :=
  match o with
  | Some s => s
  | None => ""
  end.

(** The truthiness of an optional string. *)
Definition truthy (o : option string) : bool :=
  match o with
  | Some (String _ _) => true
  | _ => false
  end.

(** [s.replace(c, '')] for a one-character pattern: only the first
    occurrence goes. *)
Fixpoint removeFirst (c : ascii) (s : string) : string :=
  match s with
  | EmptyString => EmptyString
  | String a r => if Ascii.eqb a c then r else String a (removeFirst c r)
  end.

(** White space and line terminators among the code units below 256:
    TAB, LF, VT, FF, CR, SPACE and NBSP. *)
Definition isWhiteSpace (a : ascii) : bool :=
  let n := nat_of_ascii a in
  ((9 <=? n) && (n <=? 13))%nat || (n =? 32)%nat || (n =? 160)%nat.

Fixpoint trimStart (s : string) : string :=
  match s with
  | EmptyString => EmptyString
  | String a r => if isWhiteSpace a then trimStart r else s
  end.

(** Drops the white space [s] ends with. *)
Fixpoint trimEnd (s : string) : string :=
  match s with
  | EmptyString => EmptyString
  | String a r =>
      match trimEnd r with
      | EmptyString => if isWhiteSpace a then EmptyString else String a EmptyString
      | r' => String a r'
      end
  end.

(** [s.trim()]. *)
Definition trim (s : string) : string := trimEnd (trimStart s).

(** [s.endsWith(c)] for a one-character [c]. *)
Fixpoint endsWith (s : string) (c : ascii) : bool :=
  match s with
  | EmptyString => false
  | String a EmptyString => Ascii.eqb a c
  | String _ r => endsWith r c
  end.

(** [lines.join(sep)]. *)
Fixpoint join (sep : string) (lines : list string) : string :=
  match lines with
  | [] => ""
  | [l] => l
  | l :: rest => l +++ sep +++ join sep rest
  end.

Definition newline : string := String (ascii_of_nat 10) EmptyString.

Definition hexDigitUpper (n : nat) : ascii :=
  match get n "0123456789ABCDEF" with
  | Some a => a
  | None => "0"%char
  end.

(** [%XX] for one byte. *)
Definition percentByte (b : nat) : string :=
  String "%"%char
    (String (hexDigitUpper (b / 16)) (String (hexDigitUpper (b mod 16)) EmptyString)).

(** The characters [encodeURIComponent] leaves alone: letters, digits and
    [- _ . ! ~ * ' ( )]. *)
Definition isUriUnreserved (a : ascii) : bool :=
  let n := nat_of_ascii a in
  (((65 <=? n) && (n <=? 90)) || ((97 <=? n) && (n <=? 122))
   || ((48 <=? n) && (n <=? 57))
   || existsb (Nat.eqb n) [45; 95; 46; 33; 126; 42; 39; 40; 41])%nat.

(** [encodeURIComponent] on the strings of [string], whose code units are
    below 256: every other code unit is replaced by the escaped bytes of its
    UTF-8 encoding (one byte below 128, two from 128 to 255). On these
    strings it never throws. *)
Fixpoint encodeURIComponent (s : string) : string :=
  match s with
  | EmptyString => EmptyString
  | String a r =>
      let n := nat_of_ascii a in
      (if isUriUnreserved a then String a EmptyString
       else if (n <? 128)%nat then percentByte n
       else percentByte (192 + n / 64) +++ percentByte (128 + n mod 64))
      +++ encodeURIComponent r
  end.

(** ** Values of the runtime *)

(** What a property read on the [socialUrls] object literal can give: a
    string of its own, [undefined], or a member it inherits from
    [Object.prototype] (a native function, or the prototype itself under
    [__proto__]). *)
Inductive JsValue :=
| JsString (s : string)
| JsUndefined
| JsNativeFunction (name : string)
| JsObjectPrototype.

(** [value + str]: the value is converted to a string and [str] appended. *)
Definition toString (v : JsValue) : string :=
  match v with
  | JsString s => s
  | JsUndefined => "undefined"
  | JsNativeFunction name => "function " +++ name +++ "() { [native code] }"
  | JsObjectPrototype => "[object Object]"
  end.

(** The members of [Object.prototype]. *)
Definition objectPrototype (key : string) : JsValue :=
  if String.eqb key "constructor" then JsNativeFunction "Object"
  else if String.eqb key "__proto__" then JsObjectPrototype
  else if existsb (String.eqb key)
            ["hasOwnProperty"; "isPrototypeOf"; "propertyIsEnumerable";
             "toLocaleString"; "toString"; "valueOf";
             "__defineGetter__"; "__defineSetter__";
             "__lookupGetter__"; "__lookupSetter__"]
  then JsNativeFunction key
  else JsUndefined.

(** [obj[key]] for an object literal with the own properties [props]. *)
Fixpoint getProperty (props : list (string * string)) (key : string) : JsValue :=
  match props with
  | [] => objectPrototype key
  | (k, v) :: rest => if String.eqb k key then JsString v else getProperty rest key
  end.

(** ** [QrCodeService.generateQrContent] *)

(** Modelled from the spec: the [QrType] enumeration of the Prisma schema,
    which is not among the sources; these are the payload types the spec
    lists and the source switches on. *)
Inductive QrType :=
| URL | TEXT | EMAIL | PHONE | SMS | WIFI | VCARD | LOCATION | SOCIAL | REVIEW.

Record VcardData := {
  firstName : option string;
  lastName : option string;
  organization : option string;
  phone : option string;
  email : option string;
  url : option string
}.

(** [QrContentData]. *)
Record QrContentData := {
  qrType : QrType;
  content : string;
  industryTemplate : option string;
  emailAddress : option string;
  emailSubject : option string;
  emailBody : option string;
  phoneNumber : option string;
  smsNumber : option string;
  smsMessage : option string;
  wifiSsid : option string;
  wifiPassword : option string;
  wifiSecurity : option string;
  wifiHidden : option bool;
  vcardData : option VcardData;
  latitude : option string;
  longitude : option string;
  socialPlatform : option string;
  socialHandle : option string;
  reviewUrl : option string
}.

Definition emptyVcard : VcardData :=
  {| firstName := None; lastName := None; organization := None;
     phone := None; email := None; url := None |}.

Definition socialUrls : list (string * string) :=
  [ ("twitter", "https://twitter.com/");
    ("instagram", "https://instagram.com/");
    ("facebook", "https://facebook.com/");
    ("linkedin", "https://linkedin.com/in/");
    ("youtube", "https://youtube.com/@");
    ("tiktok", "https://tiktok.com/@");
    ("github", "https://github.com/") ].

(** [value ? prefix + value : ''] of the VCARD lines. *)
Definition optionalLine (prefix : string) (value : option string) : string :=
  if truthy value then prefix +++ orEmpty value else "".

(** The FN line: the two names around a space, trimmed. *)
Definition fnLine (vcard : VcardData) : string :=
  trim ("FN:" +++ orEmpty (firstName vcard) +++ " " +++ orEmpty (lastName vcard)).

(** The array of the VCARD case before it is filtered. *)
Definition vcardCandidates (vcard : VcardData) : list string :=
  [ "BEGIN:VCARD";
    "VERSION:3.0";
    fnLine vcard;
    optionalLine "ORG:" (organization vcard);
    optionalLine "TEL:" (phone vcard);
    optionalLine "EMAIL:" (email vcard);
    optionalLine "URL:" (url vcard);
    "END:VCARD" ].

(** [line => line && !line.endsWith(':')]. *)
Definition keepLine (line : string) : bool :=
  match line with
  | EmptyString => false
  | _ => negb (endsWith line ":"%char)
  end.

Definition vcardLines (vcard : VcardData) : list string :=
  filter keepLine (vcardCandidates vcard).

Definition generateQrContent (data : QrContentData) : string :=
  match qrType data with
  | EMAIL =>
      let emailContent := "mailto:" +++ orEmpty (emailAddress data) in
      let params :=
        (if truthy (emailSubject data)
         then ["subject=" +++ encodeURIComponent (orEmpty (emailSubject data))]
         else [])
        ++ (if truthy (emailBody data)
            then ["body=" +++ encodeURIComponent (orEmpty (emailBody data))]
            else []) in
      if (0 <? List.length params)%nat
      then emailContent +++ "?" +++ join "&" params
      else emailContent
  | PHONE => "tel:" +++ orEmpty (phoneNumber data)
  | SMS =>
      "sms:" +++ orEmpty (smsNumber data)
      +++ (if truthy (smsMessage data)
           then "?body=" +++ encodeURIComponent (orEmpty (smsMessage data))
           else "")
  | WIFI =>
      let security := if truthy (wifiSecurity data)
                      then orEmpty (wifiSecurity data) else "WPA" in
      let hidden := match wifiHidden data with
                    | Some true => "true"
                    | _ => "false"
                    end in
      "WIFI:T:" +++ security +++ ";S:" +++ orEmpty (wifiSsid data)
      +++ ";P:" +++ orEmpty (wifiPassword data) +++ ";H:" +++ hidden +++ ";;"
  | VCARD =>
      let vcard := match vcardData data with
                   | Some v => v
                   | None => emptyVcard
                   end in
      join newline (filter keepLine (vcardCandidates vcard))
  | LOCATION =>
      "geo:" +++ (if truthy (latitude data) then orEmpty (latitude data) else "0")
      +++ "," +++ (if truthy (longitude data) then orEmpty (longitude data) else "0")
  | SOCIAL =>
      let platform := if truthy (socialPlatform data)
                      then orEmpty (socialPlatform data) else "twitter" in
      let handle := removeFirst "@"%char (orEmpty (socialHandle data)) in
      toString (getProperty socialUrls platform) +++ handle
  | REVIEW => orEmpty (reviewUrl data)
  | TEXT => content data
  | URL => content data
  end.

(** ** Numbers and buffers of the renderer

    A JavaScript number is an IEEE 754 binary64 value: the kernel's [float],
    with its operations. A loop counter that starts at [0] and is incremented
    [n] times is [ofNat n]. *)

Fixpoint ofNat (n : nat) : float :=
  match n with
  | O => 0%float
  | S k => (ofNat k + 1)%float
  end.

(** [Math.PI]. *)
Definition Math_PI : float := 0x1.921fb54442d18p+1%float.

Definition Buffer := list Byte.byte.

(** ** [adjustBrightness] *)

Definition hexDigitValue (a : ascii) : option Z :=
  let n := nat_of_ascii a in
  if ((48 <=? n) && (n <=? 57))%nat then Some (Z.of_nat n - 48)
  else if ((97 <=? n) && (n <=? 102))%nat then Some (Z.of_nat n - 87)
  else if ((65 <=? n) && (n <=? 70))%nat then Some (Z.of_nat n - 55)
  else None.

(** The value of the longest prefix of hexadecimal digits, after [acc];
    [None] when [s] starts with no digit and [acc] is [None]. *)
Fixpoint hexPrefix (s : string) (acc : option Z) : option Z :=
  match s with
  | EmptyString => acc
  | String a r =>
      match hexDigitValue a with
      | Some d => hexPrefix r (Some (16 * match acc with Some v => v | None => 0 end + d))
      | None => acc
      end
  end.

(** [parseInt(s, 16)]; [None] is [NaN]. Leading white space is skipped, a
    sign is read, then an optional [0x] or [0X], then the digits. *)
Definition parseInt16 (s : string) : option Z :=
  let s1 := trimStart s in
  let (sign, s2) :=
    match s1 with
    | String "-"%char r => (-1, r)
    | String "+"%char r => (1, r)
    | _ => (1, s1)
    end in
  let s3 :=
    match s2 with
    | String "0"%char (String "x"%char r) => r
    | String "0"%char (String "X"%char r) => r
    | _ => s2
    end in
  match hexPrefix s3 None with
  | Some v => Some (sign * v)
  | None => None
  end.

Definition hexDigitLower (n : Z) : string :=
  match get (Z.to_nat n) "0123456789abcdef" with
  | Some a => String a EmptyString
  | None => ""
  end.

(** [n.toString(16)] for an integer [0 <= n <= 255]. *)
Definition toHex (n : Z) : string :=
  if n <? 16 then hexDigitLower n
  else hexDigitLower (n / 16) +++ hexDigitLower (n mod 16).

(** [s.padStart(2, '0')]. *)
Definition padStart2 (s : string) : string :=
  match s with
  | EmptyString => "00"
  | String a EmptyString => String "0"%char s
  | _ => s
  end.

(** One channel:
    [Math.max(0, Math.min(255, parseInt(part, 16) + amount))], then
    [toString(16).padStart(2, '0')]; [NaN] prints as [NaN]. *)
Definition adjustChannel (part : string) (amount : Z) : string :=
  match parseInt16 part with
  | Some v => padStart2 (toHex (Z.max 0 (Z.min 255 (v + amount))))
  | None => "NaN"
  end.

Definition adjustBrightness (color : string) (amount : Z) : string :=
  let hex := removeFirst "#"%char color in
  "#" +++ adjustChannel (substring 0 2 hex) amount
  +++ adjustChannel (substring 2 2 hex) amount
  +++ adjustChannel (substring 4 2 hex) amount.

(** ** The canvas

    The 2D context is the sequence of the commands issued to it, in order;
    the pixels are the canvas library's function of that sequence. The
    commands are taken not to throw. *)

(** A decoded image, known by the bytes it was decoded from. *)
Record Image := { image_source : Buffer }.

Inductive FillStyle :=
| Color (c : string)
| LinearGradient (x0 y0 x1 y1 : float) (stops : list (float * string)).

Inductive CanvasOp :=
| SetFillStyle (s : FillStyle)
| SetShadowColor (c : string)
| SetShadowBlur (b : float)
| SetGlobalAlpha (a : float)
| FillRect (x y w h : float)
| BeginPath
| ClosePath
| MoveTo (x y : float)
| LineTo (x y : float)
| QuadraticCurveTo (cpx cpy x y : float)
| Arc (x y radius startAngle endAngle : float)
| Fill
| Clip
| Save
| Restore
| DrawImage (image : Image) (x y w h : float).

Definition Ctx := list CanvasOp.

Record Canvas := {
  canvas_width : float;
  canvas_height : float;
  canvas_ops : Ctx
}.

Inductive ErrorLevel := L | M | Q | H.

(** The [modules] of the symbol the encoder returns. *)
Record BitMatrix := {
  modules_size : nat;
  modules_get : nat -> nat -> bool
}.

(** [QrStyleConfig]. The style fields are whatever strings the request
    carried. *)
Record QrStyleConfig := {
  size : float;
  errorLevel : ErrorLevel;
  fgColor : string;
  bgColor : string;
  style : string;
  logoStyle : option string
}.

(** One image of the array given to [composite]. *)
Record Overlay := {
  overlay_input : Buffer;
  overlay_gravity : string
}.

(** The libraries the service calls: the [qrcode] encoder, the decoder and
    the PNG encoder of [canvas], and the image pipeline of [sharp]. A
    [None] is a thrown error or a rejected promise.
    - [sharp_metadata b] is [sharp(b)] followed by [metadata()], which gives
      the width and the height when it knows them; [None] when the
      constructor throws or the promise of [metadata()] rejects;
    - [sharp_composite b overlays] is [sharp(b).composite(overlays).toBuffer()]
      on a buffer whose metadata was read: [composite] records the overlays,
      and [None] is the rejection of the promise of [toBuffer()];
    - [sharp_jpeg q b] is [sharp(b).jpeg({ quality: q }).toBuffer()], and
      [sharp_png] likewise. *)
Class Libraries := {
  QRCode_create : string -> ErrorLevel -> option BitMatrix;
  loadImage : Buffer -> option Image;
  canvas_toBuffer : Canvas -> Buffer;
  sharp_metadata : Buffer -> option (option Z * option Z);
  sharp_composite : Buffer -> list Overlay -> option Buffer;
  sharp_jpeg : Z -> Buffer -> option Buffer;
  sharp_png : Z -> Buffer -> option Buffer
}.

Section Renderer.
Local Open Scope float_scope.

(** [drawRoundedRect]. *)
Definition drawRoundedRect (ctx : Ctx) (x y width height radius : float) : Ctx :=
  ctx ++
  [ BeginPath;
    MoveTo (x + radius) y;
    LineTo (x + width - radius) y;
    QuadraticCurveTo (x + width) y (x + width) (y + radius);
    LineTo (x + width) (y + height - radius);
    QuadraticCurveTo (x + width) (y + height) (x + width - radius) (y + height);
    LineTo (x + radius) (y + height);
    QuadraticCurveTo x (y + height) x (y + height - radius);
    LineTo x (y + radius);
    QuadraticCurveTo x y (x + radius) y;
    ClosePath;
    Fill ].

(** [drawStyledModule]. *)
Definition drawStyledModule (ctx : Ctx) (x y size : float) (style color : string)
  : Ctx :=
  let ctx := ctx ++ [SetFillStyle (Color color)] in
  if String.eqb style "rounded" then
    drawRoundedRect ctx x y size size (size * 0.2)
  else if String.eqb style "circle" then
    ctx ++ [BeginPath;
            Arc (x + size / 2) (y + size / 2) (size / 2 * 0.85) 0 (2 * Math_PI);
            Fill]
  else if String.eqb style "diamond" then
    ctx ++ [BeginPath;
            MoveTo (x + size / 2) y;
            LineTo (x + size) (y + size / 2);
            LineTo (x + size / 2) (y + size);
            LineTo x (y + size / 2);
            ClosePath;
            Fill]
  else if String.eqb style "dotted" then
    ctx ++ [BeginPath;
            Arc (x + size / 2) (y + size / 2) (size / 3) 0 (2 * Math_PI);
            Fill]
  else if String.eqb style "gradient" then
    ctx ++ [SetFillStyle
              (LinearGradient x y (x + size) (y + size)
                 [(0, color); (1, adjustBrightness color (-20))]);
            FillRect x y size size]
  else if String.eqb style "neon" then
    ctx ++ [SetShadowColor color;
            SetShadowBlur (size / 3);
            FillRect (x + size * 0.2) (y + size * 0.2) (size * 0.6) (size * 0.6);
            SetShadowColor "transparent";
            SetShadowBlur 0]
  else if String.eqb style "minimal" then
    ctx ++ [SetGlobalAlpha 0.8;
            FillRect (x + size * 0.1) (y + size * 0.1) (size * 0.8) (size * 0.8);
            SetGlobalAlpha 1]
  else
    ctx ++ [FillRect x y size size].

Context {libs : Libraries}.

(** [addLogoToCanvas]: the context after the call and what was logged. A
    logo that does not decode throws at the first statement of the [try]. *)
Definition addLogoToCanvas (ctx : Ctx) (logoBuffer : Buffer) (canvasSize : float)
  (logoStyle : option string) : Ctx * list string :=
  let logoStyle := match logoStyle with Some s => s | None => "square" end in
  match loadImage logoBuffer with
  | None => (ctx, ["Error adding logo to QR code:"])
  | Some logo =>
      let logoSize := canvasSize * 0.2 in
      let logoX := (canvasSize - logoSize) / 2 in
      let logoY := (canvasSize - logoSize) / 2 in
      let ctx := ctx ++ [SetFillStyle (Color "#ffffff")] in
      let bgPadding := logoSize * 0.1 in
      let ctx :=
        if String.eqb logoStyle "circle" then
          ctx ++ [BeginPath;
                  Arc (logoX + logoSize / 2) (logoY + logoSize / 2)
                      (logoSize / 2 + bgPadding) 0 (2 * Math_PI);
                  Fill]
        else if String.eqb logoStyle "rounded" then
          drawRoundedRect ctx (logoX - bgPadding) (logoY - bgPadding)
            (logoSize + bgPadding * 2) (logoSize + bgPadding * 2) bgPadding
        else
          ctx ++ [FillRect (logoX - bgPadding) (logoY - bgPadding)
                    (logoSize + bgPadding * 2) (logoSize + bgPadding * 2)] in
      let ctx :=
        if String.eqb logoStyle "circle" then
          ctx ++ [Save;
                  BeginPath;
                  Arc (logoX + logoSize / 2) (logoY + logoSize / 2)
                      (logoSize / 2) 0 (2 * Math_PI);
                  Clip]
        else ctx in
      let ctx := ctx ++ [DrawImage logo logoX logoY logoSize logoSize] in
      let ctx := if String.eqb logoStyle "circle" then ctx ++ [Restore] else ctx in
      (ctx, [])
  end.

(** The body of the inner loop of [generateStyledQrCode]: the module at
    column [col] of row [row]. *)
Definition drawCell (modules : BitMatrix) (cellSize : float) (hasLogo : bool)
  (logoAreaStart logoAreaEnd : float) (style fgColor : string)
  (row : nat) (ctx : Ctx) (col : nat) : Ctx :=
  if modules_get modules col row then
    let x := ofNat col * cellSize in
    let y := ofNat row * cellSize in
    if hasLogo && (logoAreaStart <=? x) && (x <=? logoAreaEnd)
       && (logoAreaStart <=? y) && (y <=? logoAreaEnd)
    then ctx
    else drawStyledModule ctx x y cellSize style fgColor
  else ctx.

(** The canvas [generateStyledQrCode] has drawn when it calls [toBuffer],
    with what was logged; [None] when the encoder throws. *)
Definition renderCanvas (content : string) (styleConfig : QrStyleConfig)
  (logoBuffer : option Buffer) : option (Canvas * list string) :=
  let size := size styleConfig in
  match QRCode_create content (errorLevel styleConfig) with
  | None => None
  | Some modules =>
      let moduleCount := modules_size modules in
      let cellSize := size / ofNat moduleCount in
      let ctx := [SetFillStyle (Color (bgColor styleConfig)); FillRect 0 0 size size] in
      let hasLogo := match logoBuffer with Some _ => true | None => false end in
      let logoAreaSize := if hasLogo then size * 0.25 else 0 in
      let logoAreaStart := (size - logoAreaSize) / 2 in
      let logoAreaEnd := logoAreaStart + logoAreaSize in
      let ctx := ctx ++ [SetFillStyle (Color (fgColor styleConfig))] in
      let ctx :=
        fold_left
          (fun ctx row =>
             fold_left
               (drawCell modules cellSize hasLogo logoAreaStart logoAreaEnd
                  (style styleConfig) (fgColor styleConfig) row)
               (seq 0 moduleCount) ctx)
          (seq 0 moduleCount) ctx in
      let (ctx, logged) :=
        match logoBuffer with
        | Some logo => addLogoToCanvas ctx logo size (logoStyle styleConfig)
        | None => (ctx, [])
        end in
      Some ({| canvas_width := size; canvas_height := size; canvas_ops := ctx |},
            logged)
  end.

(** [generateStyledQrCode]. *)
Definition generateStyledQrCode (content : string) (styleConfig : QrStyleConfig)
  (logoBuffer : option Buffer) : option Buffer :=
  match renderCanvas content styleConfig logoBuffer with
  | Some (canvas, _) => Some (canvas_toBuffer canvas)
  | None => None
  end.

End Renderer.

(** ** [convertToFormat] and [addWatermark] *)

Definition dq : string := String (ascii_of_nat 34) EmptyString.

(** The text of a number in a template literal; an absent one prints as
    [undefined]. *)
Definition numberToString (n : option Z) : string :=
  match n with
  | Some z => NilZero.string_of_int (Z.to_int z)
  | None => "undefined"
  end.

(** [n - 10] in a template literal; [undefined - 10] is [NaN]. *)
Definition minusTen (n : option Z) : string :=
  match n with
  | Some z => NilZero.string_of_int (Z.to_int (z - 10))
  | None => "NaN"
  end.

Definition watermarkText : string := "QR Generator Pro".

(** The template literal of [addWatermark], line by line. *)
Definition watermarkSvg (width height : option Z) : string :=
  join newline
    [ "";
      "        <svg width=" +++ dq +++ numberToString width +++ dq
        +++ " height=" +++ dq +++ numberToString height +++ dq +++ ">";
      "          <text x=" +++ dq +++ minusTen width +++ dq
        +++ " y=" +++ dq +++ minusTen height +++ dq +++ " ";
      "                font-family=" +++ dq +++ "Arial" +++ dq
        +++ " font-size=" +++ dq +++ "12" +++ dq +++ " ";
      "                fill=" +++ dq +++ "rgba(0,0,0,0.5)" +++ dq
        +++ " text-anchor=" +++ dq +++ "end" +++ dq +++ ">";
      "            " +++ watermarkText;
      "          </text>";
      "        </svg>";
      "      " ].

(** [Buffer.from(s)]: the UTF-8 bytes of [s]. *)
Fixpoint bufferFrom (s : string) : Buffer :=
  match s with
  | EmptyString => []
  | String a r =>
      let n := nat_of_ascii a in
      (if (n <? 128)%nat then [byte_of_ascii a]
       else [byte_of_ascii (ascii_of_nat (192 + n / 64));
             byte_of_ascii (ascii_of_nat (128 + n mod 64))])
      ++ bufferFrom r
  end.

Section Converter.
Context {libs : Libraries}.

(** [addWatermark]: what the promise settles to ([None]: it rejects) and
    what was logged. The [catch] handles what is thrown or awaited inside
    the [try], which is [sharp(qrBuffer)] and [await image.metadata()]; the
    promise of [composite(...).toBuffer()] is returned without being awaited,
    so the promise of [addWatermark] settles as that one does. *)
Definition addWatermark (qrBuffer : Buffer) : option Buffer * list string :=
  match sharp_metadata qrBuffer with
  | None => (Some qrBuffer, ["Error adding watermark:"])
  | Some (width, height) =>
      (sharp_composite qrBuffer
         [{| overlay_input := bufferFrom (watermarkSvg width height);
             overlay_gravity := "southeast" |}],
       [])
  end.

(** [convertToFormat]. *)
Definition convertToFormat (qrBuffer : Buffer) (format : string)
  (withWatermark : bool) : option Buffer * list string :=
  let (processed, logged) :=
    if withWatermark then addWatermark qrBuffer else (Some qrBuffer, []) in
  match processed with
  | None => (None, logged)
  | Some processedBuffer =>
      if String.eqb format "jpg" then (sharp_jpeg 90 processedBuffer, logged)
      else if String.eqb format "png" then (sharp_png 90 processedBuffer, logged)
      else if String.eqb format "svg" then (Some processedBuffer, logged)
      else if String.eqb format "pdf" then (Some processedBuffer, logged)
      else (Some processedBuffer, logged)
  end.

End Converter.

(** ** Views of the store the statements use *)

(** The row [getSubscriptionInfo] reads for a user. *)
Definition currentSubscription (w : World) (userId : string) : option Subscription :=
  newest (filter (isCurrentOf userId) (subscriptions w)).

(** The remaining trial days of a row at time [now], as
    [getSubscriptionInfo] computes them. *)
Definition remainingTrialDays (s : Subscription) (now : Z) : Z :=
  match sub_planType s, sub_trialEnd s with
  | TRIAL, Some trialEnd => daysLeft trialEnd now
  | _, _ => 0
  end.

(** The user's current subscription is a trial with no day left. *)
Definition onExpiredTrial (w : World) (userId : string) : bool :=
  match currentSubscription w userId with
  | Some s => plan_eqb (sub_planType s) TRIAL && (remainingTrialDays s (clock w) =? 0)
  | None => false
  end.

(** Reading the user's subscription now would expire it. *)
Definition expiresOnRead (w : World) (userId : string) : bool :=
  match currentSubscription w userId with
  | Some s =>
      plan_eqb (sub_planType s) TRIAL
      && match sub_trialEnd s with
         | Some trialEnd => daysLeft trialEnd (clock w) =? 0
         | None => false
         end
      && status_eqb (sub_status s) TRIALING
  | None => false
  end.

(** The usage of a user for an action kind over the calendar month of now:
    the sum of the counters of the days of that month. *)
Definition calendarMonthUsage (w : World) (userId actionType : string) : Z :=
  fold_right Z.add 0
    (map usage_count
       (filter
          (fun u =>
             String.eqb (usage_userId u) userId
             && String.eqb (usage_actionType u) actionType
             && sameMonth (usage_date u) (clock w))
          (usageTrackings w))).

(** Every counter is dated at midnight, as [trackUsage] dates them. *)
Definition dayBucketed (w : World) : Prop :=
  Forall (fun u => usage_date u mod msPerDay = 0) (usageTrackings w).

(** What [getSubscriptionInfo] reports for a row. *)
Definition infoOf (s : Subscription) (now : Z) : SubscriptionInfo :=
  {| info_planType := sub_planType s;
     info_status := sub_status s;
     trialDaysLeft := remainingTrialDays s now;
     isTrialActive := 0 <? remainingTrialDays s now;
     info_currentPeriodEnd := sub_currentPeriodEnd s |}.

(** ** Worlds and libraries of the examples *)

Definition subscriptionRow (id : nat) (userId : string) (p : PlanType)
  (st : SubscriptionStatus) (trialStart trialEnd : option Z) (createdAt : Z)
  : Subscription :=
  {| sub_id := id; sub_userId := userId; sub_planType := p; sub_status := st;
     sub_trialStart := trialStart; sub_trialEnd := trialEnd;
     sub_stripeSubscriptionId := None; sub_stripeCustomerId := None;
     sub_currentPeriodStart := None; sub_currentPeriodEnd := None;
     sub_createdAt := createdAt |}.

(** The store after [expireTrial] on a row the table holds. *)
Definition afterExpiry (w : World) (s : Subscription) : World :=
  {| subscriptions :=
       map (fun r => if Nat.eqb (sub_id r) (sub_id s) then setStatus EXPIRED r else r)
         (subscriptions w)
       ++ [subscriptionRow (freshId (subscriptions w)) (sub_userId s) FREE ACTIVE
             None None (clock w)];
     usageTrackings := usageTrackings w;
     qrCodes := qrCodes w;
     clock := clock w |}.

(** 2024-03-01T00:00:00Z, 2024-03-15T00:00:00Z and 2024-03-15T12:00:00Z. *)
Definition march1 : Z := 1709251200000.
Definition march15 : Z := 1710460800000.
Definition march15noon : Z := 1710504000000.

(** A trial started on the first of March 2024, still [TRIALING]. *)
Definition aliceTrial : Subscription :=
  subscriptionRow 1 "alice" TRIAL TRIALING
    (Some march1) (Some (march1 + 14 * msPerDay)) march1.

(** Alice on the day after her trial ended. *)
Definition aliceAfterTrial : World :=
  {| subscriptions := [aliceTrial]; usageTrackings := []; qrCodes := [];
     clock := march1 + 15 * msPerDay |}.

(** A user on the free plan with [n] QR codes generated on the 15th. *)
Definition bobFree (n : Z) : World :=
  {| subscriptions := [subscriptionRow 1 "bob" FREE ACTIVE None None march1];
     usageTrackings :=
       [{| usage_userId := "bob"; usage_actionType := "QR_GENERATED";
           usage_count := n; usage_date := march15 |}];
     qrCodes := [];
     clock := march15noon |}.

(** An enterprise user with ten million of everything this month. *)
Definition carolEnterprise : World :=
  {| subscriptions := [subscriptionRow 1 "carol" ENTERPRISE ACTIVE None None march1];
     usageTrackings :=
       [{| usage_userId := "carol"; usage_actionType := "QR_GENERATED";
           usage_count := 10000000; usage_date := march15 |};
        {| usage_userId := "carol"; usage_actionType := "API_CALL";
           usage_count := 10000000; usage_date := march15 |}];
     qrCodes :=
       [{| qr_id := 1; qr_userId := "carol"; qr_content := "https://example.com";
           qr_isDynamic := true; qr_isActive := true |}];
     clock := march15noon |}.

(** A trial row that ended and was left in status PAST_DUE. *)
Definition daveStaleTrial : World :=
  {| subscriptions :=
       [subscriptionRow 1 "dave" TRIAL PAST_DUE
          (Some march1) (Some (march1 + 14 * msPerDay)) march1];
     usageTrackings := []; qrCodes := [];
     clock := march1 + 15 * msPerDay |}.

(** A user with no subscription row. *)
Definition erinUnsubscribed : World :=
  {| subscriptions := []; usageTrackings := []; qrCodes := [];
     clock := march15noon |}.

(** The payload of one type with no other field set. *)
Definition payload (t : QrType) : QrContentData :=
  {| qrType := t; content := ""; industryTemplate := None;
     emailAddress := None; emailSubject := None; emailBody := None;
     phoneNumber := None; smsNumber := None; smsMessage := None;
     wifiSsid := None; wifiPassword := None; wifiSecurity := None;
     wifiHidden := None; vcardData := None; latitude := None; longitude := None;
     socialPlatform := None; socialHandle := None; reviewUrl := None |}.

Definition socialPayload (platform handle : option string) : QrContentData :=
  {| qrType := SOCIAL; content := ""; industryTemplate := None;
     emailAddress := None; emailSubject := None; emailBody := None;
     phoneNumber := None; smsNumber := None; smsMessage := None;
     wifiSsid := None; wifiPassword := None; wifiSecurity := None;
     wifiHidden := None; vcardData := None; latitude := None; longitude := None;
     socialPlatform := platform; socialHandle := handle; reviewUrl := None |}.

Definition vcardPayload (vcard : option VcardData) : QrContentData :=
  {| qrType := VCARD; content := ""; industryTemplate := None;
     emailAddress := None; emailSubject := None; emailBody := None;
     phoneNumber := None; smsNumber := None; smsMessage := None;
     wifiSsid := None; wifiPassword := None; wifiSecurity := None;
     wifiHidden := None; vcardData := vcard; latitude := None; longitude := None;
     socialPlatform := None; socialHandle := None; reviewUrl := None |}.

(** [VCARD{firstName: "Jane"}]. *)
Definition janeCard : VcardData :=
  {| firstName := Some "Jane"; lastName := None; organization := None;
     phone := None; email := None; url := None |}.

(** Jane at an organization whose name ends with a colon. *)
Definition janeAtAcme : VcardData :=
  {| firstName := Some "Jane"; lastName := None; organization := Some "Acme:";
     phone := None; email := None; url := None |}.

(** ** The formatter in the words of the specification *)

(** The handle with a leading [@] stripped. *)
Definition stripLeadingAt (handle : string) : string :=
  match handle with
  | String "@"%char rest => rest
  | _ => handle
  end.

(** The fixed base URL of a platform; twitter's for a platform that is not
    one of the seven. *)
Definition socialBaseUrl (platform : option string) : string :=
  match find (fun entry => String.eqb (fst entry) (orEmpty platform)) socialUrls with
  | Some (_, base) => base
  | None => "https://twitter.com/"
  end.

Definition socialContentSpec (platform handle : option string) : string :=
  socialBaseUrl platform +++ stripLeadingAt (orEmpty handle).

(** What follows the first colon of a line. *)
Fixpoint afterColon (line : string) : string :=
  match line with
  | EmptyString => EmptyString
  | String a rest => if Ascii.eqb a ":"%char then rest else afterColon rest
  end.

(** The line carries a value after its colon. *)
Definition carriesValue (line : string) : bool :=
  match afterColon line with
  | EmptyString => false
  | _ => true
  end.

(** [s.startsWith(pre)]. *)
Fixpoint startsWith (s pre : string) {struct pre} : bool :=
  match pre with
  | EmptyString => true
  | String a pre' =>
      match s with
      | EmptyString => false
      | String b s' => Ascii.eqb a b && startsWith s' pre'
      end
  end.

(** The optional fields of a card with the prefix of their line. *)
Definition optionalFields (vcard : VcardData) : list (string * option string) :=
  [ ("ORG:", organization vcard); ("TEL:", phone vcard);
    ("EMAIL:", email vcard); ("URL:", url vcard) ].

(** The card of a payload: [data.vcardData || {}]. *)
Definition cardOf (data : QrContentData) : VcardData :=
  match vcardData data with
  | Some v => v
  | None => emptyVcard
  end.

(** ** The keep-out zone and the cells of a grid *)

(** The centered square of side [0.25 * size] on a canvas of side [size]:
    its lower and upper bound on both axes. *)
Definition keepOutZone (size : float) : float * float :=
  let side := (size * 0.25)%float in
  let lo := ((size - side) / 2)%float in
  (lo, (lo + side)%float).

(** The point [(x, y)] lies in the keep-out zone, borders included. *)
Definition insideKeepOut (size x y : float) : bool :=
  let (lo, hi) := keepOutZone size in
  ((lo <=? x) && (x <=? hi) && (lo <=? y) && (y <=? hi))%float.

(** The cells of a grid of side [n], row by row: (row, column). *)
Definition cells (n : nat) : list (nat * nat) :=
  flat_map (fun row => map (fun col => (row, col)) (seq 0 n)) (seq 0 n).

(** The top-left corner of a cell. *)
Definition cornerOf (cellSize : float) (cell : nat * nat) : float * float :=
  ((ofNat (snd cell) * cellSize)%float, (ofNat (fst cell) * cellSize)%float).

Definition isDark (modules : BitMatrix) (cell : nat * nat) : bool :=
  modules_get modules (snd cell) (fst cell).

Definition outsideKeepOut (size cellSize : float) (cell : nat * nat) : bool :=
  negb (insideKeepOut size (fst (cornerOf cellSize cell)) (snd (cornerOf cellSize cell))).

(** The commands that paint the cells of [l], in order. *)
Definition paintCells (cellSize : float) (style fgColor : string)
  (l : list (nat * nat)) : Ctx :=
  flat_map
    (fun cell =>
       drawStyledModule [] (fst (cornerOf cellSize cell)) (snd (cornerOf cellSize cell))
         cellSize style fgColor)
    l.

(** The commands before the modules: the background, then the foreground
    colour. *)
Definition backgroundOps (styleConfig : QrStyleConfig) : Ctx :=
  [ SetFillStyle (Color (bgColor styleConfig));
    FillRect 0 0 (size styleConfig) (size styleConfig);
    SetFillStyle (Color (fgColor styleConfig)) ].

(** The side of a cell: [size / moduleCount]. *)
Definition cellSizeOf (styleConfig : QrStyleConfig) (modules : BitMatrix) : float :=
  (size styleConfig / ofNat (modules_size modules))%float.

(** The dark cells of the symbol, row by row. *)
Definition darkCells (modules : BitMatrix) : list (nat * nat) :=
  filter (isDark modules) (cells (modules_size modules)).

(** The dark cells whose top-left corner lies outside the keep-out zone. *)
Definition darkCellsOutside (styleConfig : QrStyleConfig) (modules : BitMatrix)
  : list (nat * nat) :=
  filter
    (fun cell =>
       isDark modules cell
       && outsideKeepOut (size styleConfig) (cellSizeOf styleConfig modules) cell)
    (cells (modules_size modules)).

Definition isDrawImage (op : CanvasOp) : bool :=
  match op with
  | DrawImage _ _ _ _ _ => true
  | _ => false
  end.

(** A command that puts ink on the canvas: [fillRect] or [fill]. *)
Definition isFill (op : CanvasOp) : bool :=
  match op with
  | FillRect _ _ _ _ | Fill => true
  | _ => false
  end.

(** The style names [drawStyledModule] has a case for; any other style is
    drawn as a plain square. *)
Definition styledNames : list string :=
  ["rounded"; "circle"; "diamond"; "dotted"; "gradient"; "neon"; "minimal"].

(** The commands of a plain square module. *)
Definition squareOps (cellSize : float) (fgColor : string) (cell : nat * nat) : Ctx :=
  [ SetFillStyle (Color fgColor);
    FillRect (fst (cornerOf cellSize cell)) (snd (cornerOf cellSize cell))
      cellSize cellSize ].

Definition canvasOf (styleConfig : QrStyleConfig) (ops : Ctx) : Canvas :=
  {| canvas_width := size styleConfig; canvas_height := size styleConfig;
     canvas_ops := ops |}.

(** ** Libraries of the examples *)

(** A 21 by 21 symbol: a checkerboard. *)
Definition checkerboard : BitMatrix :=
  {| modules_size := 21; modules_get := fun col row => Nat.even (col + row) |}.

(** Libraries in which the encoder refuses the empty text, as the real one
    does, and every image decodes but the empty one. *)
Definition demoLibraries : Libraries :=
  {| QRCode_create := fun text _ => match text with
                                    | EmptyString => None
                                    | _ => Some checkerboard
                                    end;
     loadImage := fun b => match b with
                           | [] => None
                           | _ => Some {| image_source := b |}
                           end;
     canvas_toBuffer := fun c => bufferFrom "PNG";
     sharp_metadata := fun b => match b with
                                | [] => None
                                | _ => Some (Some 400, Some 400)
                                end;
     sharp_composite := fun b overlays => Some (b ++ flat_map overlay_input overlays);
     sharp_jpeg := fun q b => Some (bufferFrom "JPEG" ++ b);
     sharp_png := fun q b => Some (bufferFrom "PNG" ++ b) |}.

(** Libraries for an image whose header reads and whose pixel data is cut
    short: [metadata()] succeeds and the pipeline rejects at [toBuffer()]. *)
Definition truncatedImageLibraries : Libraries :=
  {| QRCode_create := fun _ _ => Some checkerboard;
     loadImage := fun _ => None;
     canvas_toBuffer := fun c => bufferFrom "PNG";
     sharp_metadata := fun _ => Some (Some 400, Some 400);
     sharp_composite := fun _ _ => None;
     sharp_jpeg := fun _ _ => None;
     sharp_png := fun _ _ => None |}.

Definition demoStyle : QrStyleConfig :=
  {| size := 400%float; errorLevel := M; fgColor := "#000000";
     bgColor := "#ffffff"; style := "square"; logoStyle := None |}.

Definition someBytes : Buffer := bufferFrom "logo".

(** ** Views of the counters, of the limits and of the rows *)

(** The [where] of the monthly aggregate at time [now]. *)
Definition inMonthOf (now : Z) (userId actionType : string) (u : UsageTracking) : bool :=
  String.eqb (usage_userId u) userId
  && String.eqb (usage_actionType u) actionType
  && (mkDate (getFullYear now) (getMonth now) 1 <=? usage_date u)
  && (usage_date u <=? mkDate (getFullYear now) (getMonth now + 1) 0).

(** The sum of the counts of rows. *)
Definition sumCounts (rows : list UsageTracking) : Z :=
  fold_right Z.add 0 (map usage_count rows).

(** The compound key [userId_actionType_date] of a counter. *)
Definition counterKey (u : UsageTracking) : string * string * Z :=
  (usage_userId u, usage_actionType u, usage_date u).

(** The key is unique in the table. *)
Definition uniqueCounters (w : World) : Prop :=
  NoDup (map counterKey (usageTrackings w)).

(** The number of active dynamic codes of a user, as
    [prisma.qrCode.count] counts them. *)
Definition activeDynamicCodes (w : World) (userId : string) : Z :=
  Z.of_nat (List.length
    (filter (fun q => String.eqb (qr_userId q) userId && qr_isDynamic q && qr_isActive q)
       (qrCodes w))).

(** The limits [getPlanLimits] resolves to for a user. *)
Definition limitsOf (w : World) (userId : string) : UsageLimits :=
  match currentSubscription w userId with
  | Some s => PLAN_LIMITS (sub_planType s)
  | None => PLAN_LIMITS FREE
  end.

(** The rows of a user. *)
Definition rowsOf (userId : string) (l : list Subscription) : list Subscription :=
  filter (fun s => String.eqb (sub_userId s) userId) l.

(** A user on the PRO plan with [n] active dynamic codes and [calls] API
    calls counted on the 15th. *)
Definition gracePro (n : nat) (calls : Z) : World :=
  {| subscriptions := [subscriptionRow 1 "grace" PRO ACTIVE None None march1];
     usageTrackings :=
       [{| usage_userId := "grace"; usage_actionType := "API_CALL";
           usage_count := calls; usage_date := march15 |}];
     qrCodes :=
       map (fun i => {| qr_id := i; qr_userId := "grace";
                        qr_content := "https://example.com";
                        qr_isDynamic := true; qr_isActive := true |})
         (seq 1 n);
     clock := march15noon |}.

(** The [where] of [processExpiredTrials] at time [now]. *)
Definition lapsedTrial (now : Z) (s : Subscription) : bool :=
  plan_eqb (sub_planType s) TRIAL
  && status_eqb (sub_status s) TRIALING
  && match sub_trialEnd s with
     | Some e => e <? now
     | None => false
     end.

(** The free rows [expireTrial] inserts for a list of trials, from the key
    [id] on. *)
Fixpoint freeRows (id : nat) (now : Z) (trials : list Subscription)
  : list Subscription :=
  match trials with
  | [] => []
  | t :: rest =>
      subscriptionRow id (sub_userId t) FREE ACTIVE None None now
      :: freeRows (S id) now rest
  end.

(** The store read at a later time. *)
Definition atTime (w : World) (t : Z) : World :=
  {| subscriptions := subscriptions w; usageTrackings := usageTrackings w;
     qrCodes := qrCodes w; clock := t |}.

(** Every row was inserted before now. *)
Definition createdInThePast (w : World) : Prop :=
  Forall (fun s => sub_createdAt s < clock w) (subscriptions w).

(** ** [createQrCode] *)

(** Modelled from the spec: the Prisma schema is not among the sources. The
    value [create] gives the column [isActive] of a QR code, which no caller
    sets, is a parameter of the model. *)
Class Schema := { qrCode_isActive_default : bool }.

Definition putQrCodes (l : list QrCode) : Prisma unit :=
  fun w =>
    (Ok tt,
     {| subscriptions := subscriptions w; usageTrackings := usageTrackings w;
        qrCodes := l; clock := clock w |}).

(** A key no row of the table has. *)
Definition freshQrId (l : list QrCode) : nat :=
  S (fold_right Nat.max 0%nat (map qr_id l)).

(** The [data] of [prisma.qrCode.create]. *)
Record QrCodeData := {
  qrData_userId : string;
  qrData_title : option string;
  qrData_content : string;
  qrData_qrType : QrType;
  qrData_industryTemplate : option string;
  qrData_styleConfig : QrStyleConfig;
  qrData_isDynamic : bool
}.

(** [prisma.qrCode.create], as the database carries it out when it accepts
    the write: the row inserted, on the columns the model carries; the
    title, the type, the template and the style are stored in columns no
    modelled method reads. *)
Definition qrCode_create {schema : Schema} (data : QrCodeData) : Prisma QrCode :=
  l <- getQrCodes ;;
  let row :=
    {| qr_id := freshQrId l; qr_userId := qrData_userId data;
       qr_content := qrData_content data;
       qr_isDynamic := qrData_isDynamic data;
       qr_isActive := qrCode_isActive_default |} in
  putQrCodes (l ++ [row]) ;;;
  ret row.

(** The two writes [createQrCode] awaits itself. *)
Inductive Write := QrCodeCreate | UsageUpsert.

(** What the database does with an awaited write of [createQrCode]: it may
    reject it (a lost connection, a violated constraint), on grounds the
    tables of the model do not hold. A rejected write changes nothing, and
    nothing written before it is rolled back: the service opens no
    transaction. *)
Class Database := { rejects : Write -> World -> bool }.

(** What a rejected promise of [createQrCode] carries: [new Error(message)],
    what the encoder threw, what the quota check threw, or the error of the
    write the database rejected. *)
Inductive Rejection :=
| Error (message : string)
| EncoderError
| StoreError (e : PrismaError)
| WriteRejected (write : Write).

Inductive Settled (A : Type) :=
| Resolved (a : A)
| Rejected (r : Rejection).
Arguments Resolved {A} a.
Arguments Rejected {A} r.

(** [reason || 'Cannot generate QR code']. *)
Definition reasonOr (reason : option string) (fallback : string) : string :=
  if truthy reason then orEmpty reason else fallback.

Section QrCodeService.
Context {libs : Libraries} {schema : Schema} {database : Database}.

(** [createQrCode]; it resolves to the key of the row and the image. The
    row is created before the usage is tracked, each by an awaited write of
    its own. *)
Definition createQrCode (userId : string) (contentData : QrContentData)
  (styleConfig : QrStyleConfig) (title : option string) (logoBuffer : option Buffer)
  : World -> Settled (nat * Buffer) * World :=
  fun w =>
    match canPerformAction userId qr_generated w with
    | (Throw e, w) => (Rejected (StoreError e), w)
    | (Ok canGenerate, w) =>
        if negb (allowed canGenerate)
        then (Rejected (Error (reasonOr (reason canGenerate) "Cannot generate QR code")), w)
        else
          let content := generateQrContent contentData in
          match generateStyledQrCode content styleConfig logoBuffer with
          | None => (Rejected EncoderError, w)
          | Some qrBuffer =>
              if rejects QrCodeCreate w
              then (Rejected (WriteRejected QrCodeCreate), w)
              else
                match
                  qrCode_create
                    {| qrData_userId := userId; qrData_title := title;
                       qrData_content := content;
                       qrData_qrType := qrType contentData;
                       qrData_industryTemplate := industryTemplate contentData;
                       qrData_styleConfig := styleConfig;
                       qrData_isDynamic := false |} w
                with
                | (Throw e, w) => (Rejected (StoreError e), w)
                | (Ok qrCode, w) =>
                    if rejects UsageUpsert w
                    then (Rejected (WriteRejected UsageUpsert), w)
                    else
                      match trackUsage userId "QR_GENERATED" 1 w with
                      | (Throw e, w) => (Rejected (StoreError e), w)
                      | (Ok _, w) => (Resolved (qr_id qrCode, qrBuffer), w)
                      end
                end
          end
    end.

End QrCodeService.

(** A schema in which a new code is active. *)
Definition demoSchema : Schema := {| qrCode_isActive_default := true |}.

(** A database that accepts every write, and one that is lost when the
    usage is to be tracked. *)
Definition reliableDatabase : Database := {| rejects := fun _ _ => false |}.

Definition lostBeforeUpsert : Database :=
  {| rejects := fun write _ =>
                  match write with
                  | UsageUpsert => true
                  | QrCodeCreate => false
                  end |}.

(** The payload of a link to a home page. *)
Definition homePage : QrContentData :=
  {| qrType := URL; content := "https://example.com"; industryTemplate := None;
     emailAddress := None; emailSubject := None; emailBody := None;
     phoneNumber := None; smsNumber := None; smsMessage := None;
     wifiSsid := None; wifiPassword := None; wifiSecurity := None;
     wifiHidden := None; vcardData := None; latitude := None; longitude := None;
     socialPlatform := None; socialHandle := None; reviewUrl := None |}.

(** ** The middleware [checkSubscriptionAccess] *)

(** What a middleware does with a request: it calls [next()], here with the
    subscription it attached to the request, or it answers with a status and
    a body [{ success: false, error, message }]. *)
Inductive Handled :=
| Next (subscription : Subscription)
| Respond (status : Z) (error : string) (message : option string).

(** [status: { in: ['ACTIVE', 'TRIALING'] }]. *)
Definition isActiveOrTrialing (st : SubscriptionStatus) : bool :=
  match st with
  | ACTIVE | TRIALING => true
  | PAST_DUE | CANCELED | EXPIRED => false
  end.

Definition isAccessOf (userId : string) (s : Subscription) : bool :=
  String.eqb (sub_userId s) userId && isActiveOrTrialing (sub_status s).

(** [checkSubscriptionAccess] on [req.user]; an error thrown inside the
    [try] is logged and answered with status 500. *)
Definition checkSubscriptionAccess (user : option string) : World -> Handled * World :=
  fun w =>
    match user with
    | None => (Respond 401 "Authentication required" None, w)
    | Some userId =>
        let attempt : Prisma Handled :=
          subscription <- subscription_findFirst (isAccessOf userId) ;;
          match subscription with
          | None =>
              ret (Respond 403 "No active subscription found"
                     (Some "Please subscribe to access this feature"))
          | Some subscription =>
              match sub_planType subscription, sub_trialEnd subscription with
              | TRIAL, Some trialEnd =>
                  now <- newDate ;;
                  if trialEnd <? now
                  then
                    subscription_update (sub_id subscription) EXPIRED ;;;
                    ret (Respond 403 "Trial expired"
                           (Some ("Your free trial has expired. Please upgrade to "
                                  +++ "continue using the service")))
                  else ret (Next subscription)
              | _, _ => ret (Next subscription)
              end
          end in
        match attempt w with
        | (Ok handled, w) => (handled, w)
        | (Throw _, w) =>
            (Respond 500 "Failed to verify subscription status" None, w)
        end
    end.

(** The row [checkSubscriptionAccess] reads for a user. *)
Definition accessSubscription (w : World) (userId : string) : option Subscription :=
  newest (filter (isAccessOf userId) (subscriptions w)).

(** ** Escaped components and the payloads of the examples *)

(** The characters an escaped component is made of: the unreserved ones,
    the percent sign and the digits of an escape. *)
Definition isEscapedChar (a : ascii) : bool :=
  isUriUnreserved a || Ascii.eqb a "%"%char.

Fixpoint allChars (p : ascii -> bool) (s : string) : bool :=
  match s with
  | EmptyString => true
  | String a r => p a && allChars p r
  end.

(** [s] starts with a character of an escaped component. *)
Definition startsEscaped (s : string) : bool :=
  match s with
  | String a _ => isEscapedChar a
  | EmptyString => false
  end.

(** An optional string as the conditions of the formatter see it: an empty
    one counts as absent. *)
Definition given (o : option string) : option string :=
  if truthy o then o else None.

(** An email payload. *)
Definition emailPayload (address subject body : option string) : QrContentData :=
  {| qrType := EMAIL; content := ""; industryTemplate := None;
     emailAddress := address; emailSubject := subject; emailBody := body;
     phoneNumber := None; smsNumber := None; smsMessage := None;
     wifiSsid := None; wifiPassword := None; wifiSecurity := None;
     wifiHidden := None; vcardData := None; latitude := None; longitude := None;
     socialPlatform := None; socialHandle := None; reviewUrl := None |}.

(** An SMS payload. *)
Definition smsPayload (number message : option string) : QrContentData :=
  {| qrType := SMS; content := ""; industryTemplate := None;
     emailAddress := None; emailSubject := None; emailBody := None;
     phoneNumber := None; smsNumber := number; smsMessage := message;
     wifiSsid := None; wifiPassword := None; wifiSecurity := None;
     wifiHidden := None; vcardData := None; latitude := None; longitude := None;
     socialPlatform := None; socialHandle := None; reviewUrl := None |}.

(** ** Strings of any code unit

    A string of the runtime is a sequence of UTF-16 code units, numbers
    from 0 to 65535; [string] above holds the code units below 256 only. *)

Definition isCodeUnit (c : Z) : bool := (0 <=? c) && (c <? 65536).

Definition allUnits (s : list Z) : bool := forallb isCodeUnit s.

(** The code units of a string of code units below 256. *)
Definition units (s : string) : list Z :=
  map (fun a => Z.of_nat (nat_of_ascii a)) (list_ascii_of_string s).

Definition isLeadingSurrogate (c : Z) : bool := (55296 <=? c) && (c <=? 56319).

Definition isTrailingSurrogate (c : Z) : bool := (56320 <=? c) && (c <=? 57343).

(** The code point a surrogate pair stands for. *)
Definition codePointOfPair (lead trail : Z) : Z :=
  65536 + (lead - 55296) * 1024 + (trail - 56320).

(** The code units [encodeURIComponent] leaves alone. *)
Definition isUnescaped (c : Z) : bool :=
  (0 <=? c) && (c <? 128) && isUriUnreserved (ascii_of_nat (Z.to_nat c)).

(** The octets of the UTF-8 encoding of a code point. *)
Definition utf8 (cp : Z) : list Z :=
  if cp <? 128 then [cp]
  else if cp <? 2048 then [192 + cp / 64; 128 + cp mod 64]
  else if cp <? 65536
  then [224 + cp / 4096; 128 + (cp / 64) mod 64; 128 + cp mod 64]
  else [240 + cp / 262144; 128 + (cp / 4096) mod 64;
        128 + (cp / 64) mod 64; 128 + cp mod 64].

(** [%XX] for each octet. *)
Definition escapeOctets (octets : list Z) : string :=
  fold_right (fun b rest => percentByte (Z.to_nat b) +++ rest) "" octets.

(** [encodeURIComponent] on any string: a code unit that is not left alone
    is read as a code point, with the trailing surrogate that follows it
    when it is a leading one, and replaced by the escaped octets of the
    UTF-8 encoding of that code point; [None] is the [URIError] thrown on a
    surrogate without its pair. What it returns holds code units below 128
    only. *)
Fixpoint encodeURIComponent16 (s : list Z) : option string :=
  match s with
  | [] => Some ""
  | c :: r =>
      if isUnescaped c
      then option_map (String (ascii_of_nat (Z.to_nat c))) (encodeURIComponent16 r)
      else if isTrailingSurrogate c then None
      else if isLeadingSurrogate c
      then match r with
           | d :: r' =>
               if isTrailingSurrogate d
               then option_map (String.append (escapeOctets (utf8 (codePointOfPair c d))))
                      (encodeURIComponent16 r')
               else None
           | [] => None
           end
      else option_map (String.append (escapeOctets (utf8 c))) (encodeURIComponent16 r)
  end.

(** [s] holds a surrogate without its pair: a trailing one that no leading
    one precedes, or a leading one that no trailing one follows. *)
Fixpoint hasLoneSurrogate (s : list Z) : bool :=
  match s with
  | [] => false
  | c :: r =>
      if isTrailingSurrogate c then true
      else if isLeadingSurrogate c
      then match r with
           | d :: r' => if isTrailingSurrogate d then hasLoneSurrogate r' else true
           | [] => true
           end
      else hasLoneSurrogate r
  end.

(** The code points [encodeURIComponent] reads: below 1114112 and no
    surrogate. *)
Definition isScalar (cp : Z) : bool :=
  (0 <=? cp) && (cp <? 1114112)
  && negb (isLeadingSurrogate cp) && negb (isTrailingSurrogate cp).

(** The code units of a code point. *)
Definition unitsOfPoint (cp : Z) : list Z :=
  if cp <? 65536 then [cp]
  else [55296 + (cp - 65536) / 1024; 56320 + (cp - 65536) mod 1024].

(** What [encodeURIComponent] writes for a code point. *)
Definition escapePoint (cp : Z) : string :=
  if isUnescaped cp then String (ascii_of_nat (Z.to_nat cp)) EmptyString
  else escapeOctets (utf8 cp).

Definition truthy16 (o : option (list Z)) : bool :=
  match o with
  | Some (_ :: _) => true
  | _ => false
  end.

Definition orEmpty16 (o : option (list Z)) : list Z :=
  match o with
  | Some s => s
  | None => []
  end.

(** As [given], on any string. *)
Definition given16 (o : option (list Z)) : option (list Z) :=
  if truthy16 o then o else None.

Definition valid16 (o : option (list Z)) : bool := allUnits (orEmpty16 o).

(** [params.join(sep)]. *)
Fixpoint join16 (sep : list Z) (params : list (list Z)) : list Z :=
  match params with
  | [] => []
  | [p] => p
  | p :: rest => p ++ sep ++ join16 sep rest
  end.

(** The EMAIL case of [generateQrContent] on strings of any code unit;
    [None] when [encodeURIComponent] throws. *)
Definition emailCase (address subject body : option (list Z)) : option (list Z) :=
  let emailContent := units "mailto:" ++ orEmpty16 address in
  match
    (if truthy16 subject
     then option_map (fun escaped => [units "subject=" ++ units escaped])
            (encodeURIComponent16 (orEmpty16 subject))
     else Some [])
  with
  | None => None
  | Some subjectParam =>
      match
        (if truthy16 body
         then option_map (fun escaped => [units "body=" ++ units escaped])
                (encodeURIComponent16 (orEmpty16 body))
         else Some [])
      with
      | None => None
      | Some bodyParam =>
          let params := subjectParam ++ bodyParam in
          Some (if (0 <? List.length params)%nat
                then emailContent ++ units "?" ++ join16 (units "&") params
                else emailContent)
      end
  end.

(** The SMS case of [generateQrContent] on strings of any code unit. *)
Definition smsCase (number message : option (list Z)) : option (list Z) :=
  match
    (if truthy16 message
     then option_map (fun escaped => units "?body=" ++ units escaped)
            (encodeURIComponent16 (orEmpty16 message))
     else Some [])
  with
  | None => None
  | Some query => Some (units "sms:" ++ orEmpty16 number ++ query)
  end.

(** The query of an email link, by the subject and the body given. *)
Definition emailQuery (subject body : option (list Z)) : option string :=
  match subject, body with
  | Some s, Some b =>
      match encodeURIComponent16 s, encodeURIComponent16 b with
      | Some es, Some eb => Some ("?subject=" +++ es +++ "&body=" +++ eb)
      | _, _ => None
      end
  | Some s, None => option_map (String.append "?subject=") (encodeURIComponent16 s)
  | None, Some b => option_map (String.append "?body=") (encodeURIComponent16 b)
  | None, None => Some ""
  end.

(** The euro sign, and the two code units of U+1F600. *)
Definition euro : Z := 8364.

Definition grinningFace : list Z := [55357; 56832].

(** ** [AuthUtils.extractTokenFromHeader] *)

(** [s.split(sep)] for a one-character separator: the pieces between the
    occurrences of [sep]; a string without one is its only piece. *)
Fixpoint splitOn (sep : ascii) (s : string) : list string :=
  match s with
  | EmptyString => [EmptyString]
  | String a r =>
      if Ascii.eqb a sep then EmptyString :: splitOn sep r
      else
        match splitOn sep r with
        | piece :: rest => String a piece :: rest
        | [] => [String a EmptyString]
        end
  end.

(** [extractTokenFromHeader]; [None] is [null]. *)
Definition extractTokenFromHeader (authHeader : option string) : option string :=
  if negb (truthy authHeader) then None
  else
    match splitOn " "%char (orEmpty authHeader) with
    | [scheme; token] => if String.eqb scheme "Bearer" then Some token else None
    | _ => None
    end.

(** A colour written [#rrggbb], from its three channels. *)
Definition twoHex (v : Z) : string := padStart2 (toHex v).

Definition rgb (r g b : Z) : string := "#" +++ twoHex r +++ twoHex g +++ twoHex b.

Definition clampByte (x : Z) : Z := Z.max 0 (Z.min 255 x).

(** ** The drawing state of a context

    The part of the drawing state the commands of the service set besides
    the fill style: the global alpha, the blur of the shadow, and the stack of
    the states saved. A new context paints opaque and without shadow;
    [restore] on an empty stack does nothing. *)
Record DrawingState := {
  globalAlpha : float;
  shadowBlur : float;
  savedStates : list (float * float)
}.

Definition initialState : DrawingState :=
  {| globalAlpha := 1%float; shadowBlur := 0%float; savedStates := [] |}.

Definition runOp (st : DrawingState) (op : CanvasOp) : DrawingState :=
  match op with
  | SetGlobalAlpha a =>
      {| globalAlpha := a; shadowBlur := shadowBlur st; savedStates := savedStates st |}
  | SetShadowBlur b =>
      {| globalAlpha := globalAlpha st; shadowBlur := b; savedStates := savedStates st |}
  | Save =>
      {| globalAlpha := globalAlpha st; shadowBlur := shadowBlur st;
         savedStates := (globalAlpha st, shadowBlur st) :: savedStates st |}
  | Restore =>
      match savedStates st with
      | (a, b) :: rest => {| globalAlpha := a; shadowBlur := b; savedStates := rest |}
      | [] => st
      end
  | _ => st
  end.

Definition runOps (ops : Ctx) (st : DrawingState) : DrawingState :=
  fold_left runOp ops st.

(** The states in which the images of [ops] are drawn, in order. *)
Fixpoint statesAtImages (ops : Ctx) (st : DrawingState) : list DrawingState :=
  match ops with
  | [] => []
  | op :: rest =>
      (if isDrawImage op then [st] else []) ++ statesAtImages rest (runOp st op)
  end.

(** Opaque and without shadow. *)
Definition plain (st : DrawingState) : Prop :=
  globalAlpha st = 1%float /\ shadowBlur st = 0%float.

(** ** Proof steps *)

(** Splits on every comparison of a style name. *)
Ltac case_names :=
  repeat match goal with
         | |- context [String.eqb ?a ?b] => destruct (String.eqb a b)
         end.

(** Linear arithmetic with quotients and remainders by constants. *)
Ltac lia_div := Z.to_euclidean_division_equations; lia.

(** Unfolds the plumbing of a computation over the store. *)
Ltac run_prisma :=
  unfold bind, ret, throw, newDate, getSubscriptions, putSubscriptions,
    getUsageTrackings, putUsageTrackings, getQrCodes.

(* ================================================================== *)
(** * Part II. Properties *)
(* ================================================================== *)

(** ** The calendar *)

(** A year from March has 365 or 366 days. *)
Lemma daysBeforeYear_step (Y : Z) :
  365 <= daysBeforeYear (Y + 1) - daysBeforeYear Y <= 366.
Proof. unfold daysBeforeYear; lia_div. Qed.

(** The first day of the month [k] months after March of year [Y]. *)
Lemma firstDay_from_march (Y k : Z) :
  0 <= k <= 11 ->
  firstDay (12 * Y + k + 2) = daysBeforeYear Y + (153 * k + 2) / 5 - 719468.
Proof.
  intros Hk; unfold firstDay, days_from_civil, daysBeforeYear.
  destruct (Z_le_gt_dec k 9) as [H9|H9].
  - assert (Hq : (12 * Y + k + 2) / 12 = Y) by lia_div.
    assert (Hr : (12 * Y + k + 2) mod 12 = k + 2) by lia_div.
    rewrite Hq, Hr.
    destruct (Z.leb_spec (k + 2 + 1) 2); [lia|].
    destruct (Z.ltb_spec 2 (k + 2 + 1)); [|lia].
    cbv zeta; replace (k + 2 + 1 - 3) with k by ring.
    generalize ((153 * k + 2) / 5); intros g; lia_div.
  - assert (Hq : (12 * Y + k + 2) / 12 = Y + 1) by lia_div.
    assert (Hr : (12 * Y + k + 2) mod 12 = k - 10) by lia_div.
    rewrite Hq, Hr.
    destruct (Z.leb_spec (k - 10 + 1) 2); [|lia].
    destruct (Z.ltb_spec 2 (k - 10 + 1)); [lia|].
    cbv zeta; replace (k - 10 + 1 + 9) with k by ring.
    replace (Y + 1 - 1) with Y by ring.
    generalize ((153 * k + 2) / 5); intros g; lia_div.
Qed.

(** Months follow one another. *)
Lemma firstDay_step (i : Z) : firstDay i < firstDay (i + 1).
Proof.
  assert (Hi : i = 12 * ((i - 2) / 12) + (i - 2) mod 12 + 2) by lia_div.
  assert (Hk : 0 <= (i - 2) mod 12 <= 11) by lia_div.
  revert Hi Hk; generalize ((i - 2) / 12) ((i - 2) mod 12); intros Y k -> Hk.
  rewrite (firstDay_from_march Y k Hk).
  destruct (Z_le_gt_dec k 10) as [H10|H10].
  - replace (12 * Y + k + 2 + 1) with (12 * Y + (k + 1) + 2) by ring.
    rewrite (firstDay_from_march Y (k + 1)) by lia.
    lia_div.
  - replace (12 * Y + k + 2 + 1) with (12 * (Y + 1) + 0 + 2) by lia.
    rewrite (firstDay_from_march (Y + 1) 0) by lia.
    pose proof (daysBeforeYear_step Y) as Hs.
    replace k with 11 by lia.
    change ((153 * 11 + 2) / 5) with 337; change ((153 * 0 + 2) / 5) with 0; lia.
Qed.

(** The year of the era of a day of the era. *)
Lemma year_of_era (doe : Z) :
  0 <= doe < 146097 ->
  let yoe := (doe - doe / 1460 + doe / 36524 - doe / 146096) / 365 in
  0 <= yoe <= 399
  /\ 365 * yoe + yoe / 4 - yoe / 100 <= doe
  /\ doe < 365 * (yoe + 1) + (yoe + 1) / 4 - (yoe + 1) / 100 + (yoe + 1) / 400.
Proof. intros H; cbv zeta; repeat split; lia_div. Qed.

(** The days before a year, by eras of 400 years. *)
Lemma daysBeforeYear_era (e r : Z) :
  0 <= r <= 400 ->
  daysBeforeYear (400 * e + r)
  = 146097 * e + (365 * r + r / 4 - r / 100 + r / 400).
Proof. intros H; unfold daysBeforeYear; lia_div. Qed.

(** The date of a day, by the year from March that holds it and the day of
    that year. *)
Lemma civil_from_days_march (z : Z) :
  exists Y doy mp,
    civil_from_days z
    = ((if (if mp <? 10 then mp + 3 else mp - 9) <=? 2 then Y + 1 else Y),
       (if mp <? 10 then mp + 3 else mp - 9),
       doy - (153 * mp + 2) / 5 + 1)
    /\ mp = (5 * doy + 2) / 153
    /\ 0 <= doy
    /\ daysBeforeYear Y + doy = z + 719468
    /\ z + 719468 < daysBeforeYear (Y + 1).
Proof.
  unfold civil_from_days; cbv zeta.
  set (era := (z + 719468) / 146097).
  set (doe := z + 719468 - era * 146097).
  assert (Hdoe : 0 <= doe < 146097) by (subst doe era; lia_div).
  assert (Hz : z + 719468 = 146097 * era + doe) by (subst doe; lia).
  clearbody doe; clearbody era.
  destruct (year_of_era doe Hdoe) as [Hy [Hlo Hhi]].
  revert Hy Hlo Hhi.
  generalize ((doe - doe / 1460 + doe / 36524 - doe / 146096) / 365); intros yoe Hy Hlo Hhi.
  exists (yoe + era * 400), (doe - (365 * yoe + yoe / 4 - yoe / 100)),
    ((5 * (doe - (365 * yoe + yoe / 4 - yoe / 100)) + 2) / 153).
  split; [reflexivity|].
  split; [reflexivity|].
  split; [lia|].
  replace (yoe + era * 400) with (400 * era + yoe) by ring.
  replace (400 * era + yoe + 1) with (400 * era + (yoe + 1)) by ring.
  rewrite !daysBeforeYear_era by lia.
  assert (Hq : yoe / 400 = 0) by lia_div.
  rewrite Hq, Hz.
  revert Hlo Hhi.
  generalize (yoe / 4) (yoe / 100) ((yoe + 1) / 4) ((yoe + 1) / 100) ((yoe + 1) / 400).
  intros; lia.
Qed.

(** The month of a day, and the first days of that month and of the next. *)
Lemma month_bounds (z : Z) :
  let '(y, m, _) := civil_from_days z in
  1 <= m <= 12
  /\ monthIndex z = 12 * y + (m - 1)
  /\ firstDay (monthIndex z) <= z < firstDay (monthIndex z + 1).
Proof.
  unfold monthIndex.
  destruct (civil_from_days_march z) as [Y [doy [mp [-> [Hmp [Hdoy [Hz Hnext]]]]]]].
  assert (Hdoy' : doy <= 365) by (pose proof (daysBeforeYear_step Y); lia).
  assert (Hmp' : 0 <= mp <= 11) by (subst mp; lia_div).
  assert (Hlow : (153 * mp + 2) / 5 <= doy) by (subst mp; lia_div).
  assert (Hup : mp <= 10 -> doy < (153 * (mp + 1) + 2) / 5) by (subst mp; lia_div).
  clear Hmp.
  assert (Hidx : 12 * (if (if mp <? 10 then mp + 3 else mp - 9) <=? 2 then Y + 1 else Y)
                 + ((if mp <? 10 then mp + 3 else mp - 9) - 1)
                 = 12 * Y + mp + 2).
  { destruct (Z.ltb_spec mp 10).
    - destruct (Z.leb_spec (mp + 3) 2); lia.
    - destruct (Z.leb_spec (mp - 9) 2); lia. }
  rewrite Hidx.
  split; [destruct (Z.ltb_spec mp 10); lia|].
  split; [reflexivity|].
  rewrite (firstDay_from_march Y mp Hmp').
  destruct (Z_le_gt_dec mp 10) as [H10|H10].
  - replace (12 * Y + mp + 2 + 1) with (12 * Y + (mp + 1) + 2) by ring.
    rewrite (firstDay_from_march Y (mp + 1)) by lia.
    specialize (Hup H10); lia.
  - replace (12 * Y + mp + 2 + 1) with (12 * (Y + 1) + 0 + 2) by lia.
    rewrite (firstDay_from_march (Y + 1) 0) by lia.
    change ((153 * 0 + 2) / 5) with 0; lia.
Qed.

Lemma firstDay_mono (i j : Z) : i <= j -> firstDay i <= firstDay j.
Proof.
  intros H; replace j with (i + (j - i)) by ring.
  assert (Hn : 0 <= j - i) by lia; revert Hn; generalize (j - i).
  apply (natlike_ind (fun n => firstDay i <= firstDay (i + n))).
  - rewrite Z.add_0_r; lia.
  - intros n Hn IH; pose proof (firstDay_step (i + n)).
    replace (i + Z.succ n) with (i + n + 1) by lia; lia.
Qed.

(** A day lies between the first day of a month and the day before the
    first day of the next exactly when it is a day of that month. *)
Lemma month_interval (i z : Z) :
  firstDay i <= z <= firstDay (i + 1) - 1 <-> monthIndex z = i.
Proof.
  pose proof (month_bounds z) as H.
  destruct (civil_from_days z) as [[y m] d]; destruct H as [_ [_ [Ha Hb]]].
  split.
  - intros [Hlo Hhi].
    destruct (Z.lt_trichotomy (monthIndex z) i) as [Hlt|[Heq|Hgt]]; [|exact Heq|].
    + pose proof (firstDay_mono (monthIndex z + 1) i ltac:(lia)); lia.
    + pose proof (firstDay_mono (i + 1) (monthIndex z) ltac:(lia)); lia.
  - intros <-; lia.
Qed.

(** The month of a date, as [getFullYear] and [getMonth] give it. *)
Lemma monthIndex_date (t : Z) :
  0 <= getMonth t <= 11
  /\ monthIndex (t / msPerDay) = 12 * getFullYear t + getMonth t.
Proof.
  pose proof (month_bounds (t / msPerDay)) as H; unfold getFullYear, getMonth.
  destruct (civil_from_days (t / msPerDay)) as [[y m] d]; cbn [fst snd]; lia.
Qed.

Lemma sameMonth_index (a b : Z) :
  sameMonth a b = true <-> monthIndex (a / msPerDay) = monthIndex (b / msPerDay).
Proof.
  destruct (monthIndex_date a) as [Ha ->], (monthIndex_date b) as [Hb ->].
  unfold sameMonth; rewrite andb_true_iff, !Z.eqb_eq; lia.
Qed.

(** [new Date(now.getFullYear(), now.getMonth(), 1)] is the first day of
    the month of now. *)
Lemma startOfMonth_firstDay (t : Z) :
  mkDate (getFullYear t) (getMonth t) 1
  = firstDay (monthIndex (t / msPerDay)) * msPerDay.
Proof.
  destruct (monthIndex_date t) as [Hm ->]; unfold mkDate, firstDay.
  replace (12 * getFullYear t + getMonth t) with (getMonth t + getFullYear t * 12) by ring.
  rewrite Z.div_add, Z.mod_add by lia.
  rewrite (Z.div_small (getMonth t) 12), (Z.mod_small (getMonth t) 12) by lia.
  change (1 - 1) with 0; rewrite ?Z.add_0_r, ?Z.add_0_l; reflexivity.
Qed.

(** [new Date(now.getFullYear(), now.getMonth() + 1, 0)] is the day before
    the first day of the next month. *)
Lemma endOfMonth_firstDay (t : Z) :
  mkDate (getFullYear t) (getMonth t + 1) 0
  = (firstDay (monthIndex (t / msPerDay) + 1) + (0 - 1)) * msPerDay.
Proof.
  destruct (monthIndex_date t) as [Hm ->]; unfold mkDate, firstDay.
  replace (12 * getFullYear t + getMonth t + 1)
    with (getMonth t + 1 + getFullYear t * 12) by ring.
  rewrite Z.div_add, Z.mod_add by lia.
  rewrite (Z.add_comm (getFullYear t) ((getMonth t + 1) / 12)).
  exact eq_refl.
Qed.

(** For a date at midnight, the window of the aggregate is the month of
    now. *)
Lemma window_is_month (t d : Z) :
  d mod msPerDay = 0 ->
  (mkDate (getFullYear t) (getMonth t) 1 <=? d)
  && (d <=? mkDate (getFullYear t) (getMonth t + 1) 0)
  = sameMonth d t.
Proof.
  intros Hd.
  rewrite startOfMonth_firstDay, endOfMonth_firstDay.
  assert (Hdiv : d = d / msPerDay * msPerDay).
  { pose proof (Z.div_mod d msPerDay ltac:(unfold msPerDay; lia)); lia. }
  pose proof (month_interval (monthIndex (t / msPerDay)) (d / msPerDay)) as Hi.
  pose proof (sameMonth_index d t) as Hs.
  set (j := monthIndex (t / msPerDay)) in *.
  set (q := d / msPerDay) in *.
  set (a := firstDay j) in *; set (b := firstDay (j + 1)) in *.
  set (i := monthIndex q) in *.
  assert (Hms : 0 < msPerDay) by (unfold msPerDay; lia).
  set (ms := msPerDay) in *.
  clearbody a b i j q ms.
  destruct (sameMonth d t).
  - apply andb_true_iff; rewrite Z.leb_le, Z.leb_le.
    assert (Hq : a <= q <= b - 1) by (apply Hi, Hs; reflexivity).
    nia.
  - apply andb_false_iff; rewrite Z.leb_gt, Z.leb_gt.
    destruct (Z_le_gt_dec a q); [|left; nia].
    destruct (Z_le_gt_dec q (b - 1)); [|right; nia].
    assert (Hij : i = j) by (apply Hi; lia).
    apply Hs in Hij; discriminate.
Qed.

(** ** The store *)

Lemma newest_In (l : list Subscription) (s : Subscription) :
  newest l = Some s -> In s l.
Proof.
  revert s; induction l as [|a r IH]; simpl; intros s Hs; [discriminate|].
  destruct (newest r) as [t|] eqn:Hr.
  - destruct (sub_createdAt a <? sub_createdAt t); inversion Hs; subst; auto.
  - inversion Hs; auto.
Qed.

Lemma currentSubscription_In (w : World) (userId : string) (s : Subscription) :
  currentSubscription w userId = Some s ->
  In s (subscriptions w) /\ sub_userId s = userId /\ isCurrentStatus (sub_status s) = true.
Proof.
  unfold currentSubscription; intros H.
  apply newest_In, filter_In in H; destruct H as [Hin Hc].
  unfold isCurrentOf in Hc; apply andb_true_iff in Hc; destruct Hc as [Hu Hst].
  apply String.eqb_eq in Hu; auto.
Qed.

Lemma daysLeft_nonneg (trialEnd now : Z) : 0 <= daysLeft trialEnd now.
Proof. unfold daysLeft; lia. Qed.

Lemma daysLeft_past (trialEnd now : Z) : trialEnd <= now -> daysLeft trialEnd now = 0.
Proof.
  intros H; unfold daysLeft, ceilDiv, msPerDay.
  assert (0 <= (- (trialEnd - now)) / (1000 * 60 * 60 * 24)) by (apply Z.div_pos; lia).
  lia.
Qed.

Lemma daysLeft_future (trialEnd now : Z) : now < trialEnd -> 0 < daysLeft trialEnd now.
Proof.
  intros H; unfold daysLeft, ceilDiv, msPerDay.
  assert ((- (trialEnd - now)) / (1000 * 60 * 60 * 24) < 0)
    by (apply Z.div_lt_upper_bound; lia).
  lia.
Qed.

(** Reading the subscription of a user whose trial does not expire on the
    read leaves the store as it is. *)
Lemma getSubscriptionInfo_pure (w : World) (userId : string) :
  expiresOnRead w userId = false ->
  getSubscriptionInfo userId w
  = (Ok (option_map (fun s => infoOf s (clock w)) (currentSubscription w userId)), w).
Proof.
  unfold expiresOnRead, getSubscriptionInfo, subscription_findFirst,
    currentSubscription; run_prisma; simpl.
  destruct (newest (filter (isCurrentOf userId) (subscriptions w))) as [s|]; simpl;
    [|reflexivity].
  unfold infoOf, remainingTrialDays.
  destruct (sub_planType s); simpl; try reflexivity.
  destruct (sub_trialEnd s) as [e|]; simpl; try reflexivity.
  intros H; rewrite H; reflexivity.
Qed.

(** The limits of a user: those of the plan of the current subscription,
    the free plan's without one. *)
Lemma getPlanLimits_pure (w : World) (userId : string) :
  expiresOnRead w userId = false ->
  getPlanLimits userId w
  = (Ok (match currentSubscription w userId with
         | Some s => PLAN_LIMITS (sub_planType s)
         | None => PLAN_LIMITS FREE
         end), w).
Proof.
  intros H; unfold getPlanLimits, bind.
  rewrite (getSubscriptionInfo_pure w userId H).
  destruct (currentSubscription w userId); reflexivity.
Qed.

(** The monthly aggregate reads the store and always gives a number. *)
Lemma getCurrentMonthlyUsage_pure (w : World) (userId actionType : string) :
  exists n, getCurrentMonthlyUsage userId actionType w = (Ok n, w).
Proof.
  unfold getCurrentMonthlyUsage, usageTracking_aggregate_sum; run_prisma.
  match goal with
  | |- context [filter ?f ?l] => destruct (filter f l) as [|u r]
  end; eexists; reflexivity.
Qed.

(** For a store whose counters are dated at midnight, the monthly aggregate
    is the usage of the calendar month of now. *)
Lemma getCurrentMonthlyUsage_calendar (w : World) (userId actionType : string) :
  dayBucketed w ->
  getCurrentMonthlyUsage userId actionType w
  = (Ok (calendarMonthUsage w userId actionType), w).
Proof.
  intros Hb.
  unfold getCurrentMonthlyUsage, usageTracking_aggregate_sum, calendarMonthUsage;
    run_prisma.
  match goal with
  | |- context [filter ?f (usageTrackings w)] =>
      rewrite (filter_ext_in f
                 (fun u =>
                    String.eqb (usage_userId u) userId
                    && String.eqb (usage_actionType u) actionType
                    && sameMonth (usage_date u) (clock w)))
  end.
  - destruct (filter _ (usageTrackings w)); reflexivity.
  - intros u Hu; unfold dayBucketed in Hb; rewrite Forall_forall in Hb.
    rewrite <- andb_assoc, (window_is_month (clock w) (usage_date u) (Hb u Hu)).
    reflexivity.
Qed.

Lemma startOfDay_midnight (t : Z) : startOfDay t mod msPerDay = 0.
Proof.
  unfold startOfDay.
  rewrite Zminus_mod_idemp_r, Z.sub_diag; reflexivity.
Qed.

(** [trackUsage] keeps the counters dated at midnight. *)
Lemma trackUsage_dayBucketed (w : World) (userId actionType : string) (count : Z) :
  dayBucketed w -> dayBucketed (snd (trackUsage userId actionType count w)).
Proof.
  unfold dayBucketed, trackUsage, usageTracking_upsert; run_prisma.
  intros Hb; cbn [snd].
  match goal with
  | |- context [if existsb ?k ?l then _ else _] => destruct (existsb k l)
  end; cbn [snd usageTrackings].
  - apply Forall_map.
    revert Hb; apply Forall_impl; intros u Hu.
    match goal with
    | |- context [if ?c then _ else _] => destruct c
    end; exact Hu.
  - apply Forall_app; split; [exact Hb|].
    constructor; [apply startOfDay_midnight|constructor].
Qed.

Lemma onExpiredTrial_read (w : World) (userId : string) :
  onExpiredTrial w userId = false -> expiresOnRead w userId = false.
Proof.
  unfold onExpiredTrial, expiresOnRead, remainingTrialDays.
  destruct (currentSubscription w userId) as [s|]; [|reflexivity].
  destruct (sub_planType s); simpl; try reflexivity.
  destruct (sub_trialEnd s); simpl; [|reflexivity].
  intros ->; reflexivity.
Qed.

(** The trial check of [canPerformAction], on what [getSubscriptionInfo]
    reports. *)
Lemma trial_check_off (w : World) (userId : string) :
  onExpiredTrial w userId = false ->
  match option_map (fun s => infoOf s (clock w)) (currentSubscription w userId) with
  | Some i => plan_eqb (info_planType i) TRIAL && negb (isTrialActive i)
  | None => false
  end = false.
Proof.
  unfold onExpiredTrial.
  destruct (currentSubscription w userId) as [s|]; simpl; [|reflexivity].
  destruct (plan_eqb (sub_planType s) TRIAL); simpl; [|reflexivity].
  intros H; apply Z.eqb_neq in H.
  assert (0 <= remainingTrialDays s (clock w)).
  { unfold remainingTrialDays; destruct (sub_planType s); try lia;
      destruct (sub_trialEnd s); try lia; apply daysLeft_nonneg. }
  apply negb_false_iff, Z.ltb_lt; lia.
Qed.

(** C1. For a user whose plan has a finite monthly QR code quota and who is
    not on an expired trial, [canPerformAction(user, 'qr_generated')] denies
    when the QR_GENERATED usage aggregated over the current month has
    reached the quota (usage = quota denies) and allows when it is below
    (usage = quota - 1 allows). The usage is what [getCurrentMonthlyUsage]
    aggregates; over counters dated at midnight it is the sum of the
    counters of the calendar month of now. *)
Theorem qr_generated_quota_boundary
  (w : World) (userId : string) (limits : UsageLimits) (usage : Z) :
  fst (getPlanLimits userId w) = Ok limits ->
  qrCodesPerMonth limits <> -1 ->
  onExpiredTrial w userId = false ->
  fst (getCurrentMonthlyUsage userId "QR_GENERATED" w) = Ok usage ->
  (qrCodesPerMonth limits <= usage ->
   fst (canPerformAction userId qr_generated w)
   = Ok (deny "Monthly QR code limit reached")
   /\ allowed (deny "Monthly QR code limit reached") = false)
  /\ (usage < qrCodesPerMonth limits ->
      fst (canPerformAction userId qr_generated w) = Ok allow
      /\ allowed allow = true)
  /\ (dayBucketed w -> usage = calendarMonthUsage w userId "QR_GENERATED").
Proof.
  intros Hl Hq Ht Hu.
  pose proof (onExpiredTrial_read w userId Ht) as Hr.
  destruct (getCurrentMonthlyUsage_pure w userId "QR_GENERATED") as [n Hn].
  rewrite Hn in Hu; simpl in Hu; inversion Hu; subst n; clear Hu.
  assert (Hcal : dayBucketed w -> usage = calendarMonthUsage w userId "QR_GENERATED").
  { intros Hb; rewrite (getCurrentMonthlyUsage_calendar w userId _ Hb) in Hn.
    congruence. }
  assert (Hlim : getPlanLimits userId w = (Ok limits, w)).
  { rewrite (getPlanLimits_pure w userId Hr) in Hl |- *.
    f_equal; exact Hl. }
  assert (Hrun : forall d,
    (if qrCodesPerMonth limits <=? usage
     then Ok (deny "Monthly QR code limit reached") else Ok allow) = Ok d ->
    fst (canPerformAction userId qr_generated w) = Ok d).
  { intros d Hd; unfold canPerformAction, bind.
    rewrite Hlim.
    rewrite (getSubscriptionInfo_pure w userId Hr), (trial_check_off w userId Ht).
    apply Z.eqb_neq in Hq; rewrite Hq; simpl.
    rewrite Hn.
    destruct (qrCodesPerMonth limits <=? usage); simpl; exact Hd. }
  split; [|split; [|exact Hcal]]; intros Hc; (split; [|reflexivity]); apply Hrun.
  - apply Z.leb_le in Hc; rewrite Hc; reflexivity.
  - apply Z.leb_gt in Hc; rewrite Hc; reflexivity.
Qed.

(** C1 at the boundary: the free plan (quota 10) with 10 codes generated
    this month. *)
Lemma qr_generated_quota_boundary_witness :
  fst (canPerformAction "bob" qr_generated (bobFree 10))
  = Ok (deny "Monthly QR code limit reached")
  /\ allowed (deny "Monthly QR code limit reached") = false.
Proof.
  apply (qr_generated_quota_boundary (bobFree 10) "bob" (PLAN_LIMITS FREE) 10);
    [ reflexivity | simpl; lia | reflexivity | reflexivity | simpl; lia ].
Defined.

(** Bob's ten codes are those of March 2024. *)
Example bob_calendar_usage :
  dayBucketed (bobFree 10)
  /\ calendarMonthUsage (bobFree 10) "bob" "QR_GENERATED" = 10.
Proof. split; [repeat constructor|reflexivity]. Qed.

(** The boundary from below: quota 10, usage 9. *)
Example free_plan_usage_9_allows :
  fst (canPerformAction "bob" qr_generated (bobFree 9)) = Ok allow.
Proof. reflexivity. Qed.

(** The trial plan's quota of 100 is finite too. *)
Example finite_quotas :
  qrCodesPerMonth (PLAN_LIMITS TRIAL) = 100 /\ qrCodesPerMonth (PLAN_LIMITS FREE) = 10.
Proof. split; reflexivity. Qed.

(** C3. On the ENTERPRISE tier every quota is -1 and [canPerformAction]
    allows every action, whatever the monthly counters and the count of
    active dynamic codes are. *)
Theorem enterprise_always_allowed
  (w : World) (userId : string) (s : Subscription) (action : Action) :
  currentSubscription w userId = Some s ->
  sub_planType s = ENTERPRISE ->
  fst (canPerformAction userId action w) = Ok allow /\ allowed allow = true.
Proof.
  intros Hs Hp; split; [|reflexivity].
  assert (Hr : expiresOnRead w userId = false).
  { unfold expiresOnRead; rewrite Hs, Hp; reflexivity. }
  unfold canPerformAction, bind.
  rewrite (getPlanLimits_pure w userId Hr), (getSubscriptionInfo_pure w userId Hr).
  rewrite Hs; simpl; rewrite Hp; simpl.
  destruct action; reflexivity.
Qed.

(** C3 with ten million QR codes generated this month. *)
Lemma enterprise_always_allowed_witness :
  fst (canPerformAction "carol" qr_generated carolEnterprise) = Ok allow
  /\ allowed allow = true.
Proof.
  apply (enterprise_always_allowed carolEnterprise "carol"
           (subscriptionRow 1 "carol" ENTERPRISE ACTIVE None None march1) qr_generated);
    reflexivity.
Defined.

Example enterprise_counters :
  getCurrentMonthlyUsage "carol" "QR_GENERATED" carolEnterprise
  = (Ok 10000000, carolEnterprise)
  /\ PLAN_LIMITS ENTERPRISE
     = {| qrCodesPerMonth := -1; dynamicQrCodes := -1; apiCallsPerMonth := -1;
          logoUploads := true; analytics := analytics_advanced;
          exportFormats := ["png"; "jpg"; "svg"; "pdf"]; watermark := false |}.
Proof. split; reflexivity. Qed.

(** ** Trial expiry *)

Lemma find_by_id (l : list Subscription) (s : Subscription) :
  NoDup (map sub_id l) -> In s l ->
  find (fun r => Nat.eqb (sub_id r) (sub_id s)) l = Some s.
Proof.
  induction l as [|a r IH]; simpl; intros Hnd Hin; [contradiction|].
  inversion Hnd as [|? ? Hnot Hnd']; subst.
  destruct Hin as [->|Hin].
  - rewrite Nat.eqb_refl; reflexivity.
  - destruct (Nat.eqb (sub_id a) (sub_id s)) eqn:E.
    + apply Nat.eqb_eq in E; exfalso; apply Hnot; rewrite E.
      apply in_map; exact Hin.
    + apply IH; assumption.
Qed.

Lemma find_after_update (l : list Subscription) (id : nat) (st : SubscriptionStatus) :
  find (fun r => Nat.eqb (sub_id r) id)
    (map (fun r => if Nat.eqb (sub_id r) id then setStatus st r else r) l)
  = option_map (setStatus st) (find (fun r => Nat.eqb (sub_id r) id) l).
Proof.
  induction l as [|a r IH]; simpl; [reflexivity|].
  destruct (Nat.eqb (sub_id a) id) eqn:E; simpl; rewrite E; [reflexivity|exact IH].
Qed.

Lemma find_append {A} (p : A -> bool) (l l' : list A) :
  find p (l ++ l') = match find p l with
                     | Some x => Some x
                     | None => find p l'
                     end.
Proof.
  induction l as [|a r IH]; simpl; [reflexivity|].
  destruct (p a); [reflexivity|exact IH].
Qed.

Lemma existsb_id (l : list Subscription) (s : Subscription) :
  In s l -> existsb (fun r => Nat.eqb (sub_id r) (sub_id s)) l = true.
Proof.
  intros H; apply existsb_exists; exists s; split; [exact H|apply Nat.eqb_refl].
Qed.

Lemma id_le_max (l : list Subscription) (s : Subscription) :
  In s l -> (sub_id s <= fold_right Nat.max 0 (map sub_id l))%nat.
Proof.
  induction l as [|a r IH]; simpl; intros H; [contradiction|].
  destruct H as [->|H]; [lia|]. specialize (IH H); lia.
Qed.

Lemma freshId_fresh (l : list Subscription) : ~ In (freshId l) (map sub_id l).
Proof.
  intros H; apply in_map_iff in H; destruct H as [s [Hid Hin]].
  apply id_le_max in Hin; unfold freshId in Hid; lia.
Qed.

Lemma freshId_map (l : list Subscription) (f : Subscription -> Subscription) :
  (forall r, sub_id (f r) = sub_id r) -> freshId (map f l) = freshId l.
Proof.
  intros Hf; unfold freshId; f_equal; rewrite map_map.
  induction l as [|a r IH]; simpl; [reflexivity|]. rewrite Hf, IH; reflexivity.
Qed.

Lemma expireTrial_run (w : World) (s : Subscription) :
  NoDup (map sub_id (subscriptions w)) -> In s (subscriptions w) ->
  expireTrial (sub_id s) w = (Ok tt, afterExpiry w s).
Proof.
  intros Hnd Hin.
  unfold expireTrial, subscription_update, subscription_findUnique,
    subscription_create; run_prisma.
  cbn [subscriptions usageTrackings qrCodes clock].
  rewrite (existsb_id _ _ Hin).
  cbn [subscriptions usageTrackings qrCodes clock].
  rewrite find_after_update, (find_by_id _ _ Hnd Hin).
  cbn [option_map subscriptions usageTrackings qrCodes clock].
  rewrite freshId_map
    by (intros r; destruct (Nat.eqb (sub_id r) (sub_id s)); reflexivity).
  reflexivity.
Qed.

(** C8. When the current subscription of a user is a TRIAL row in status
    TRIALING whose [trialEnd] is in the past, the remaining days computed are
    zero and [getSubscriptionInfo] sets the status of that row to EXPIRED and
    inserts a new row for the same user with plan FREE and status ACTIVE:
    afterwards the row found under the key of the trial has status EXPIRED
    and its other columns as before, every row under that key is EXPIRED,
    no row of the table became TRIALING, and the table has one row more, the
    free one, under a key no row had. *)
Theorem read_expires_trial
  (w : World) (userId : string) (s : Subscription) (trialEnd : Z) :
  NoDup (map sub_id (subscriptions w)) ->
  currentSubscription w userId = Some s ->
  sub_planType s = TRIAL ->
  sub_status s = TRIALING ->
  sub_trialEnd s = Some trialEnd ->
  trialEnd < clock w ->
  let w' := snd (getSubscriptionInfo userId w) in
  remainingTrialDays s (clock w) = 0
  /\ fst (getSubscriptionInfo userId w) = Ok (Some (infoOf s (clock w)))
  /\ w' = afterExpiry w s
  /\ find (fun r => Nat.eqb (sub_id r) (sub_id s)) (subscriptions w')
     = Some (setStatus EXPIRED s)
  /\ (exists free,
        In free (subscriptions w')
        /\ ~ In (sub_id free) (map sub_id (subscriptions w))
        /\ sub_userId free = userId
        /\ sub_planType free = FREE
        /\ sub_status free = ACTIVE)
  /\ (exists expired,
        find (fun r => Nat.eqb (sub_id r) (sub_id s)) (subscriptions w') = Some expired
        /\ sub_status expired = EXPIRED
        /\ sub_id expired = sub_id s
        /\ sub_userId expired = userId
        /\ sub_planType expired = TRIAL
        /\ sub_trialEnd expired = Some trialEnd
        /\ sub_trialStart expired = sub_trialStart s
        /\ sub_createdAt expired = sub_createdAt s)
  /\ (forall r, In r (subscriptions w') -> sub_id r = sub_id s ->
        sub_status r = EXPIRED)
  /\ (forall r, In r (subscriptions w') -> sub_status r = TRIALING ->
        In r (subscriptions w) /\ sub_id r <> sub_id s)
  /\ List.length (subscriptions w') = S (List.length (subscriptions w)).
Proof.
  intros Hnd Hs Hp Hst He Hpast w'.
  destruct (currentSubscription_In w userId s Hs) as [Hin [Hu _]].
  assert (Hd : daysLeft trialEnd (clock w) = 0) by (apply daysLeft_past; lia).
  assert (Hrem : remainingTrialDays s (clock w) = 0).
  { unfold remainingTrialDays; rewrite Hp, He; exact Hd. }
  assert (Hrun : getSubscriptionInfo userId w
                 = (Ok (Some (infoOf s (clock w))), afterExpiry w s)).
  { unfold getSubscriptionInfo, subscription_findFirst; run_prisma.
    unfold currentSubscription in Hs; rewrite Hs, Hp, He, Hst, Hd.
    cbn [Z.eqb status_eqb andb].
    rewrite (expireTrial_run w s Hnd Hin).
    unfold infoOf; rewrite Hrem.
    rewrite <- Hp at 1; rewrite <- Hst at 1; reflexivity. }
  subst w'; rewrite Hrun; cbn [fst snd].
  assert (Hfind : find (fun r => Nat.eqb (sub_id r) (sub_id s))
                    (subscriptions (afterExpiry w s)) = Some (setStatus EXPIRED s)).
  { unfold afterExpiry; cbn [subscriptions].
    rewrite find_append, find_after_update, (find_by_id _ _ Hnd Hin); reflexivity. }
  assert (Hrows : forall r, In r (subscriptions (afterExpiry w s)) ->
            (exists r0, In r0 (subscriptions w)
                        /\ r = (if Nat.eqb (sub_id r0) (sub_id s)
                                then setStatus EXPIRED r0 else r0))
            \/ r = subscriptionRow (freshId (subscriptions w)) (sub_userId s)
                     FREE ACTIVE None None (clock w)).
  { intros r Hr; unfold afterExpiry in Hr; cbn [subscriptions] in Hr.
    apply in_app_or in Hr; destruct Hr as [Hr|[Hr|[]]]; [left|right; auto].
    apply in_map_iff in Hr; destruct Hr as [r0 [Hr0 Hin0]]; exists r0; auto. }
  split; [exact Hrem|]. split; [reflexivity|]. split; [reflexivity|].
  split; [exact Hfind|].
  split.
  { exists (subscriptionRow (freshId (subscriptions w)) (sub_userId s) FREE ACTIVE
              None None (clock w)).
    unfold afterExpiry; cbn [subscriptions].
    repeat split; auto.
    - apply in_or_app; right; left; reflexivity.
    - apply freshId_fresh. }
  split.
  { exists (setStatus EXPIRED s); split; [exact Hfind|].
    repeat split; auto. }
  split.
  { intros r Hr Hid; destruct (Hrows r Hr) as [[r0 [Hin0 ->]]| ->].
    - destruct (Nat.eqb (sub_id r0) (sub_id s)) eqn:E; [reflexivity|].
      apply Nat.eqb_neq in E; contradiction.
    - exfalso; apply (freshId_fresh (subscriptions w)).
      cbn [subscriptionRow sub_id] in Hid; rewrite Hid; apply in_map; exact Hin. }
  split.
  { intros r Hr Htr; destruct (Hrows r Hr) as [[r0 [Hin0 ->]]| ->].
    - destruct (Nat.eqb (sub_id r0) (sub_id s)) eqn:E; [discriminate Htr|].
      apply Nat.eqb_neq in E; auto.
    - discriminate Htr. }
  unfold afterExpiry; cbn [subscriptions].
  rewrite length_app, length_map; cbn [List.length]; lia.
Qed.

(** C8 on Alice, the day after her trial ended. *)
Lemma read_expires_trial_witness :
  let w' := snd (getSubscriptionInfo "alice" aliceAfterTrial) in
  remainingTrialDays aliceTrial (clock aliceAfterTrial) = 0
  /\ fst (getSubscriptionInfo "alice" aliceAfterTrial)
     = Ok (Some (infoOf aliceTrial (clock aliceAfterTrial)))
  /\ w' = afterExpiry aliceAfterTrial aliceTrial
  /\ find (fun r => Nat.eqb (sub_id r) (sub_id aliceTrial)) (subscriptions w')
     = Some (setStatus EXPIRED aliceTrial)
  /\ (exists free,
        In free (subscriptions w')
        /\ ~ In (sub_id free) (map sub_id (subscriptions aliceAfterTrial))
        /\ sub_userId free = "alice"
        /\ sub_planType free = FREE
        /\ sub_status free = ACTIVE)
  /\ (exists expired,
        find (fun r => Nat.eqb (sub_id r) (sub_id aliceTrial)) (subscriptions w')
        = Some expired
        /\ sub_status expired = EXPIRED
        /\ sub_id expired = sub_id aliceTrial
        /\ sub_userId expired = "alice"
        /\ sub_planType expired = TRIAL
        /\ sub_trialEnd expired = Some (march1 + 14 * msPerDay)
        /\ sub_trialStart expired = sub_trialStart aliceTrial
        /\ sub_createdAt expired = sub_createdAt aliceTrial)
  /\ (forall r, In r (subscriptions w') -> sub_id r = sub_id aliceTrial ->
        sub_status r = EXPIRED)
  /\ (forall r, In r (subscriptions w') -> sub_status r = TRIALING ->
        In r (subscriptions aliceAfterTrial) /\ sub_id r <> sub_id aliceTrial)
  /\ List.length (subscriptions w')
     = S (List.length (subscriptions aliceAfterTrial)).
Proof.
  apply (read_expires_trial aliceAfterTrial "alice" aliceTrial (march1 + 14 * msPerDay)).
  - repeat constructor; simpl; tauto.
  - reflexivity.
  - reflexivity.
  - reflexivity.
  - reflexivity.
  - vm_compute; reflexivity.
Defined.

(** C2. Alice's current subscription is a trial with no day left, and the
    gate allows her a logo upload and a QR code: the read of
    [getPlanLimits] expires the trial and inserts the FREE row, the second
    read of [canPerformAction] finds that row, and the trial check sees a
    FREE plan; the action is then judged on the TRIAL limits read first. *)
Theorem expired_trial_not_denied :
  currentSubscription aliceAfterTrial "alice" = Some aliceTrial
  /\ sub_planType aliceTrial = TRIAL
  /\ remainingTrialDays aliceTrial (clock aliceAfterTrial) = 0
  /\ onExpiredTrial aliceAfterTrial "alice" = true
  /\ fst (canPerformAction "alice" logo_upload aliceAfterTrial) = Ok allow
  /\ fst (canPerformAction "alice" qr_generated aliceAfterTrial) = Ok allow
  /\ fst (canPerformAction "alice" api_call aliceAfterTrial) = Ok allow
  /\ fst (canPerformAction "alice" dynamic_qr aliceAfterTrial) = Ok allow.
Proof. repeat split; vm_compute; reflexivity. Qed.

(** The denial is reached when the read expires nothing: a trial row with
    no day left that is not in status TRIALING, or that has no [trialEnd]. *)
Lemma expired_trial_denied_when_read_is_pure
  (w : World) (userId : string) (action : Action) :
  onExpiredTrial w userId = true ->
  expiresOnRead w userId = false ->
  canPerformAction userId action w = (Ok (deny "Trial has expired"), w).
Proof.
  intros Ht Hr; unfold canPerformAction, bind.
  rewrite (getPlanLimits_pure w userId Hr), (getSubscriptionInfo_pure w userId Hr).
  unfold onExpiredTrial in Ht.
  destruct (currentSubscription w userId) as [s|]; [|discriminate].
  apply andb_true_iff in Ht; destruct Ht as [Hp Hz].
  apply Z.eqb_eq in Hz.
  cbn [option_map]; unfold infoOf; cbn [info_planType isTrialActive].
  rewrite Hp, Hz; reflexivity.
Qed.

Lemma expired_trial_denied_when_read_is_pure_witness :
  canPerformAction "dave" qr_generated daveStaleTrial
  = (Ok (deny "Trial has expired"), daveStaleTrial).
Proof.
  apply (expired_trial_denied_when_read_is_pure daveStaleTrial "dave" qr_generated);
    reflexivity.
Defined.

(** On the free plan, and without any subscription, a logo upload is denied
    and an upgrade asked for. *)
Lemma free_plan_logo_upload_denied (w : World) (userId : string) :
  match currentSubscription w userId with
  | Some s => sub_planType s = FREE
  | None => True
  end ->
  canPerformAction userId logo_upload w
  = (Ok (deny "Logo uploads not available in your plan"), w).
Proof.
  intros Hp.
  assert (Hr : expiresOnRead w userId = false).
  { unfold expiresOnRead; destruct (currentSubscription w userId) as [s|];
      [rewrite Hp|]; reflexivity. }
  unfold canPerformAction, bind.
  rewrite (getPlanLimits_pure w userId Hr), (getSubscriptionInfo_pure w userId Hr).
  destruct (currentSubscription w userId) as [s|]; cbn [option_map];
    [unfold infoOf; cbn [info_planType]; rewrite Hp|]; reflexivity.
Qed.

Lemma free_plan_logo_upload_denied_witness :
  canPerformAction "erin" logo_upload erinUnsubscribed
  = (Ok (deny "Logo uploads not available in your plan"), erinUnsubscribed).
Proof.
  apply (free_plan_logo_upload_denied erinUnsubscribed "erin"); exact I.
Defined.

(** The window of the monthly aggregate: from the first to the last day of
    the month of now, at midnight; for March 2024, for December 2024 and
    for February 2024. *)
Example monthly_window :
  (mkDate (getFullYear march15noon) (getMonth march15noon) 1,
   mkDate (getFullYear march15noon) (getMonth march15noon + 1) 0)
  = (1709251200000, 1711843200000)
  /\ (mkDate 2024 11 1, mkDate 2024 12 0) = (1733011200000, 1735603200000)
  /\ (mkDate 2024 1 1, mkDate 2024 2 0) = (1706745600000, 1709164800000).
Proof. repeat split. Qed.

(** ** The content formatter *)

(** The two examples of the specification. *)
Example wifi_content :
  generateQrContent
    {| qrType := WIFI; content := ""; industryTemplate := None;
       emailAddress := None; emailSubject := None; emailBody := None;
       phoneNumber := None; smsNumber := None; smsMessage := None;
       wifiSsid := Some "Home"; wifiPassword := Some "pw123"; wifiSecurity := None;
       wifiHidden := Some true; vcardData := None; latitude := None;
       longitude := None; socialPlatform := None; socialHandle := None;
       reviewUrl := None |}
  = "WIFI:T:WPA;S:Home;P:pw123;H:true;;".
Proof. reflexivity. Qed.

Example email_content :
  generateQrContent
    {| qrType := EMAIL; content := ""; industryTemplate := None;
       emailAddress := Some "a@b.com"; emailSubject := Some "Hi there";
       emailBody := None;
       phoneNumber := None; smsNumber := None; smsMessage := None;
       wifiSsid := None; wifiPassword := None; wifiSecurity := None;
       wifiHidden := None; vcardData := None; latitude := None;
       longitude := None; socialPlatform := None; socialHandle := None;
       reviewUrl := None |}
  = "mailto:a@b.com?subject=Hi%20there".
Proof. reflexivity. Qed.

Lemma removeFirst_absent (c : ascii) (s : string) :
  (forall n, get n s <> Some c) -> removeFirst c s = s.
Proof.
  induction s as [|a r IH]; simpl; intros H; [reflexivity|].
  destruct (Ascii.eqb a c) eqn:E.
  - apply Ascii.eqb_eq in E; subst; exfalso; apply (H 0%nat); reflexivity.
  - f_equal; apply IH; intros n; exact (H (S n)).
Qed.

(** On one of the seven platforms, and for a handle that starts with [@] or
    holds none, the content is the platform's base URL followed by the handle
    without its leading [@]. *)
Lemma social_content_on_known_platform
  (data : QrContentData) (platform base handle : string) :
  qrType data = SOCIAL ->
  socialPlatform data = Some platform ->
  socialHandle data = Some handle ->
  In (platform, base) socialUrls ->
  startsWith handle "@" = true \/ (forall n, get n handle <> Some "@"%char) ->
  generateQrContent data = base +++ stripLeadingAt handle
  /\ generateQrContent data = socialContentSpec (Some platform) (Some handle).
Proof.
  intros Ht Hp Hh Hin Hat.
  assert (Hstrip : removeFirst "@"%char handle = stripLeadingAt handle).
  { destruct Hat as [Hs|Hn].
    - destruct handle as [|a r]; [discriminate|].
      cbn [startsWith] in Hs; rewrite andb_true_r in Hs.
      apply Ascii.eqb_eq in Hs; subst a; reflexivity.
    - rewrite (removeFirst_absent _ _ Hn).
      destruct handle as [|a r]; [reflexivity|].
      unfold stripLeadingAt.
      destruct (Ascii.eqb a "@"%char) eqn:E.
      + apply Ascii.eqb_eq in E; subst; exfalso; apply (Hn 0%nat); reflexivity.
      + destruct a as [[] [] [] [] [] [] [] []]; try reflexivity;
          vm_compute in E; discriminate. }
  unfold generateQrContent, socialContentSpec; rewrite Ht, Hp, Hh.
  cbn [orEmpty]; rewrite Hstrip.
  simpl in Hin.
  repeat (destruct Hin as [Hin|Hin]; [inversion Hin; subst; split; reflexivity|]).
  contradiction.
Qed.

Lemma social_content_on_known_platform_witness :
  generateQrContent (socialPayload (Some "github") (Some "@octocat"))
  = "https://github.com/" +++ stripLeadingAt "@octocat"
  /\ generateQrContent (socialPayload (Some "github") (Some "@octocat"))
     = socialContentSpec (Some "github") (Some "@octocat").
Proof.
  apply (social_content_on_known_platform
           (socialPayload (Some "github") (Some "@octocat"))
           "github" "https://github.com/" "@octocat");
    [ reflexivity | reflexivity | reflexivity | simpl; tauto | left; reflexivity ].
Defined.

(** Without a platform the formatter takes twitter's base URL. *)
Lemma social_content_without_platform (data : QrContentData) :
  qrType data = SOCIAL ->
  truthy (socialPlatform data) = false ->
  generateQrContent data
  = "https://twitter.com/" +++ removeFirst "@"%char (orEmpty (socialHandle data)).
Proof.
  intros Ht Hp; unfold generateQrContent; rewrite Ht, Hp; reflexivity.
Qed.

(** C4. For the platform [myspace], which is not one of the seven, the
    content is the text [undefined] followed by the handle and not a twitter
    URL; and an [@] inside a handle is removed although it does not lead. *)
Theorem social_unrecognized_platform :
  generateQrContent (socialPayload (Some "myspace") (Some "@bob")) = "undefinedbob"
  /\ socialContentSpec (Some "myspace") (Some "@bob") = "https://twitter.com/bob"
  /\ generateQrContent (socialPayload (Some "twitter") (Some "a@b"))
     = "https://twitter.com/ab"
  /\ socialContentSpec (Some "twitter") (Some "a@b") = "https://twitter.com/a@b".
Proof. repeat split. Qed.

(** *** VCARD *)

Lemma endsWith_append (s1 s2 : string) (c : ascii) :
  s2 <> "" -> endsWith (s1 +++ s2) c = endsWith s2 c.
Proof.
  intros H; induction s1 as [|a r IH]; [reflexivity|].
  cbn [String.append endsWith].
  destruct (r +++ s2) as [|b t] eqn:E; [|exact IH].
  destruct r; [simpl in E; contradiction|discriminate].
Qed.

Lemma truthy_orEmpty (o : option string) :
  truthy o = true -> orEmpty o <> "".
Proof. destruct o as [[|a r]|]; simpl; intros H; discriminate. Qed.

Lemma orEmpty_falsy (o : option string) :
  truthy o = false -> orEmpty o = "".
Proof. destruct o as [[|a r]|]; simpl; intros H; try reflexivity; discriminate. Qed.

Lemma trimEnd_head (a : ascii) (s : string) :
  isWhiteSpace a = false -> exists r, trimEnd (String a s) = String a r.
Proof.
  intros H; cbn [trimEnd]; rewrite H.
  destruct (trimEnd s); eexists; reflexivity.
Qed.

(** The FN line starts with the letter F, whatever the names are. *)
Lemma fnLine_head (v : VcardData) : exists r, fnLine v = String "F"%char r.
Proof.
  unfold fnLine, trim.
  cbn [String.append trimStart]; simpl isWhiteSpace; cbv iota.
  apply trimEnd_head; reflexivity.
Qed.

Lemma keepLine_spec (line : string) :
  keepLine line = true <-> line <> "" /\ endsWith line ":"%char = false.
Proof.
  destruct line as [|a r]; simpl.
  - split; [discriminate|intros [H _]; contradiction].
  - rewrite negb_true_iff; split; [intros H; split; [discriminate|exact H]|tauto].
Qed.

Lemma optionalLine_kept (pre : string) (o : option string) :
  pre <> "" ->
  keepLine (optionalLine pre o) = (truthy o && negb (endsWith (orEmpty o) ":"%char)).
Proof.
  intros Hpre; unfold optionalLine.
  destruct (truthy o) eqn:E; [|reflexivity].
  pose proof (truthy_orEmpty o E) as Hne.
  unfold keepLine.
  destruct (pre +++ orEmpty o) as [|a r] eqn:Ea.
  - destruct pre; [contradiction|discriminate].
  - rewrite <- Ea, endsWith_append by exact Hne; reflexivity.
Qed.

(** A line of the card that starts with the prefix of an optional field is
    the line of that field. *)
Lemma line_of_field (v : VcardData) (pre : string) (o : option string) (line : string) :
  In (pre, o) (optionalFields v) ->
  In line (vcardLines v) ->
  startsWith line pre = true ->
  line = optionalLine pre o /\ truthy o = true.
Proof.
  intros Hf Hl Hs.
  unfold vcardLines in Hl; apply filter_In in Hl; destruct Hl as [Hl Hk].
  destruct (fnLine_head v) as [fr Hfn].
  unfold vcardCandidates in Hl; rewrite Hfn in Hl.
  unfold optionalFields in Hf; simpl in Hf.
  unfold optionalLine in *.
  destruct Hf as [Hf|[Hf|[Hf|[Hf|[]]]]]; inversion Hf; subst pre o; clear Hf;
    simpl in Hl;
    destruct Hl as [Hl|[Hl|[Hl|[Hl|[Hl|[Hl|[Hl|[Hl|[]]]]]]]]]; subst line;
    repeat match goal with
           | H : context [if truthy ?o then _ else _] |- _ =>
               destruct (truthy o) eqn:?
           | |- context [if truthy ?o then _ else _] =>
               destruct (truthy o) eqn:?
           end;
    try (vm_compute in Hs; discriminate);
    try (vm_compute in Hk; discriminate);
    try (split; reflexivity).
Qed.

Lemma join_cons (sep a : string) (l : list string) :
  l <> [] -> join sep (a :: l) = a +++ sep +++ join sep l.
Proof. destruct l; [contradiction|reflexivity]. Qed.

Lemma append_assoc (a b c : string) : (a +++ b) +++ c = a +++ b +++ c.
Proof. induction a as [|x r IH]; simpl; [reflexivity|rewrite IH; reflexivity]. Qed.

Lemma join_snoc (sep c : string) (l : list string) :
  l <> [] -> join sep (l ++ [c]) = join sep l +++ sep +++ c.
Proof.
  induction l as [|a r IH]; intros H; [contradiction|].
  destruct r as [|b t]; [reflexivity|].
  change ((a :: b :: t) ++ [c]) with (a :: ((b :: t) ++ [c])).
  rewrite join_cons by (simpl; discriminate).
  rewrite IH by discriminate.
  rewrite (join_cons sep a (b :: t)) by discriminate.
  rewrite !append_assoc; reflexivity.
Qed.

(** The lines of a card: the two header lines, the kept lines of the
    fields, the closing line. *)
Lemma vcardLines_shape (v : VcardData) :
  vcardLines v
  = "BEGIN:VCARD" :: "VERSION:3.0"
    :: filter keepLine
         (fnLine v :: map (fun f => optionalLine (fst f) (snd f)) (optionalFields v))
    ++ ["END:VCARD"].
Proof.
  unfold vcardLines, vcardCandidates, optionalFields; cbn [map fst snd].
  match goal with
  | |- filter _ [?b; ?ver; ?f; ?o; ?t; ?e; ?u; ?z] = _ =>
      change [b; ver; f; o; t; e; u; z] with ([b; ver] ++ [f; o; t; e; u] ++ [z])
  end.
  rewrite !filter_app; reflexivity.
Qed.

(** The VCARD text as the code builds it: the kept lines joined by line
    feeds; it begins with BEGIN:VCARD and VERSION:3.0 and ends with
    END:VCARD; a line of the array is kept exactly when it is not empty and
    does not end with a colon, so the line of an absent field is omitted and
    the line of a present field is dropped exactly when its value ends with
    a colon; and the card of Jane alone gives the FN:Jane line and no ORG:
    line. *)
Theorem vcard_lines_kept (data : QrContentData) :
  qrType data = VCARD ->
  let v := cardOf data in
  generateQrContent data = join newline (vcardLines v)
  /\ (exists rest,
        generateQrContent data
        = "BEGIN:VCARD" +++ newline +++ "VERSION:3.0" +++ newline +++ rest)
  /\ (exists before, generateQrContent data = before +++ newline +++ "END:VCARD")
  /\ (forall line, In line (vcardCandidates v) ->
        (In line (vcardLines v) <-> line <> "" /\ endsWith line ":"%char = false))
  /\ (forall pre o, In (pre, o) (optionalFields v) ->
        (truthy o = false ->
         forall line, In line (vcardLines v) -> startsWith line pre = false)
        /\ (In (optionalLine pre o) (vcardLines v)
            <-> truthy o = true /\ endsWith (orEmpty o) ":"%char = false))
  /\ generateQrContent (vcardPayload (Some janeCard))
     = join newline ["BEGIN:VCARD"; "VERSION:3.0"; "FN:Jane"; "END:VCARD"].
Proof.
  intros Ht v.
  assert (Hgen : generateQrContent data = join newline (vcardLines v)).
  { unfold generateQrContent; rewrite Ht; reflexivity. }
  split; [exact Hgen|].
  split.
  { rewrite Hgen, vcardLines_shape.
    rewrite join_cons by discriminate.
    rewrite join_cons by (intros H; apply app_eq_nil in H; destruct H; discriminate).
    eexists; reflexivity. }
  split.
  { rewrite Hgen, vcardLines_shape.
    match goal with
    | |- context [?a :: ?b :: ?m ++ [?z]] =>
        change (a :: b :: m ++ [z]) with ((a :: b :: m) ++ [z])
    end.
    rewrite join_snoc by discriminate.
    eexists; reflexivity. }
  split.
  { intros line Hin; unfold vcardLines; rewrite filter_In, keepLine_spec; tauto. }
  split; [|reflexivity].
  intros pre o Hf; split.
  - intros Hfalse line Hin.
    destruct (startsWith line pre) eqn:Hs; [|reflexivity].
    destruct (line_of_field v pre o line Hf Hin Hs) as [_ Htrue]; congruence.
  - assert (Hpre : pre <> "").
    { unfold optionalFields in Hf; simpl in Hf.
      destruct Hf as [Hf|[Hf|[Hf|[Hf|[]]]]]; inversion Hf; discriminate. }
    assert (Hcand : In (optionalLine pre o) (vcardCandidates v)).
    { unfold optionalFields in Hf; simpl in Hf; unfold vcardCandidates.
      destruct Hf as [Hf|[Hf|[Hf|[Hf|[]]]]]; inversion Hf; simpl; tauto. }
    unfold vcardLines; rewrite filter_In, (optionalLine_kept pre o Hpre).
    rewrite andb_true_iff, negb_true_iff; tauto.
Qed.

(** The same on the card of Jane at Acme. *)
Lemma vcard_lines_kept_witness :
  let data := vcardPayload (Some janeAtAcme) in
  let v := cardOf data in
  generateQrContent data = join newline (vcardLines v)
  /\ (exists rest,
        generateQrContent data
        = "BEGIN:VCARD" +++ newline +++ "VERSION:3.0" +++ newline +++ rest)
  /\ (exists before, generateQrContent data = before +++ newline +++ "END:VCARD")
  /\ (forall line, In line (vcardCandidates v) ->
        (In line (vcardLines v) <-> line <> "" /\ endsWith line ":"%char = false))
  /\ (forall pre o, In (pre, o) (optionalFields v) ->
        (truthy o = false ->
         forall line, In line (vcardLines v) -> startsWith line pre = false)
        /\ (In (optionalLine pre o) (vcardLines v)
            <-> truthy o = true /\ endsWith (orEmpty o) ":"%char = false))
  /\ generateQrContent (vcardPayload (Some janeCard))
     = join newline ["BEGIN:VCARD"; "VERSION:3.0"; "FN:Jane"; "END:VCARD"].
Proof.
  apply (vcard_lines_kept (vcardPayload (Some janeAtAcme))); reflexivity.
Defined.

(** C5. The filter [line && !line.endsWith(':')], meant for the lines left
    without a value, also drops the line of a field that is present when its
    value ends with a colon: the ORG line of Jane at [Acme:] is built, carries
    the value [Acme:] after its colon, and is dropped all the same, so the
    text is that of Jane alone although the organization was given. Hence
    it is not only the lines with nothing after their colon that are
    dropped. *)
Lemma vcard_value_ending_with_colon_dropped :
  In "ORG:Acme:" (vcardCandidates janeAtAcme)
  /\ afterColon "ORG:Acme:" = "Acme:"
  /\ carriesValue "ORG:Acme:" = true
  /\ existsb (String.eqb "ORG:Acme:") (vcardLines janeAtAcme) = false
  /\ generateQrContent (vcardPayload (Some janeAtAcme))
     = join newline ["BEGIN:VCARD"; "VERSION:3.0"; "FN:Jane"; "END:VCARD"].
Proof.
  split; [simpl; tauto|].
  repeat split.
Qed.

(** A card with no name has no FN line. *)
Example vcard_without_names :
  generateQrContent (vcardPayload None)
  = join newline ["BEGIN:VCARD"; "VERSION:3.0"; "END:VCARD"].
Proof. reflexivity. Qed.

(** ** The renderer *)

Lemma fold_left_appending {A : Type} (f : Ctx -> A -> Ctx) (g : A -> Ctx) :
  (forall ctx a, f ctx a = ctx ++ g a) ->
  forall l ctx, fold_left f l ctx = ctx ++ flat_map g l.
Proof.
  intros Hf l; induction l as [|a r IH]; intros ctx; simpl.
  - rewrite app_nil_r; reflexivity.
  - rewrite IH, Hf, <- app_assoc; reflexivity.
Qed.

Lemma flat_map_filter {A B : Type} (p : A -> bool) (g : A -> list B) (l : list A) :
  flat_map g (filter p l) = flat_map (fun a => if p a then g a else []) l.
Proof.
  induction l as [|a r IH]; simpl; [reflexivity|].
  destruct (p a); simpl; rewrite IH; reflexivity.
Qed.

Lemma flat_map_flat_map {A B C : Type} (g : B -> list C) (k : A -> list B) (l : list A) :
  flat_map g (flat_map k l) = flat_map (fun a => flat_map g (k a)) l.
Proof.
  induction l as [|a r IH]; simpl; [reflexivity|].
  rewrite flat_map_app, IH; reflexivity.
Qed.

Lemma flat_map_map {A B C : Type} (g : B -> list C) (m : A -> B) (l : list A) :
  flat_map g (map m l) = flat_map (fun a => g (m a)) l.
Proof. induction l as [|a r IH]; simpl; [reflexivity|rewrite IH; reflexivity]. Qed.

(** A drawing over the cells of a grid, row by row. *)
Lemma flat_map_cells {C : Type} (g : nat * nat -> list C) (n : nat) :
  flat_map g (cells n)
  = flat_map (fun row => flat_map (fun col => g (row, col)) (seq 0 n)) (seq 0 n).
Proof.
  unfold cells; rewrite flat_map_flat_map.
  apply flat_map_ext; intros row; apply flat_map_map.
Qed.

(** [drawStyledModule] appends to the context. *)
Lemma drawStyledModule_app (ctx : Ctx) (x y s : float) (st c : string) :
  drawStyledModule ctx x y s st c = ctx ++ drawStyledModule [] x y s st c.
Proof.
  unfold drawStyledModule, drawRoundedRect.
  case_names; rewrite <- ?app_assoc; reflexivity.
Qed.

Lemma drawStyledModule_no_image (x y s : float) (st c : string) :
  forallb (fun op => negb (isDrawImage op)) (drawStyledModule [] x y s st c) = true.
Proof.
  unfold drawStyledModule, drawRoundedRect.
  case_names; reflexivity.
Qed.

(** A module sets the foreground colour and then fills once, whatever the
    style. *)
Lemma drawStyledModule_fills (x y s : float) (st c : string) :
  exists rest,
    drawStyledModule [] x y s st c = SetFillStyle (Color c) :: rest
    /\ List.length (filter isFill rest) = 1%nat.
Proof.
  unfold drawStyledModule, drawRoundedRect.
  case_names; eexists; split; reflexivity.
Qed.

Lemma paintCells_fills (cellSize : float) (st fg : string) (l : list (nat * nat)) :
  List.length (filter isFill (paintCells cellSize st fg l)) = List.length l.
Proof.
  unfold paintCells; induction l as [|c r IH]; [reflexivity|].
  cbn [flat_map List.length].
  destruct (drawStyledModule_fills (fst (cornerOf cellSize c)) (snd (cornerOf cellSize c))
              cellSize st fg) as [rest [Hd Hn]].
  rewrite filter_app, length_app, IH, Hd; cbn [filter isFill]; rewrite Hn; reflexivity.
Qed.

(** A style without a case of its own is drawn as plain squares. *)
Lemma paintCells_square (cellSize : float) (st fg : string) (l : list (nat * nat)) :
  existsb (String.eqb st) styledNames = false ->
  paintCells cellSize st fg l = flat_map (squareOps cellSize fg) l.
Proof.
  unfold styledNames; cbn [existsb]; intros H.
  repeat (apply orb_false_iff in H; destruct H as [? H]).
  unfold paintCells; apply flat_map_ext; intros cell.
  unfold drawStyledModule, squareOps.
  repeat match goal with
         | E : String.eqb st _ = false |- _ => rewrite E; clear E
         end.
  reflexivity.
Qed.

Section RendererFacts.
Context {libs : Libraries}.

(** [addLogoToCanvas] appends to the context. *)
Lemma addLogoToCanvas_app (ctx : Ctx) (logo : Buffer) (s : float) (ls : option string) :
  addLogoToCanvas ctx logo s ls
  = (ctx ++ fst (addLogoToCanvas [] logo s ls), snd (addLogoToCanvas [] logo s ls)).
Proof.
  unfold addLogoToCanvas, drawRoundedRect.
  destruct (loadImage logo) as [img|]; cbn [fst snd].
  - case_names; rewrite <- ?app_assoc; reflexivity.
  - rewrite app_nil_r; reflexivity.
Qed.

(** A logo that does not decode draws nothing and is logged. *)
Lemma addLogoToCanvas_undecodable (ctx : Ctx) (logo : Buffer) (s : float)
  (ls : option string) :
  loadImage logo = None ->
  addLogoToCanvas ctx logo s ls = (ctx, ["Error adding logo to QR code:"]).
Proof. intros H; unfold addLogoToCanvas; rewrite H; reflexivity. Qed.

(** The two loops paint the cells that pass the test of [drawCell], row by
    row. *)
Lemma loops_paint (modules : BitMatrix) (cellSize : float) (hasLogo : bool)
  (lo hi : float) (st fg : string) (ctx : Ctx) :
  fold_left
    (fun ctx row =>
       fold_left (drawCell modules cellSize hasLogo lo hi st fg row)
         (seq 0 (modules_size modules)) ctx)
    (seq 0 (modules_size modules)) ctx
  = ctx ++
    paintCells cellSize st fg
      (filter
         (fun cell =>
            isDark modules cell
            && negb (hasLogo
                     && (lo <=? fst (cornerOf cellSize cell))%float
                     && (fst (cornerOf cellSize cell) <=? hi)%float
                     && (lo <=? snd (cornerOf cellSize cell))%float
                     && (snd (cornerOf cellSize cell) <=? hi)%float))
         (cells (modules_size modules))).
Proof.
  unfold paintCells.
  rewrite flat_map_filter, flat_map_cells.
  apply fold_left_appending; intros c row.
  apply fold_left_appending; intros c' col.
  unfold drawCell, isDark, cornerOf; cbn [fst snd].
  destruct (modules_get modules col row); cbn [andb]; [|symmetry; apply app_nil_r].
  match goal with
  | |- context [if ?b then c' else _] => destruct b
  end; cbn [negb]; [symmetry; apply app_nil_r|apply drawStyledModule_app].
Qed.

End RendererFacts.

Section RendererProperties.
Context {libs : Libraries}.

(** The canvas drawn without a logo: the background, then every dark
    module. *)
Lemma renderCanvas_without_logo (content : string) (st : QrStyleConfig)
  (modules : BitMatrix) :
  QRCode_create content (errorLevel st) = Some modules ->
  renderCanvas content st None
  = Some (canvasOf st
            (backgroundOps st
             ++ paintCells (cellSizeOf st modules) (style st) (fgColor st)
                  (darkCells modules)),
          []).
Proof.
  intros Hq; unfold renderCanvas; rewrite Hq.
  rewrite loops_paint.
  rewrite (filter_ext _ (isDark modules))
    by (intros cell; cbn [andb negb]; apply andb_true_r).
  reflexivity.
Qed.

(** The canvas drawn with a logo: the background, the dark modules outside
    the keep-out zone, then what [addLogoToCanvas] draws. *)
Lemma renderCanvas_with_logo (content : string) (st : QrStyleConfig)
  (modules : BitMatrix) (logo : Buffer) :
  QRCode_create content (errorLevel st) = Some modules ->
  renderCanvas content st (Some logo)
  = Some (canvasOf st
            (backgroundOps st
             ++ paintCells (cellSizeOf st modules) (style st) (fgColor st)
                  (darkCellsOutside st modules)
             ++ fst (addLogoToCanvas [] logo (size st) (logoStyle st))),
          snd (addLogoToCanvas [] logo (size st) (logoStyle st))).
Proof.
  intros Hq; unfold renderCanvas; rewrite Hq.
  rewrite loops_paint, addLogoToCanvas_app.
  unfold canvasOf, backgroundOps, darkCellsOutside, cellSizeOf, outsideKeepOut,
    insideKeepOut, keepOutZone.
  cbn [andb].
  rewrite <- app_assoc; reflexivity.
Qed.

(** C6. With a logo buffer, the dark modules [generateStyledQrCode] leaves
    unpainted are exactly those whose top-left corner
    [(col * cellSize, row * cellSize)] lies in the centered square of side
    [0.25 * size]: the modules painted are, row by row, the dark cells
    outside it. Without a logo buffer every dark module is painted. To paint
    a module is to issue its commands: whatever the style, they set the
    foreground colour and then fill exactly once, so the filling commands
    issued for the modules are as many as the modules painted; and for a
    style without a case of its own (such as [square]) they are the
    foreground colour and [fillRect] of the cell at its corner. *)
Theorem keep_out_zone_skipped (content : string) (st : QrStyleConfig)
  (modules : BitMatrix) (logo : Buffer) :
  QRCode_create content (errorLevel st) = Some modules ->
  renderCanvas content st (Some logo)
  = Some (canvasOf st
            (backgroundOps st
             ++ paintCells (cellSizeOf st modules) (style st) (fgColor st)
                  (darkCellsOutside st modules)
             ++ fst (addLogoToCanvas [] logo (size st) (logoStyle st))),
          snd (addLogoToCanvas [] logo (size st) (logoStyle st)))
  /\ renderCanvas content st None
     = Some (canvasOf st
               (backgroundOps st
                ++ paintCells (cellSizeOf st modules) (style st) (fgColor st)
                     (darkCells modules)),
             [])
  /\ (forall row col,
        In (row, col) (darkCellsOutside st modules)
        <-> (row < modules_size modules)%nat /\ (col < modules_size modules)%nat
            /\ modules_get modules col row = true
            /\ insideKeepOut (size st)
                 (ofNat col * cellSizeOf st modules)%float
                 (ofNat row * cellSizeOf st modules)%float = false)
  /\ (forall row col,
        In (row, col) (darkCells modules)
        <-> (row < modules_size modules)%nat /\ (col < modules_size modules)%nat
            /\ modules_get modules col row = true)
  /\ (forall row col,
       exists rest,
         drawStyledModule []
           (ofNat col * cellSizeOf st modules)%float
           (ofNat row * cellSizeOf st modules)%float
           (cellSizeOf st modules) (style st) (fgColor st)
         = SetFillStyle (Color (fgColor st)) :: rest
         /\ List.length (filter isFill rest) = 1%nat)
  /\ (forall l,
        List.length
          (filter isFill (paintCells (cellSizeOf st modules) (style st) (fgColor st) l))
        = List.length l)
  /\ (existsb (String.eqb (style st)) styledNames = false ->
      forall l,
        paintCells (cellSizeOf st modules) (style st) (fgColor st) l
        = flat_map
            (fun cell =>
               [ SetFillStyle (Color (fgColor st));
                 FillRect (ofNat (snd cell) * cellSizeOf st modules)%float
                   (ofNat (fst cell) * cellSizeOf st modules)%float
                   (cellSizeOf st modules) (cellSizeOf st modules) ])
            l).
Proof.
  intros Hq.
  assert (Hcells : forall n row col,
            In (row, col) (cells n) <-> (row < n)%nat /\ (col < n)%nat).
  { intros n row col; unfold cells; rewrite in_flat_map; split.
    - intros [r [Hr Hin]]; apply in_map_iff in Hin; destruct Hin as [c [Hc Hin]].
      inversion Hc; subst; apply in_seq in Hr, Hin; lia.
    - intros [Hr Hc]; exists row; split; [apply in_seq; lia|].
      apply in_map; apply in_seq; lia. }
  split; [exact (renderCanvas_with_logo content st modules logo Hq)|].
  split; [exact (renderCanvas_without_logo content st modules Hq)|].
  split.
  { intros row col.
    unfold darkCellsOutside; rewrite filter_In, Hcells, andb_true_iff.
    unfold isDark, outsideKeepOut, cornerOf; cbn [fst snd].
    rewrite negb_true_iff; tauto. }
  split.
  { intros row col.
    unfold darkCells; rewrite filter_In, Hcells; unfold isDark; cbn [fst snd]; tauto. }
  split; [intros row col; apply drawStyledModule_fills|].
  split; [intros l; apply paintCells_fills|].
  intros Hplain l.
  exact (paintCells_square (cellSizeOf st modules) (style st) (fgColor st) l Hplain).
Qed.

Lemma filter_both {A : Type} (p q : A -> bool) (l : list A) :
  filter (fun a => p a && q a) l = filter q (filter p l).
Proof.
  induction l as [|a r IH]; simpl; [reflexivity|].
  destruct (p a); simpl; [destruct (q a)|]; rewrite IH; reflexivity.
Qed.

Lemma paintCells_no_image (cellSize : float) (st fg : string) (l : list (nat * nat)) :
  forallb (fun op => negb (isDrawImage op)) (paintCells cellSize st fg l) = true.
Proof.
  unfold paintCells; induction l as [|c r IH]; cbn [flat_map]; [reflexivity|].
  rewrite forallb_app, drawStyledModule_no_image, IH; reflexivity.
Qed.

(** C9. With a logo buffer that does not decode, the keep-out zone is
    reserved all the same and nothing is drawn for the logo: the canvas holds
    the background and the dark modules outside the zone, that is the
    no-logo canvas of the same content and style without the modules of the
    zone, and no image; the failure is logged and the PNG of that canvas
    returned. *)
Theorem undecodable_logo_leaves_hole (content : string) (st : QrStyleConfig)
  (modules : BitMatrix) (logo : Buffer) :
  QRCode_create content (errorLevel st) = Some modules ->
  loadImage logo = None ->
  let holed :=
    canvasOf st
      (backgroundOps st
       ++ paintCells (cellSizeOf st modules) (style st) (fgColor st)
            (filter (outsideKeepOut (size st) (cellSizeOf st modules))
               (darkCells modules))) in
  renderCanvas content st (Some logo) = Some (holed, ["Error adding logo to QR code:"])
  /\ renderCanvas content st None
     = Some (canvasOf st
               (backgroundOps st
                ++ paintCells (cellSizeOf st modules) (style st) (fgColor st)
                     (darkCells modules)),
             [])
  /\ generateStyledQrCode content st (Some logo) = Some (canvas_toBuffer holed)
  /\ forallb (fun op => negb (isDrawImage op)) (canvas_ops holed) = true.
Proof.
  intros Hq Hl holed.
  assert (Hr : renderCanvas content st (Some logo)
               = Some (holed, ["Error adding logo to QR code:"])).
  { rewrite (renderCanvas_with_logo content st modules logo Hq).
    rewrite (addLogoToCanvas_undecodable [] logo (size st) (logoStyle st) Hl).
    cbn [fst snd]; rewrite app_nil_r.
    unfold holed, darkCellsOutside, darkCells; rewrite filter_both; reflexivity. }
  split; [exact Hr|].
  split; [exact (renderCanvas_without_logo content st modules Hq)|].
  split.
  - unfold generateStyledQrCode; rewrite Hr; reflexivity.
  - unfold holed, canvasOf, backgroundOps; cbn [canvas_ops].
    rewrite forallb_app, paintCells_no_image; reflexivity.
Qed.

End RendererProperties.

(** C6 on the checkerboard symbol at size 400. *)
Lemma keep_out_zone_skipped_witness :
  renderCanvas (libs := demoLibraries) "hello" demoStyle (Some someBytes)
  = Some (canvasOf demoStyle
            (backgroundOps demoStyle
             ++ paintCells (cellSizeOf demoStyle checkerboard) "square" "#000000"
                  (darkCellsOutside demoStyle checkerboard)
             ++ fst (addLogoToCanvas (libs := demoLibraries) [] someBytes 400%float None)),
          snd (addLogoToCanvas (libs := demoLibraries) [] someBytes 400%float None))
  /\ renderCanvas (libs := demoLibraries) "hello" demoStyle None
     = Some (canvasOf demoStyle
               (backgroundOps demoStyle
                ++ paintCells (cellSizeOf demoStyle checkerboard) "square" "#000000"
                     (darkCells checkerboard)),
             [])
  /\ (forall row col,
        In (row, col) (darkCellsOutside demoStyle checkerboard)
        <-> (row < 21)%nat /\ (col < 21)%nat
            /\ modules_get checkerboard col row = true
            /\ insideKeepOut 400%float
                 (ofNat col * cellSizeOf demoStyle checkerboard)%float
                 (ofNat row * cellSizeOf demoStyle checkerboard)%float = false)
  /\ (forall row col,
        In (row, col) (darkCells checkerboard)
        <-> (row < 21)%nat /\ (col < 21)%nat
            /\ modules_get checkerboard col row = true)
  /\ (forall row col,
       exists rest,
         drawStyledModule []
           (ofNat col * cellSizeOf demoStyle checkerboard)%float
           (ofNat row * cellSizeOf demoStyle checkerboard)%float
           (cellSizeOf demoStyle checkerboard) "square" "#000000"
         = SetFillStyle (Color "#000000") :: rest
         /\ List.length (filter isFill rest) = 1%nat)
  /\ (forall l,
        List.length
          (filter isFill
             (paintCells (cellSizeOf demoStyle checkerboard) "square" "#000000" l))
        = List.length l)
  /\ (forall l,
        paintCells (cellSizeOf demoStyle checkerboard) "square" "#000000" l
        = flat_map
            (fun cell =>
               [ SetFillStyle (Color "#000000");
                 FillRect (ofNat (snd cell) * cellSizeOf demoStyle checkerboard)%float
                   (ofNat (fst cell) * cellSizeOf demoStyle checkerboard)%float
                   (cellSizeOf demoStyle checkerboard)
                   (cellSizeOf demoStyle checkerboard) ])
            l).
Proof.
  destruct (keep_out_zone_skipped (libs := demoLibraries) "hello" demoStyle
              checkerboard someBytes eq_refl)
    as [Hlogo [Hnone [Hout [Hdark [Hmodule [Hcount Hsquare]]]]]].
  split; [exact Hlogo|]. split; [exact Hnone|]. split; [exact Hout|].
  split; [exact Hdark|]. split; [exact Hmodule|]. split; [exact Hcount|].
  exact (Hsquare eq_refl).
Defined.

(** On a canvas of side 400 the zone runs from 150 to 250 on both axes; of
    the 221 dark cells of the checkerboard, the 18 whose corner lies in it
    are skipped. *)
Example keep_out_zone_400 :
  keepOutZone 400%float = (150%float, 250%float)
  /\ List.length (darkCells checkerboard) = 221%nat
  /\ List.length (darkCellsOutside demoStyle checkerboard) = 203%nat
  /\ existsb (fun c => Nat.eqb (fst c) 10 && Nat.eqb (snd c) 10)
       (darkCellsOutside demoStyle checkerboard) = false
  /\ existsb (fun c => Nat.eqb (fst c) 0 && Nat.eqb (snd c) 0)
       (darkCellsOutside demoStyle checkerboard) = true.
Proof. repeat split; vm_compute; reflexivity. Qed.

(** C9 with the empty buffer, which does not decode. *)
Lemma undecodable_logo_leaves_hole_witness :
  let holed :=
    canvasOf demoStyle
      (backgroundOps demoStyle
       ++ paintCells (cellSizeOf demoStyle checkerboard) "square" "#000000"
            (filter (outsideKeepOut 400%float (cellSizeOf demoStyle checkerboard))
               (darkCells checkerboard))) in
  renderCanvas (libs := demoLibraries) "hello" demoStyle (Some [])
  = Some (holed, ["Error adding logo to QR code:"])
  /\ renderCanvas (libs := demoLibraries) "hello" demoStyle None
     = Some (canvasOf demoStyle
               (backgroundOps demoStyle
                ++ paintCells (cellSizeOf demoStyle checkerboard) "square" "#000000"
                     (darkCells checkerboard)),
             [])
  /\ generateStyledQrCode (libs := demoLibraries) "hello" demoStyle (Some [])
     = Some (canvas_toBuffer (Libraries := demoLibraries) holed)
  /\ forallb (fun op => negb (isDrawImage op)) (canvas_ops holed) = true.
Proof.
  apply (undecodable_logo_leaves_hole (libs := demoLibraries) "hello" demoStyle
           checkerboard []); reflexivity.
Defined.

(** ** The converter *)

Section ConverterProperties.
Context {libs : Libraries}.

(** C7. For the formats [svg] and [pdf], [convertToFormat] without
    watermark gives back the input bytes, and with watermark gives what
    [addWatermark] gives, with no conversion after it; for [png] and [jpg] it
    runs the encoder, JPEG at quality 90, on the bytes after the watermark
    step. *)
Theorem svg_pdf_pass_through (qrBuffer : Buffer) :
  convertToFormat qrBuffer "svg" false = (Some qrBuffer, [])
  /\ convertToFormat qrBuffer "pdf" false = (Some qrBuffer, [])
  /\ convertToFormat qrBuffer "svg" true = addWatermark qrBuffer
  /\ convertToFormat qrBuffer "pdf" true = addWatermark qrBuffer
  /\ convertToFormat qrBuffer "jpg" false = (sharp_jpeg 90 qrBuffer, [])
  /\ convertToFormat qrBuffer "png" false = (sharp_png 90 qrBuffer, [])
  /\ (forall marked logged,
        addWatermark qrBuffer = (Some marked, logged) ->
        convertToFormat qrBuffer "jpg" true = (sharp_jpeg 90 marked, logged)
        /\ convertToFormat qrBuffer "png" true = (sharp_png 90 marked, logged)).
Proof.
  split; [reflexivity|].
  split; [reflexivity|].
  split; [unfold convertToFormat;
          destruct (addWatermark qrBuffer) as [[b|] l]; reflexivity|].
  split; [unfold convertToFormat;
          destruct (addWatermark qrBuffer) as [[b|] l]; reflexivity|].
  split; [reflexivity|].
  split; [reflexivity|].
  intros marked logged Hw; unfold convertToFormat; rewrite Hw; split; reflexivity.
Qed.

(** A buffer whose metadata cannot be read is caught: it is logged and the
    conversion goes on with the bytes as they came. *)
Lemma watermark_metadata_failure_caught (qrBuffer : Buffer) :
  sharp_metadata qrBuffer = None ->
  addWatermark qrBuffer = (Some qrBuffer, ["Error adding watermark:"])
  /\ convertToFormat qrBuffer "svg" true
     = (Some qrBuffer, ["Error adding watermark:"])
  /\ convertToFormat qrBuffer "png" true
     = (sharp_png 90 qrBuffer, ["Error adding watermark:"]).
Proof.
  intros H.
  assert (Ha : addWatermark qrBuffer = (Some qrBuffer, ["Error adding watermark:"]))
    by (unfold addWatermark; rewrite H; reflexivity).
  unfold convertToFormat; rewrite Ha; repeat split.
Qed.

(** A failure of the compositing itself is not caught: the conversion
    rejects, whatever the format, and nothing is logged. *)
Lemma watermark_composite_failure_escapes
  (qrBuffer : Buffer) (width height : option Z) (format : string) :
  sharp_metadata qrBuffer = Some (width, height) ->
  sharp_composite qrBuffer
    [{| overlay_input := bufferFrom (watermarkSvg width height);
        overlay_gravity := "southeast" |}] = None ->
  addWatermark qrBuffer = (None, [])
  /\ convertToFormat qrBuffer format true = (None, []).
Proof.
  intros Hm Hc.
  assert (Ha : addWatermark qrBuffer = (None, []))
    by (unfold addWatermark; rewrite Hm, Hc; reflexivity).
  unfold convertToFormat; rewrite Ha; split; reflexivity.
Qed.

End ConverterProperties.

Lemma watermark_metadata_failure_caught_witness :
  addWatermark (libs := demoLibraries) [] = (Some [], ["Error adding watermark:"])
  /\ convertToFormat (libs := demoLibraries) [] "svg" true
     = (Some [], ["Error adding watermark:"])
  /\ convertToFormat (libs := demoLibraries) [] "png" true
     = (sharp_png (Libraries := demoLibraries) 90 [], ["Error adding watermark:"]).
Proof.
  apply (watermark_metadata_failure_caught (libs := demoLibraries) []); reflexivity.
Defined.

Lemma watermark_composite_failure_escapes_witness :
  addWatermark (libs := truncatedImageLibraries) someBytes = (None, [])
  /\ convertToFormat (libs := truncatedImageLibraries) someBytes "pdf" true = (None, []).
Proof.
  apply (watermark_composite_failure_escapes (libs := truncatedImageLibraries)
           someBytes (Some 400) (Some 400) "pdf"); reflexivity.
Defined.

(** C10. For an image whose metadata reads and whose compositing fails,
    [addWatermark] rejects and so does [convertToFormat] with the watermark
    asked for: the input buffer is not returned and nothing is logged. *)
Theorem watermark_failure_not_caught :
  sharp_metadata (Libraries := truncatedImageLibraries) someBytes
  = Some (Some 400, Some 400)
  /\ addWatermark (libs := truncatedImageLibraries) someBytes = (None, [])
  /\ convertToFormat (libs := truncatedImageLibraries) someBytes "svg" true = (None, [])
  /\ convertToFormat (libs := truncatedImageLibraries) someBytes "png" true = (None, [])
  /\ convertToFormat (libs := truncatedImageLibraries) someBytes "svg" false
     = (Some someBytes, []).
Proof. repeat split. Qed.

(** The overlay for an image of 400 by 400. *)
Example watermarkSvg_400 :
  watermarkSvg (Some 400) (Some 400)
  = join newline
      [ "";
        "        <svg width=" +++ dq +++ "400" +++ dq +++ " height=" +++ dq +++ "400"
          +++ dq +++ ">";
        "          <text x=" +++ dq +++ "390" +++ dq +++ " y=" +++ dq +++ "390"
          +++ dq +++ " ";
        "                font-family=" +++ dq +++ "Arial" +++ dq
          +++ " font-size=" +++ dq +++ "12" +++ dq +++ " ";
        "                fill=" +++ dq +++ "rgba(0,0,0,0.5)" +++ dq
          +++ " text-anchor=" +++ dq +++ "end" +++ dq +++ ">";
        "            QR Generator Pro";
        "          </text>";
        "        </svg>";
        "      " ].
Proof. reflexivity. Qed.

(** ** The usage counters *)

Lemma getCurrentMonthlyUsage_sum (w : World) (userId actionType : string) :
  getCurrentMonthlyUsage userId actionType w
  = (Ok (sumCounts (filter (inMonthOf (clock w) userId actionType) (usageTrackings w))), w).
Proof.
  unfold getCurrentMonthlyUsage, usageTracking_aggregate_sum, sumCounts; run_prisma.
  change (fun u : UsageTracking =>
            String.eqb (usage_userId u) userId
            && String.eqb (usage_actionType u) actionType
            && (mkDate (getFullYear (clock w)) (getMonth (clock w)) 1 <=? usage_date u)
            && (usage_date u <=? mkDate (getFullYear (clock w)) (getMonth (clock w) + 1) 0))
    with (inMonthOf (clock w) userId actionType).
  destruct (filter _ (usageTrackings w)); reflexivity.
Qed.

Lemma sumCounts_app (l l' : list UsageTracking) :
  sumCounts (l ++ l') = sumCounts l + sumCounts l'.
Proof.
  unfold sumCounts; induction l as [|a r IH]; simpl; [reflexivity|]. rewrite IH; ring.
Qed.

(** Adding [n] to the rows a test selects adds [n] for each selected row
    that is counted. *)
Lemma sumCounts_increment (P k : UsageTracking -> bool) (n : Z) (l : list UsageTracking) :
  (forall x, P (addCount n x) = P x) ->
  sumCounts (filter P (map (fun x => if k x then addCount n x else x) l))
  = sumCounts (filter P l)
    + n * Z.of_nat (List.length (filter (fun x => k x && P x) l)).
Proof.
  intros HP; induction l as [|a r IH]; [unfold sumCounts; simpl; lia|].
  cbn [map filter].
  destruct (k a) eqn:Ek; cbn [andb].
  - rewrite HP; destruct (P a); cbn [List.length]; unfold sumCounts in *; cbn [map fold_right];
      rewrite IH; unfold addCount; cbn [usage_count]; lia.
  - destruct (P a); unfold sumCounts in *; cbn [map fold_right]; rewrite IH; lia.
Qed.

Lemma counterKey_eqb (userId actionType : string) (date : Z) (x : UsageTracking) :
  String.eqb (usage_userId x) userId && String.eqb (usage_actionType x) actionType
  && (usage_date x =? date) = true
  <-> counterKey x = (userId, actionType, date).
Proof.
  unfold counterKey; rewrite !andb_true_iff, !String.eqb_eq, Z.eqb_eq.
  split; [intros [[-> ->] ->]; reflexivity|intros H; inversion H; auto].
Qed.

Lemma absent_key_filter (k : UsageTracking -> bool) (key : string * string * Z)
  (l : list UsageTracking) :
  (forall x, k x = true <-> counterKey x = key) ->
  ~ In key (map counterKey l) ->
  filter k l = [].
Proof.
  intros Hk; induction l as [|a r IH]; intros Hnot; [reflexivity|].
  cbn [filter]; destruct (k a) eqn:Ea.
  - apply Hk in Ea; exfalso; apply Hnot; left; exact Ea.
  - apply IH; intros Hin; apply Hnot; right; exact Hin.
Qed.

Lemma unique_key_once (k : UsageTracking -> bool) (key : string * string * Z)
  (l : list UsageTracking) :
  (forall x, k x = true <-> counterKey x = key) ->
  NoDup (map counterKey l) ->
  (List.length (filter k l) <= 1)%nat.
Proof.
  intros Hk; induction l as [|a r IH]; intros Hnd; [simpl; lia|].
  inversion Hnd as [|? ? Hnot Hnd']; subst.
  cbn [filter]; destruct (k a) eqn:Ea; [|apply IH; exact Hnd'].
  rewrite (absent_key_filter k key r Hk); [simpl; lia|].
  apply Hk in Ea; rewrite <- Ea; exact Hnot.
Qed.

Lemma existsb_filter_length {A} (k : A -> bool) (l : list A) :
  existsb k l = true -> (1 <= List.length (filter k l))%nat.
Proof.
  induction l as [|a r IH]; simpl; [discriminate|].
  destruct (k a); simpl; [lia|exact IH].
Qed.

Lemma startOfDay_in_month (now : Z) :
  (mkDate (getFullYear now) (getMonth now) 1 <=? startOfDay now)
  && (startOfDay now <=? mkDate (getFullYear now) (getMonth now + 1) 0) = true.
Proof.
  rewrite (window_is_month now (startOfDay now) (startOfDay_midnight now)).
  unfold sameMonth, getFullYear, getMonth.
  assert (Hq : startOfDay now / msPerDay = now / msPerDay).
  { unfold startOfDay, msPerDay; lia_div. }
  rewrite Hq, !Z.eqb_refl; reflexivity.
Qed.

Lemma trackUsage_run (w : World) (userId actionType : string) (count : Z) :
  exists rows,
    trackUsage userId actionType count w
    = (Ok tt, {| subscriptions := subscriptions w; usageTrackings := rows;
                 qrCodes := qrCodes w; clock := clock w |})
    /\ forall u' a',
         sumCounts (filter (inMonthOf (clock w) u' a') rows)
         = sumCounts (filter (inMonthOf (clock w) u' a') (usageTrackings w))
           + (if String.eqb userId u' && String.eqb actionType a' then
                if existsb (fun u => String.eqb (usage_userId u) userId
                                     && String.eqb (usage_actionType u) actionType
                                     && (usage_date u =? startOfDay (clock w)))
                     (usageTrackings w)
                then count * Z.of_nat (List.length
                       (filter (fun u => String.eqb (usage_userId u) userId
                                     && String.eqb (usage_actionType u) actionType
                                     && (usage_date u =? startOfDay (clock w)))
                          (usageTrackings w)))
                else count
              else 0).
Proof.
  unfold trackUsage, usageTracking_upsert; run_prisma.
  set (k := fun u : UsageTracking =>
              String.eqb (usage_userId u) userId
              && String.eqb (usage_actionType u) actionType
              && (usage_date u =? startOfDay (clock w))).
  assert (Hk : forall x, k x = true -> forall u' a',
             inMonthOf (clock w) u' a' x
             = String.eqb userId u' && String.eqb actionType a').
  { intros x Hx u' a'; unfold k in Hx.
    apply andb_true_iff in Hx; destruct Hx as [Hx Hd].
    apply andb_true_iff in Hx; destruct Hx as [Hu Ha].
    apply String.eqb_eq in Hu; apply String.eqb_eq in Ha; apply Z.eqb_eq in Hd.
    unfold inMonthOf; rewrite Hu, Ha, Hd, <- andb_assoc, startOfDay_in_month.
    apply andb_true_r. }
  destruct (existsb k (usageTrackings w)) eqn:Ex.
  - eexists; split; [reflexivity|]; intros u' a'.
    rewrite sumCounts_increment by reflexivity.
    f_equal.
    destruct (String.eqb userId u' && String.eqb actionType a') eqn:Eq.
    + f_equal; f_equal; f_equal. apply filter_ext_in; intros x _.
      change (k x && inMonthOf (clock w) u' a' x = k x).
      destruct (k x) eqn:Ekx; [|reflexivity].
      rewrite (Hk x Ekx), Eq; reflexivity.
    + assert (Hnone : filter (fun x => k x && inMonthOf (clock w) u' a' x)
                               (usageTrackings w) = []).
      { clear Ex; induction (usageTrackings w) as [|x r IH]; [reflexivity|].
        cbn [filter]. destruct (k x) eqn:Ekx; cbn [andb].
        - rewrite (Hk x Ekx), Eq; exact IH.
        - exact IH. }
      unfold k in Hnone; cbv beta in Hnone; rewrite Hnone; simpl; lia.
  - eexists; split; [reflexivity|]; intros u' a'.
    rewrite filter_app, sumCounts_app; f_equal.
    cbn [filter].
    assert (Hnew : inMonthOf (clock w) u' a'
                     {| usage_userId := userId; usage_actionType := actionType;
                        usage_count := count; usage_date := startOfDay (clock w) |}
                   = String.eqb userId u' && String.eqb actionType a').
    { apply Hk; unfold k; cbn [usage_userId usage_actionType usage_date].
      rewrite !String.eqb_refl, Z.eqb_refl; reflexivity. }
    rewrite Hnew.
    destruct (String.eqb userId u' && String.eqb actionType a');
      unfold sumCounts; simpl; lia.
Qed.

Lemma key_filter_one (w : World) (userId actionType : string) (date : Z) :
  uniqueCounters w ->
  existsb (fun u => String.eqb (usage_userId u) userId
                    && String.eqb (usage_actionType u) actionType
                    && (usage_date u =? date)) (usageTrackings w) = true ->
  List.length (filter (fun u => String.eqb (usage_userId u) userId
                    && String.eqb (usage_actionType u) actionType
                    && (usage_date u =? date)) (usageTrackings w)) = 1%nat.
Proof.
  intros Hu Hex.
  pose proof (existsb_filter_length _ _ Hex) as Hge.
  pose proof (unique_key_once _ (userId, actionType, date) (usageTrackings w)
                (counterKey_eqb userId actionType date) Hu) as Hle.
  lia.
Qed.

(** The usage read after [trackUsage], for the counter tracked. *)
Lemma usage_after_trackUsage (w : World) (userId actionType : string) (count usage : Z) :
  uniqueCounters w ->
  getCurrentMonthlyUsage userId actionType w = (Ok usage, w) ->
  getCurrentMonthlyUsage userId actionType (snd (trackUsage userId actionType count w))
  = (Ok (usage + count), snd (trackUsage userId actionType count w)).
Proof.
  intros Hu Hbefore.
  destruct (trackUsage_run w userId actionType count) as [rows [Hrun Hsum]].
  rewrite Hrun; cbn [snd].
  rewrite getCurrentMonthlyUsage_sum in Hbefore.
  rewrite getCurrentMonthlyUsage_sum; cbn [clock usageTrackings].
  rewrite Hsum, !String.eqb_refl; cbn [andb].
  injection Hbefore as Hbefore; rewrite Hbefore.
  destruct (existsb _ (usageTrackings w)) eqn:Ex; [|reflexivity].
  rewrite (key_filter_one w userId actionType _ Hu Ex).
  do 2 f_equal; lia.
Qed.

(** [trackUsage] then [getCurrentMonthlyUsage]: with the compound key
    (user, action kind, day) unique in the table, tracking [count] raises
    the usage of the month for that user and action kind by [count], leaves
    the usage of every other user or action kind as it was, and touches no
    other table. *)
Theorem trackUsage_adds_to_monthly_usage
  (w : World) (userId actionType : string) (count usage : Z) :
  uniqueCounters w ->
  getCurrentMonthlyUsage userId actionType w = (Ok usage, w) ->
  let w' := snd (trackUsage userId actionType count w) in
  fst (trackUsage userId actionType count w) = Ok tt
  /\ getCurrentMonthlyUsage userId actionType w' = (Ok (usage + count), w')
  /\ (forall u' a', (u' <> userId \/ a' <> actionType) ->
        fst (getCurrentMonthlyUsage u' a' w') = fst (getCurrentMonthlyUsage u' a' w))
  /\ subscriptions w' = subscriptions w
  /\ qrCodes w' = qrCodes w
  /\ clock w' = clock w.
Proof.
  intros Hu Hbefore; cbv zeta.
  split; [|split; [exact (usage_after_trackUsage w userId actionType count usage Hu Hbefore)|]];
    destruct (trackUsage_run w userId actionType count) as [rows [Hrun Hsum]];
    rewrite Hrun; cbn [fst snd]; [reflexivity|].
  split; [|repeat split].
  intros u' a' Hne.
  rewrite !getCurrentMonthlyUsage_sum; cbn [fst clock usageTrackings].
  rewrite Hsum.
  assert (Hoff : String.eqb userId u' && String.eqb actionType a' = false).
  { apply andb_false_iff; destruct Hne as [Hne|Hne]; [left|right];
      apply String.eqb_neq; congruence. }
  rewrite Hoff; f_equal; lia.
Qed.

Lemma trackUsage_adds_to_monthly_usage_witness :
  getCurrentMonthlyUsage "bob" "QR_GENERATED"
    (snd (trackUsage "bob" "QR_GENERATED" 1 (bobFree 9)))
  = (Ok (9 + 1), snd (trackUsage "bob" "QR_GENERATED" 1 (bobFree 9))).
Proof.
  apply (trackUsage_adds_to_monthly_usage (bobFree 9) "bob" "QR_GENERATED" 1 9).
  - unfold uniqueCounters; simpl.
    repeat (constructor; [simpl; intuition congruence|]); constructor.
  - reflexivity.
Defined.

Lemma existsb_key_absent (userId actionType : string) (date : Z)
  (l : list UsageTracking) :
  existsb (fun u => String.eqb (usage_userId u) userId
                    && String.eqb (usage_actionType u) actionType
                    && (usage_date u =? date)) l = false ->
  ~ In (userId, actionType, date) (map counterKey l).
Proof.
  intros Hex Hin. apply in_map_iff in Hin; destruct Hin as [x [Hx Hin]].
  apply counterKey_eqb in Hx.
  assert (Htrue : existsb (fun u => String.eqb (usage_userId u) userId
                    && String.eqb (usage_actionType u) actionType
                    && (usage_date u =? date)) l = true)
    by (apply existsb_exists; exists x; split; assumption).
  congruence.
Qed.

(** [trackUsage] keeps the table of counters well formed: the compound key
    stays unique and every counter stays dated at midnight. *)
Theorem trackUsage_keeps_counters_well_formed
  (w : World) (userId actionType : string) (count : Z) :
  uniqueCounters w -> dayBucketed w ->
  let w' := snd (trackUsage userId actionType count w) in
  uniqueCounters w' /\ dayBucketed w'.
Proof.
  intros Hu Hb; split; [|apply trackUsage_dayBucketed; exact Hb].
  unfold uniqueCounters, trackUsage, usageTracking_upsert in *; run_prisma.
  cbn [snd].
  match goal with
  | |- context [if existsb ?k ?l then _ else _] => destruct (existsb k l) eqn:Ex
  end; cbn [snd usageTrackings].
  - rewrite map_map.
    erewrite map_ext; [exact Hu|].
    intros x; cbv beta.
    match goal with
    | |- context [if ?c then _ else _] => destruct c
    end; reflexivity.
  - rewrite map_app; cbn [map].
    apply NoDup_app; [exact Hu|repeat constructor; intros []|].
    intros key Hin [Hk|[]]; subst key.
    exact (existsb_key_absent _ _ _ _ Ex Hin).
Qed.

Lemma trackUsage_keeps_counters_well_formed_witness :
  uniqueCounters (snd (trackUsage "bob" "QR_GENERATED" 1 (bobFree 9)))
  /\ dayBucketed (snd (trackUsage "bob" "QR_GENERATED" 1 (bobFree 9))).
Proof.
  apply (trackUsage_keeps_counters_well_formed (bobFree 9) "bob" "QR_GENERATED" 1).
  - unfold uniqueCounters; simpl.
    repeat (constructor; [simpl; intuition congruence|]); constructor.
  - repeat constructor.
Defined.

Lemma sameMonth_startOfDay (t later : Z) :
  sameMonth (startOfDay t) later = sameMonth t later.
Proof.
  unfold sameMonth, getFullYear, getMonth.
  assert (Hq : startOfDay t / msPerDay = t / msPerDay)
    by (unfold startOfDay, msPerDay; lia_div).
  rewrite Hq; reflexivity.
Qed.

(** A counter of the day of [t] is outside the window of another month. *)
Lemma other_month_window (t later : Z) (userId actionType : string) (x : UsageTracking) :
  sameMonth t later = false ->
  usage_date x = startOfDay t ->
  inMonthOf later userId actionType x = false.
Proof.
  intros Hm Hd; unfold inMonthOf.
  rewrite <- andb_assoc, Hd, (window_is_month later (startOfDay t) (startOfDay_midnight t)).
  rewrite sameMonth_startOfDay, Hm; apply andb_false_r.
Qed.

(** The usage of a month does not carry into another: what [trackUsage]
    counts now changes no usage read at a time of another calendar month,
    for any user and action kind. *)
Theorem usage_does_not_carry_into_another_month
  (w : World) (userId actionType : string) (count later : Z) :
  sameMonth (clock w) later = false ->
  forall user action,
    getCurrentMonthlyUsage user action
      (atTime (snd (trackUsage userId actionType count w)) later)
    = (fst (getCurrentMonthlyUsage user action (atTime w later)),
       atTime (snd (trackUsage userId actionType count w)) later).
Proof.
  intros Hm user action.
  rewrite !getCurrentMonthlyUsage_sum; cbn [fst atTime clock usageTrackings].
  f_equal; f_equal.
  unfold trackUsage, usageTracking_upsert; run_prisma; cbn [snd].
  set (k := fun u : UsageTracking =>
              String.eqb (usage_userId u) userId
              && String.eqb (usage_actionType u) actionType
              && (usage_date u =? startOfDay (clock w))).
  assert (Hk : forall x, k x = true -> inMonthOf later user action x = false).
  { intros x Hx; unfold k in Hx.
    apply andb_true_iff in Hx; destruct Hx as [_ Hd]; apply Z.eqb_eq in Hd.
    exact (other_month_window (clock w) later user action x Hm Hd). }
  destruct (existsb k (usageTrackings w)); cbn [snd usageTrackings].
  - rewrite sumCounts_increment by reflexivity.
    assert (Hnone : filter (fun x => k x && inMonthOf later user action x)
                      (usageTrackings w) = []).
    { induction (usageTrackings w) as [|x r IH]; [reflexivity|].
      cbn [filter]; destruct (k x) eqn:Ekx; cbn [andb]; [rewrite (Hk x Ekx)|]; exact IH. }
    unfold k in Hnone; cbv beta in Hnone; rewrite Hnone; cbn [List.length]; lia.
  - rewrite filter_app, sumCounts_app; cbn [filter].
    rewrite (other_month_window (clock w) later user action
               {| usage_userId := userId; usage_actionType := actionType;
                  usage_count := count; usage_date := startOfDay (clock w) |}
               Hm eq_refl).
    unfold sumCounts at 2; cbn; lia.
Qed.

Lemma usage_does_not_carry_into_another_month_witness :
  getCurrentMonthlyUsage "bob" "QR_GENERATED"
    (atTime (snd (trackUsage "bob" "QR_GENERATED" 1 (bobFree 9)))
       (march15noon + 31 * msPerDay))
  = (Ok 0,
     atTime (snd (trackUsage "bob" "QR_GENERATED" 1 (bobFree 9)))
       (march15noon + 31 * msPerDay)).
Proof.
  apply (usage_does_not_carry_into_another_month (bobFree 9) "bob" "QR_GENERATED" 1
           (march15noon + 31 * msPerDay)).
  reflexivity.
Defined.

(** ** The quota checks *)

Lemma find_existsb {A} (p : A -> bool) (l : list A) :
  existsb p l = true -> exists x, find p l = Some x /\ In x l.
Proof.
  induction l as [|a r IH]; simpl; [discriminate|].
  destruct (p a) eqn:E; simpl.
  - intros _; exists a; auto.
  - intros H; destruct (IH H) as [x [Hx Hin]]; exists x; auto.
Qed.

(** [expireTrial] on a key the table holds does not throw, and writes the
    subscription table only. *)
Lemma expireTrial_ok (w : World) (id : nat) :
  existsb (fun s => Nat.eqb (sub_id s) id) (subscriptions w) = true ->
  exists l,
    expireTrial id w
    = (Ok tt, {| subscriptions := l; usageTrackings := usageTrackings w;
                 qrCodes := qrCodes w; clock := clock w |}).
Proof.
  intros Hex.
  unfold expireTrial, subscription_update, subscription_findUnique,
    subscription_create; run_prisma.
  rewrite Hex; cbn [subscriptions usageTrackings qrCodes clock].
  rewrite find_after_update.
  destruct (find_existsb _ _ Hex) as [x [Hx _]]; rewrite Hx.
  cbn [option_map subscriptions usageTrackings qrCodes clock].
  eexists; reflexivity.
Qed.

Lemma getSubscriptionInfo_ok (w : World) (userId : string) :
  exists l,
    getSubscriptionInfo userId w
    = (Ok (option_map (fun s => infoOf s (clock w)) (currentSubscription w userId)),
       {| subscriptions := l; usageTrackings := usageTrackings w;
          qrCodes := qrCodes w; clock := clock w |}).
Proof.
  destruct (expiresOnRead w userId) eqn:Er.
  - unfold expiresOnRead in Er.
    unfold getSubscriptionInfo, subscription_findFirst; run_prisma.
    fold (currentSubscription w userId).
    destruct (currentSubscription w userId) as [s|] eqn:Hs; [|discriminate].
    apply andb_true_iff in Er; destruct Er as [Er Hst].
    apply andb_true_iff in Er; destruct Er as [Hp He].
    destruct (sub_planType s) eqn:Ep; try discriminate.
    destruct (sub_trialEnd s) as [e|] eqn:Ee; [|discriminate].
    rewrite He, Hst; cbn [andb].
    apply currentSubscription_In in Hs; destruct Hs as [Hin _].
    destruct (expireTrial_ok w (sub_id s) (existsb_id _ _ Hin)) as [l Hl].
    rewrite Hl; exists l.
    cbn [option_map]; unfold infoOf, remainingTrialDays; rewrite Ep, Ee; reflexivity.
  - rewrite (getSubscriptionInfo_pure w userId Er).
    exists (subscriptions w); destruct w; reflexivity.
Qed.

Lemma getPlanLimits_ok (w : World) (userId : string) :
  exists l,
    getPlanLimits userId w
    = (Ok (limitsOf w userId),
       {| subscriptions := l; usageTrackings := usageTrackings w;
          qrCodes := qrCodes w; clock := clock w |}).
Proof.
  unfold getPlanLimits, limitsOf, bind.
  destruct (getSubscriptionInfo_ok w userId) as [l H]; rewrite H; exists l.
  destruct (currentSubscription w userId); reflexivity.
Qed.

(** [canPerformAction] resolves, and writes the subscription table only. *)
Lemma canPerformAction_frame (w : World) (userId : string) (action : Action) :
  (exists d, fst (canPerformAction userId action w) = Ok d)
  /\ usageTrackings (snd (canPerformAction userId action w)) = usageTrackings w
  /\ qrCodes (snd (canPerformAction userId action w)) = qrCodes w
  /\ clock (snd (canPerformAction userId action w)) = clock w.
Proof.
  unfold canPerformAction, bind.
  destruct (getPlanLimits_ok w userId) as [l1 H1]; rewrite H1.
  set (w1 := {| subscriptions := l1; usageTrackings := usageTrackings w;
                qrCodes := qrCodes w; clock := clock w |}).
  destruct (getSubscriptionInfo_ok w1 userId) as [l2 H2]; rewrite H2.
  cbn [usageTrackings qrCodes clock w1].
  set (w2 := {| subscriptions := l2; usageTrackings := usageTrackings w;
                qrCodes := qrCodes w; clock := clock w |}).
  destruct (getCurrentMonthlyUsage_pure w2 userId "QR_GENERATED") as [nq Hq].
  destruct (getCurrentMonthlyUsage_pure w2 userId "API_CALL") as [na Ha].
  generalize (limitsOf w userId); intros limits.
  match goal with
  | |- context [if ?c then ret (deny "Trial has expired") else _] => destruct c
  end; [cbn; eauto|].
  destruct action; unfold qrCode_count; run_prisma.
  - destruct (negb (qrCodesPerMonth limits =? -1)); [|cbn; eauto].
    rewrite Hq.
    destruct (qrCodesPerMonth limits <=? nq); cbn; eauto.
  - destruct (apiCallsPerMonth limits =? 0); [cbn; eauto|].
    destruct (negb (apiCallsPerMonth limits =? -1)); [|cbn; eauto].
    rewrite Ha.
    destruct (apiCallsPerMonth limits <=? na); cbn; eauto.
  - destruct (dynamicQrCodes limits =? 0); [cbn; eauto|].
    destruct (negb (dynamicQrCodes limits =? -1)); [|cbn; eauto].
    match goal with
    | |- context [if ?c then _ else _] => destruct c
    end; cbn; eauto.
  - destruct (negb (logoUploads limits)); cbn; eauto.
Qed.

(** The reads of the subscription service, [getSubscriptionInfo],
    [getPlanLimits] and [canPerformAction], resolve on every store: the
    update inside the expiry of a trial finds its row. They write the
    subscription table only: the counters, the codes and the clock are as
    before. *)
Theorem subscription_reads_never_throw (w : World) (userId : string) :
  let untouched (w' : World) :=
    usageTrackings w' = usageTrackings w /\ qrCodes w' = qrCodes w
    /\ clock w' = clock w in
  (exists info, fst (getSubscriptionInfo userId w) = Ok info)
  /\ untouched (snd (getSubscriptionInfo userId w))
  /\ (exists limits, fst (getPlanLimits userId w) = Ok limits)
  /\ untouched (snd (getPlanLimits userId w))
  /\ forall action,
       (exists d, fst (canPerformAction userId action w) = Ok d)
       /\ untouched (snd (canPerformAction userId action w)).
Proof.
  cbv zeta.
  destruct (getSubscriptionInfo_ok w userId) as [l1 H1]; rewrite H1.
  destruct (getPlanLimits_ok w userId) as [l2 H2]; rewrite H2.
  cbn [fst snd usageTrackings qrCodes clock].
  split; [eauto|]. split; [auto|]. split; [eauto|]. split; [auto|].
  intros action; apply canPerformAction_frame.
Qed.

(** The decision of [canPerformAction] for a user who is not on an expired
    trial: both reads leave the store as it is, and the switch runs on the
    limits of the current plan. *)
Lemma canPerformAction_settled (w : World) (userId : string) (action : Action) :
  onExpiredTrial w userId = false ->
  canPerformAction userId action w
  = (Ok (let limits := limitsOf w userId in
         match action with
         | logo_upload =>
             if logoUploads limits then allow
             else deny "Logo uploads not available in your plan"
         | qr_generated =>
             if qrCodesPerMonth limits =? -1 then allow
             else if qrCodesPerMonth limits
                     <=? sumCounts (filter (inMonthOf (clock w) userId "QR_GENERATED")
                                      (usageTrackings w))
             then deny "Monthly QR code limit reached" else allow
         | api_call =>
             if apiCallsPerMonth limits =? 0
             then deny "API access not available in your plan"
             else if apiCallsPerMonth limits =? -1 then allow
             else if apiCallsPerMonth limits
                     <=? sumCounts (filter (inMonthOf (clock w) userId "API_CALL")
                                      (usageTrackings w))
             then deny "Monthly API call limit reached" else allow
         | dynamic_qr =>
             if dynamicQrCodes limits =? 0
             then deny "Dynamic QR codes not available in your plan"
             else if dynamicQrCodes limits =? -1 then allow
             else if dynamicQrCodes limits <=? activeDynamicCodes w userId
             then deny "Dynamic QR code limit reached" else allow
         end), w).
Proof.
  intros Ht; pose proof (onExpiredTrial_read w userId Ht) as Hr.
  unfold canPerformAction, bind.
  rewrite (getPlanLimits_pure w userId Hr); fold (limitsOf w userId).
  rewrite (getSubscriptionInfo_pure w userId Hr), (trial_check_off w userId Ht).
  cbv zeta; generalize (limitsOf w userId); intros limits.
  destruct action.
  - destruct (qrCodesPerMonth limits =? -1); cbn [negb]; [reflexivity|].
    rewrite getCurrentMonthlyUsage_sum.
    destruct (qrCodesPerMonth limits <=? _); reflexivity.
  - destruct (apiCallsPerMonth limits =? 0); [reflexivity|].
    destruct (apiCallsPerMonth limits =? -1); cbn [negb]; [reflexivity|].
    rewrite getCurrentMonthlyUsage_sum.
    destruct (apiCallsPerMonth limits <=? _); reflexivity.
  - destruct (dynamicQrCodes limits =? 0); [reflexivity|].
    destruct (dynamicQrCodes limits =? -1); cbn [negb]; [reflexivity|].
    unfold qrCode_count, activeDynamicCodes; run_prisma.
    destruct (dynamicQrCodes limits <=? _); reflexivity.
  - destruct (logoUploads limits); reflexivity.
Qed.

Lemma calendar_sum (w : World) (userId actionType : string) :
  dayBucketed w ->
  sumCounts (filter (inMonthOf (clock w) userId actionType) (usageTrackings w))
  = calendarMonthUsage w userId actionType.
Proof.
  intros Hb.
  pose proof (getCurrentMonthlyUsage_sum w userId actionType) as H1.
  rewrite (getCurrentMonthlyUsage_calendar w userId actionType Hb) in H1.
  congruence.
Qed.

(** [canPerformAction(user, 'dynamic_qr')] for a user who is not on an
    expired trial: a quota of 0 denies outright, a quota of -1 allows, and
    otherwise the count of the user's codes that are dynamic and active is
    compared with the quota: at the quota it denies, below it allows. The
    store is not written. *)
Theorem dynamic_qr_quota_boundary (w : World) (userId : string) :
  onExpiredTrial w userId = false ->
  let quota := dynamicQrCodes (limitsOf w userId) in
  let live := activeDynamicCodes w userId in
  (quota = 0 ->
   canPerformAction userId dynamic_qr w
   = (Ok (deny "Dynamic QR codes not available in your plan"), w))
  /\ (quota = -1 -> canPerformAction userId dynamic_qr w = (Ok allow, w))
  /\ (quota <> 0 -> quota <> -1 -> quota <= live ->
      canPerformAction userId dynamic_qr w
      = (Ok (deny "Dynamic QR code limit reached"), w))
  /\ (live < quota -> canPerformAction userId dynamic_qr w = (Ok allow, w)).
Proof.
  intros Ht quota live.
  rewrite (canPerformAction_settled w userId dynamic_qr Ht); cbv zeta.
  fold quota live.
  assert (Hlive : 0 <= live) by (unfold live, activeDynamicCodes; lia).
  clearbody quota live.
  repeat split.
  - intros ->; reflexivity.
  - intros ->; reflexivity.
  - intros H0 H1 Hle.
    apply Z.eqb_neq in H0, H1; apply Z.leb_le in Hle; rewrite H0, H1, Hle; reflexivity.
  - intros Hlt.
    destruct (Z.eqb_spec quota 0); [lia|].
    destruct (Z.eqb_spec quota (-1)); [reflexivity|].
    destruct (Z.leb_spec quota live); [lia|reflexivity].
Qed.

(** [canPerformAction(user, 'api_call')] for a user who is not on an
    expired trial, over counters dated at midnight: a quota of 0 denies
    outright, a quota of -1 allows, and otherwise the API_CALL usage of the
    calendar month is compared with the quota: at the quota it denies, below
    it allows. The store is not written. *)
Theorem api_call_quota_boundary (w : World) (userId : string) :
  onExpiredTrial w userId = false ->
  dayBucketed w ->
  let quota := apiCallsPerMonth (limitsOf w userId) in
  let usage := calendarMonthUsage w userId "API_CALL" in
  (quota = 0 ->
   canPerformAction userId api_call w
   = (Ok (deny "API access not available in your plan"), w))
  /\ (quota = -1 -> canPerformAction userId api_call w = (Ok allow, w))
  /\ (quota <> 0 -> quota <> -1 -> quota <= usage ->
      canPerformAction userId api_call w
      = (Ok (deny "Monthly API call limit reached"), w))
  /\ (quota <> 0 -> usage < quota -> canPerformAction userId api_call w = (Ok allow, w)).
Proof.
  intros Ht Hb quota usage.
  rewrite (canPerformAction_settled w userId api_call Ht); cbv zeta.
  rewrite (calendar_sum w userId "API_CALL" Hb).
  fold quota usage; clearbody quota usage.
  repeat split.
  - intros ->; reflexivity.
  - intros ->; reflexivity.
  - intros H0 H1 Hle.
    apply Z.eqb_neq in H0, H1; apply Z.leb_le in Hle; rewrite H0, H1, Hle; reflexivity.
  - intros H0 Hlt.
    destruct (Z.eqb_spec quota 0); [lia|].
    destruct (Z.eqb_spec quota (-1)); [reflexivity|].
    destruct (Z.leb_spec quota usage); [lia|reflexivity].
Qed.

(** On the free plan, and without any subscription, API calls and
    dynamic codes are denied whatever the counters hold. *)
Theorem free_plan_has_no_api_nor_dynamic_codes
  (w : World) (userId : string) :
  match currentSubscription w userId with
  | Some s => sub_planType s = FREE
  | None => True
  end ->
  canPerformAction userId api_call w
  = (Ok (deny "API access not available in your plan"), w)
  /\ canPerformAction userId dynamic_qr w
     = (Ok (deny "Dynamic QR codes not available in your plan"), w).
Proof.
  intros Hfree.
  assert (Ht : onExpiredTrial w userId = false).
  { unfold onExpiredTrial; destruct (currentSubscription w userId) as [s|];
      [rewrite Hfree|]; reflexivity. }
  assert (Hl : limitsOf w userId = PLAN_LIMITS FREE).
  { unfold limitsOf; destruct (currentSubscription w userId) as [s|];
      [rewrite Hfree|]; reflexivity. }
  rewrite !(canPerformAction_settled w userId _ Ht), Hl; split; reflexivity.
Qed.

(** On the PRO and BUSINESS plans, generating a code and uploading a logo
    are allowed whatever the counters hold. *)
Theorem paid_plans_generate_without_limit
  (w : World) (userId : string) (s : Subscription) :
  currentSubscription w userId = Some s ->
  sub_planType s = PRO \/ sub_planType s = BUSINESS ->
  canPerformAction userId qr_generated w = (Ok allow, w)
  /\ canPerformAction userId logo_upload w = (Ok allow, w).
Proof.
  intros Hs Hp.
  assert (Ht : onExpiredTrial w userId = false).
  { unfold onExpiredTrial; rewrite Hs; destruct Hp as [-> | ->]; reflexivity. }
  rewrite !(canPerformAction_settled w userId _ Ht).
  unfold limitsOf; rewrite Hs; destruct Hp as [-> | ->]; split; reflexivity.
Qed.

Lemma dynamic_qr_quota_boundary_witness :
  canPerformAction "grace" dynamic_qr (gracePro 50 0)
  = (Ok (deny "Dynamic QR code limit reached"), gracePro 50 0)
  /\ canPerformAction "grace" dynamic_qr (gracePro 49 0) = (Ok allow, gracePro 49 0).
Proof.
  split.
  - apply (dynamic_qr_quota_boundary (gracePro 50 0) "grace" eq_refl);
      [discriminate|discriminate|vm_compute; discriminate].
  - apply (dynamic_qr_quota_boundary (gracePro 49 0) "grace" eq_refl); reflexivity.
Defined.

Lemma api_call_quota_boundary_witness :
  canPerformAction "grace" api_call (gracePro 0 10000)
  = (Ok (deny "Monthly API call limit reached"), gracePro 0 10000)
  /\ canPerformAction "grace" api_call (gracePro 0 9999) = (Ok allow, gracePro 0 9999).
Proof.
  split.
  - apply (api_call_quota_boundary (gracePro 0 10000) "grace" eq_refl);
      [repeat constructor|discriminate|discriminate|vm_compute; discriminate].
  - apply (api_call_quota_boundary (gracePro 0 9999) "grace" eq_refl);
      [repeat constructor|discriminate|reflexivity].
Defined.

Lemma free_plan_has_no_api_nor_dynamic_codes_witness :
  canPerformAction "bob" api_call (bobFree 0)
  = (Ok (deny "API access not available in your plan"), bobFree 0)
  /\ canPerformAction "bob" dynamic_qr (bobFree 0)
     = (Ok (deny "Dynamic QR codes not available in your plan"), bobFree 0).
Proof.
  apply (free_plan_has_no_api_nor_dynamic_codes (bobFree 0) "bob"); reflexivity.
Defined.

Lemma paid_plans_generate_without_limit_witness :
  canPerformAction "grace" qr_generated (gracePro 0 0) = (Ok allow, gracePro 0 0)
  /\ canPerformAction "grace" logo_upload (gracePro 0 0) = (Ok allow, gracePro 0 0).
Proof.
  apply (paid_plans_generate_without_limit (gracePro 0 0) "grace"
           (subscriptionRow 1 "grace" PRO ACTIVE None None march1));
    [reflexivity|left; reflexivity].
Defined.

(** ** Upgrades *)

Lemma newest_singleton (s : Subscription) : newest [s] = Some s.
Proof. reflexivity. Qed.

Lemma setStatus_user (st : SubscriptionStatus) (s : Subscription) :
  sub_userId (setStatus st s) = sub_userId s.
Proof. reflexivity. Qed.

(** After the rows a user holds in a current status are canceled, the user
    holds none. *)
Lemma canceled_none_current (userId : string) (l : list Subscription) :
  filter (isCurrentOf userId)
    (map (fun s => if isCurrentOf userId s then setStatus CANCELED s else s) l) = [].
Proof.
  induction l as [|a r IH]; [reflexivity|].
  cbn [map filter].
  destruct (isCurrentOf userId a) eqn:E.
  - unfold isCurrentOf at 1; cbn [setStatus sub_userId sub_status isCurrentStatus].
    rewrite andb_false_r; exact IH.
  - rewrite E; exact IH.
Qed.

(** Rows of other users go through [updateMany] on a user's rows as they
    are. *)
Lemma canceled_others (userId other : string) (l : list Subscription) :
  other <> userId ->
  rowsOf other
    (map (fun s => if isCurrentOf userId s then setStatus CANCELED s else s) l)
  = rowsOf other l.
Proof.
  intros Hne; unfold rowsOf; induction l as [|a r IH]; [reflexivity|].
  cbn [map filter].
  destruct (isCurrentOf userId a) eqn:E.
  - unfold isCurrentOf in E; apply andb_true_iff in E; destruct E as [E _].
    apply String.eqb_eq in E.
    rewrite setStatus_user, E.
    assert (Hoff : String.eqb userId other = false) by (apply String.eqb_neq; congruence).
    rewrite Hoff; exact IH.
  - destruct (String.eqb (sub_userId a) other); [rewrite IH|]; auto.
Qed.

Lemma NoDup_snoc_fresh (l : list Subscription) (row : Subscription) :
  NoDup (map sub_id l) -> sub_id row = freshId l ->
  NoDup (map sub_id (l ++ [row])).
Proof.
  intros Hnd Hid; rewrite map_app; cbn [map].
  apply NoDup_app; [exact Hnd|repeat constructor; intros []|].
  intros k Hin [Hk|[]]; subst k; rewrite Hid in Hin.
  exact (freshId_fresh l Hin).
Qed.

Lemma map_id_status (p : Subscription -> bool) (st : SubscriptionStatus)
  (l : list Subscription) :
  map sub_id (map (fun s => if p s then setStatus st s else s) l) = map sub_id l.
Proof.
  rewrite map_map; apply map_ext; intros s; destruct (p s); reflexivity.
Qed.

(** The length of the month of index [i]. *)
Lemma month_length (i : Z) : 28 <= firstDay (i + 1) - firstDay i <= 31.
Proof.
  assert (Hi : i = 12 * ((i - 2) / 12) + (i - 2) mod 12 + 2) by lia_div.
  assert (Hk : 0 <= (i - 2) mod 12 <= 11) by lia_div.
  revert Hi Hk; generalize ((i - 2) / 12) ((i - 2) mod 12); intros Y k -> Hk.
  rewrite (firstDay_from_march Y k Hk).
  destruct (Z_le_gt_dec k 10) as [H10|H10].
  - replace (12 * Y + k + 2 + 1) with (12 * Y + (k + 1) + 2) by ring.
    rewrite (firstDay_from_march Y (k + 1)) by lia.
    lia_div.
  - replace (12 * Y + k + 2 + 1) with (12 * (Y + 1) + 0 + 2) by lia.
    rewrite (firstDay_from_march (Y + 1) 0) by lia.
    pose proof (daysBeforeYear_step Y) as Hs.
    replace k with 11 by lia.
    change ((153 * 11 + 2) / 5) with 337; change ((153 * 0 + 2) / 5) with 0; lia.
Qed.

(** The day of the month counts from the first day of the month. *)
Lemma getDate_firstDay (t : Z) :
  getDate t = t / msPerDay - firstDay (monthIndex (t / msPerDay)) + 1.
Proof.
  unfold getDate, monthIndex.
  destruct (civil_from_days_march (t / msPerDay))
    as [Y [doy [mp [-> [Hmp [Hdoy [Hz Hnext]]]]]]].
  cbn [snd].
  assert (Hdoy' : doy <= 365) by (pose proof (daysBeforeYear_step Y); lia).
  assert (Hmp' : 0 <= mp <= 11) by (subst mp; lia_div).
  assert (Hidx : 12 * (if (if mp <? 10 then mp + 3 else mp - 9) <=? 2 then Y + 1 else Y)
                 + ((if mp <? 10 then mp + 3 else mp - 9) - 1)
                 = 12 * Y + mp + 2).
  { destruct (Z.ltb_spec mp 10).
    - destruct (Z.leb_spec (mp + 3) 2); lia.
    - destruct (Z.leb_spec (mp - 9) 2); lia. }
  rewrite Hidx, (firstDay_from_march Y mp Hmp'); lia.
Qed.

(** [new Date(now.getFullYear(), now.getMonth() + 1, now.getDate())]. *)
Lemma nextMonth_firstDay (t : Z) :
  mkDate (getFullYear t) (getMonth t + 1) (getDate t)
  = (firstDay (monthIndex (t / msPerDay) + 1)
     + (t / msPerDay - firstDay (monthIndex (t / msPerDay)))) * msPerDay.
Proof.
  rewrite getDate_firstDay.
  destruct (monthIndex_date t) as [Hm Hidx]; rewrite Hidx; unfold mkDate, firstDay.
  replace (12 * getFullYear t + getMonth t + 1)
    with (getMonth t + 1 + getFullYear t * 12) by ring.
  rewrite Z.div_add, Z.mod_add by lia.
  rewrite (Z.add_comm (getFullYear t) ((getMonth t + 1) / 12)).
  f_equal; lia.
Qed.

(** The end of the billing period: midnight, 27 to 31 days ahead. *)
Lemma nextMonth_ahead (t : Z) :
  let nextMonth := mkDate (getFullYear t) (getMonth t + 1) (getDate t) in
  nextMonth mod msPerDay = 0
  /\ 27 * msPerDay < nextMonth - t <= 31 * msPerDay.
Proof.
  cbv zeta; rewrite nextMonth_firstDay.
  pose proof (month_length (monthIndex (t / msPerDay))) as Hlen.
  revert Hlen.
  generalize (firstDay (monthIndex (t / msPerDay) + 1))
             (firstDay (monthIndex (t / msPerDay))); intros b a Hlen.
  split; [apply Z.mod_mul; unfold msPerDay; lia|].
  unfold msPerDay in *; lia_div.
Qed.

Lemma upgradeSubscription_run (w : World) (userId : string) (newPlanType : PlanType)
  (stripeSubscriptionId stripeCustomerId : option string) :
  let canceled :=
    map (fun s => if isCurrentOf userId s then setStatus CANCELED s else s)
      (subscriptions w) in
  let row :=
    {| sub_id := freshId canceled; sub_userId := userId;
       sub_planType := newPlanType; sub_status := ACTIVE;
       sub_trialStart := None; sub_trialEnd := None;
       sub_stripeSubscriptionId := stripeSubscriptionId;
       sub_stripeCustomerId := stripeCustomerId;
       sub_currentPeriodStart := Some (clock w);
       sub_currentPeriodEnd :=
         Some (mkDate (getFullYear (clock w)) (getMonth (clock w) + 1)
                 (getDate (clock w)));
       sub_createdAt := clock w |} in
  upgradeSubscription userId newPlanType stripeSubscriptionId stripeCustomerId w
  = (Ok row, {| subscriptions := canceled ++ [row];
                usageTrackings := usageTrackings w;
                qrCodes := qrCodes w; clock := clock w |}).
Proof. reflexivity. Qed.

(** [upgradeSubscription] returns a new row of the user, ACTIVE, on the
    plan asked for; afterwards that row is the only one the user holds in a
    current status, it is the one [getSubscriptionInfo] reads, the limits
    are those of the new plan, and the rows of every other user are as they
    were. *)
Theorem upgrade_leaves_one_current_subscription
  (w : World) (userId : string) (newPlanType : PlanType)
  (stripeSubscriptionId stripeCustomerId : option string) :
  let run := upgradeSubscription userId newPlanType
               stripeSubscriptionId stripeCustomerId w in
  exists row,
    fst run = Ok row
    /\ sub_userId row = userId
    /\ sub_planType row = newPlanType
    /\ sub_status row = ACTIVE
    /\ filter (isCurrentOf userId) (subscriptions (snd run)) = [row]
    /\ currentSubscription (snd run) userId = Some row
    /\ getPlanLimits userId (snd run) = (Ok (PLAN_LIMITS newPlanType), snd run)
    /\ (forall other, other <> userId ->
          rowsOf other (subscriptions (snd run)) = rowsOf other (subscriptions w))
    /\ usageTrackings (snd run) = usageTrackings w
    /\ qrCodes (snd run) = qrCodes w.
Proof.
  cbv zeta; rewrite upgradeSubscription_run; cbv zeta; cbn [fst snd].
  eexists; split; [reflexivity|].
  cbn [sub_userId sub_planType sub_status subscriptions usageTrackings qrCodes].
  assert (Hcur : forall row, sub_userId row = userId -> sub_status row = ACTIVE ->
            filter (isCurrentOf userId)
              (map (fun s => if isCurrentOf userId s then setStatus CANCELED s else s)
                 (subscriptions w) ++ [row]) = [row]).
  { intros row Hu Hs; rewrite filter_app, canceled_none_current; cbn [filter app].
    unfold isCurrentOf; rewrite Hu, Hs, String.eqb_refl; reflexivity. }
  repeat split.
  - apply Hcur; reflexivity.
  - unfold currentSubscription; cbn [subscriptions].
    rewrite Hcur by reflexivity; reflexivity.
  - rewrite getPlanLimits_pure.
    + unfold currentSubscription; cbn [subscriptions].
      rewrite Hcur by reflexivity; reflexivity.
    + unfold expiresOnRead, currentSubscription; cbn [subscriptions].
      rewrite Hcur by reflexivity; cbn [newest sub_planType sub_trialEnd].
      rewrite andb_false_r; reflexivity.
  - intros other Hne; unfold rowsOf; rewrite filter_app.
    fold (rowsOf other (map (fun s => if isCurrentOf userId s then setStatus CANCELED s else s)
                          (subscriptions w))).
    rewrite (canceled_others userId other _ Hne); cbn [filter sub_userId].
    assert (Hoff : String.eqb userId other = false) by (apply String.eqb_neq; congruence).
    rewrite Hoff; apply app_nil_r.
Qed.

(** [upgradeSubscription] keeps the history and the keys: every earlier
    row stays under its key, the new row has a key no earlier row has, and
    its billing period starts now and ends at midnight, more than 27 and at
    most 31 days later. *)
Theorem upgrade_keeps_history_and_sets_period
  (w : World) (userId : string) (newPlanType : PlanType)
  (stripeSubscriptionId stripeCustomerId : option string) (row : Subscription) :
  NoDup (map sub_id (subscriptions w)) ->
  fst (upgradeSubscription userId newPlanType
         stripeSubscriptionId stripeCustomerId w) = Ok row ->
  let w' := snd (upgradeSubscription userId newPlanType
                   stripeSubscriptionId stripeCustomerId w) in
  NoDup (map sub_id (subscriptions w'))
  /\ map sub_id (subscriptions w') = map sub_id (subscriptions w) ++ [sub_id row]
  /\ ~ In (sub_id row) (map sub_id (subscriptions w))
  /\ sub_currentPeriodStart row = Some (clock w)
  /\ exists periodEnd,
       sub_currentPeriodEnd row = Some periodEnd
       /\ periodEnd mod msPerDay = 0
       /\ 27 * msPerDay < periodEnd - clock w <= 31 * msPerDay.
Proof.
  intros Hnd; cbv zeta; rewrite upgradeSubscription_run; cbv zeta; cbn [fst snd].
  intros Hrow; injection Hrow as <-.
  cbn [subscriptions sub_id sub_currentPeriodStart sub_currentPeriodEnd].
  rewrite freshId_map by (intros r; destruct (isCurrentOf userId r); reflexivity).
  rewrite map_app, map_id_status; cbn [map sub_id].
  repeat split.
  - apply NoDup_app; [exact Hnd|repeat constructor; intros []|].
    intros k Hin [Hk|[]]; subst k; exact (freshId_fresh _ Hin).
  - apply freshId_fresh.
  - eexists; split; [reflexivity|]. apply nextMonth_ahead.
Qed.

Lemma upgrade_keeps_history_and_sets_period_witness :
  exists row,
    fst (upgradeSubscription "bob" PRO (Some "sub_1") (Some "cus_1") (bobFree 0)) = Ok row
    /\ sub_currentPeriodStart row = Some march15noon
    /\ exists periodEnd,
         sub_currentPeriodEnd row = Some periodEnd
         /\ periodEnd mod msPerDay = 0
         /\ 27 * msPerDay < periodEnd - march15noon <= 31 * msPerDay.
Proof.
  eexists; split; [reflexivity|].
  apply (upgrade_keeps_history_and_sets_period (bobFree 0) "bob" PRO
           (Some "sub_1") (Some "cus_1")).
  - repeat constructor; simpl; tauto.
  - reflexivity.
Defined.

(** ** The sweep of the expired trials *)

Lemma freshId_snoc (l : list Subscription) (row : Subscription) :
  sub_id row = freshId l -> freshId (l ++ [row]) = S (freshId l).
Proof.
  intros Hid; unfold freshId in *; f_equal.
  rewrite map_app; cbn [map]; rewrite Hid.
  generalize (map sub_id l); intros ids.
  assert (Hmax : forall x, fold_right Nat.max 0%nat (ids ++ [x])
                           = Nat.max (fold_right Nat.max 0%nat ids) x).
  { intros x; induction ids as [|a r IH]; cbn [app fold_right]; [lia|].
    rewrite IH; lia. }
  rewrite Hmax; lia.
Qed.

Lemma same_id_same_row (l : list Subscription) (r t : Subscription) :
  NoDup (map sub_id l) -> In r l -> In t l -> sub_id r = sub_id t -> r = t.
Proof.
  intros Hnd Hr Ht Hid.
  pose proof (find_by_id l r Hnd Hr) as H1.
  pose proof (find_by_id l t Hnd Ht) as H2.
  rewrite Hid in H1; congruence.
Qed.

(** The loop of [processExpiredTrials] over rows of the table with distinct
    keys: each is marked EXPIRED and one free row is appended for each. *)
Lemma expireAll_run (trials : list Subscription) :
  forall w,
    NoDup (map sub_id (subscriptions w)) ->
    NoDup (map sub_id trials) ->
    (forall t, In t trials -> In t (subscriptions w)) ->
    expireAll trials w
    = (Ok tt,
       {| subscriptions :=
            map (fun r =>
                   if existsb (fun t => Nat.eqb (sub_id r) (sub_id t)) trials
                   then setStatus EXPIRED r else r) (subscriptions w)
            ++ freeRows (freshId (subscriptions w)) (clock w) trials;
          usageTrackings := usageTrackings w;
          qrCodes := qrCodes w;
          clock := clock w |}).
Proof.
  induction trials as [|t rest IH]; intros w Hnd Hts Hin.
  - cbn [expireAll existsb freeRows]; unfold ret.
    rewrite map_id, app_nil_r; destruct w; reflexivity.
  - cbn [expireAll]; unfold bind at 1.
    rewrite (expireTrial_run w t Hnd (Hin t (or_introl eq_refl))).
    inversion Hts as [|? ? Hnot Hts']; subst.
    assert (Hkeep : forall t', In t' rest -> Nat.eqb (sub_id t') (sub_id t) = false).
    { intros t' Ht'; apply Nat.eqb_neq; intros Heq; apply Hnot.
      rewrite <- Heq; apply in_map; exact Ht'. }
    rewrite IH; cbn [afterExpiry subscriptions usageTrackings qrCodes clock].
    + f_equal; f_equal.
      rewrite freshId_snoc
        by (rewrite freshId_map; [reflexivity|];
            intros r; destruct (Nat.eqb (sub_id r) (sub_id t)); reflexivity).
      rewrite freshId_map
        by (intros r; destruct (Nat.eqb (sub_id r) (sub_id t)); reflexivity).
      rewrite map_app, map_map, <- app_assoc; cbn [map freeRows app].
      f_equal.
      * apply map_ext; intros r; cbn [existsb].
        destruct (Nat.eqb (sub_id r) (sub_id t)) eqn:E; cbn [orb setStatus sub_id].
        -- assert (Hnone : existsb (fun t0 => Nat.eqb (sub_id r) (sub_id t0)) rest = false).
           { destruct (existsb _ rest) eqn:Ex; [|reflexivity].
             apply existsb_exists in Ex; destruct Ex as [t' [Ht' Hid]].
             apply Nat.eqb_eq in E, Hid.
             pose proof (Hkeep t' Ht') as Hk; apply Nat.eqb_neq in Hk; congruence. }
           rewrite Hnone; reflexivity.
        -- reflexivity.
      * f_equal.
        assert (Hnone : existsb (fun t0 => Nat.eqb (freshId (subscriptions w)) (sub_id t0)) rest
                        = false).
        { destruct (existsb _ rest) eqn:Ex; [|reflexivity].
          apply existsb_exists in Ex; destruct Ex as [t' [Ht' Hid]].
          apply Nat.eqb_eq in Hid.
          exfalso; apply (freshId_fresh (subscriptions w)); rewrite Hid.
          apply in_map, Hin; right; exact Ht'. }
        cbn [subscriptionRow sub_id]; rewrite Hnone; reflexivity.
    + rewrite map_app; cbn [map subscriptionRow sub_id].
      rewrite map_id_status.
      apply NoDup_app; [exact Hnd|repeat constructor; intros []|].
      intros k Hk [Hk'|[]]; subst k; exact (freshId_fresh _ Hk).
    + exact Hts'.
    + intros t' Ht'; apply in_or_app; left.
      apply in_map_iff; exists t'; rewrite (Hkeep t' Ht'); split; [reflexivity|].
      apply Hin; right; exact Ht'.
Qed.

Lemma processExpiredTrials_run (w : World) :
  NoDup (map sub_id (subscriptions w)) ->
  processExpiredTrials w
  = (Ok tt,
     {| subscriptions :=
          map (fun r => if lapsedTrial (clock w) r then setStatus EXPIRED r else r)
            (subscriptions w)
          ++ freeRows (freshId (subscriptions w)) (clock w)
               (filter (lapsedTrial (clock w)) (subscriptions w));
        usageTrackings := usageTrackings w;
        qrCodes := qrCodes w;
        clock := clock w |}).
Proof.
  intros Hnd.
  unfold processExpiredTrials, subscription_findMany; run_prisma.
  change (fun s : Subscription =>
            plan_eqb (sub_planType s) TRIAL && status_eqb (sub_status s) TRIALING
            && match sub_trialEnd s with
               | Some e => e <? clock w
               | None => false
               end) with (lapsedTrial (clock w)).
  rewrite expireAll_run.
  - f_equal; f_equal; f_equal.
    apply map_ext_in; intros r Hr.
    destruct (lapsedTrial (clock w) r) eqn:El.
    + assert (Hex : existsb (fun t => Nat.eqb (sub_id r) (sub_id t))
                      (filter (lapsedTrial (clock w)) (subscriptions w)) = true).
      { apply existsb_exists; exists r; split; [|apply Nat.eqb_refl].
        apply filter_In; auto. }
      rewrite Hex; reflexivity.
    + destruct (existsb _ (filter (lapsedTrial (clock w)) (subscriptions w))) eqn:Ex;
        [|reflexivity].
      apply existsb_exists in Ex; destruct Ex as [t [Ht Hid]].
      apply filter_In in Ht; destruct Ht as [Ht Hl]; apply Nat.eqb_eq in Hid.
      rewrite (same_id_same_row _ r t Hnd Hr Ht Hid) in El; congruence.
  - exact Hnd.
  - clear - Hnd; induction (subscriptions w) as [|a r IH]; [constructor|].
    inversion Hnd as [|? ? Hnot Hnd']; subst.
    cbn [filter]; destruct (lapsedTrial (clock w) a); [|apply IH; exact Hnd'].
    cbn [map]; constructor; [|apply IH; exact Hnd'].
    intros Hin; apply Hnot.
    apply in_map_iff in Hin; destruct Hin as [x [Hx Hin]].
    apply filter_In in Hin; destruct Hin as [Hin _].
    rewrite <- Hx; apply in_map; exact Hin.
  - intros t Ht; apply filter_In in Ht; tauto.
Qed.

Lemma freeRows_for (id : nat) (now : Z) (trials : list Subscription) (t : Subscription) :
  In t trials ->
  exists f, In f (freeRows id now trials)
            /\ sub_userId f = sub_userId t /\ sub_planType f = FREE
            /\ sub_status f = ACTIVE /\ (id <= sub_id f)%nat.
Proof.
  revert id; induction trials as [|a rest IH]; intros id Hin; [destruct Hin|].
  destruct Hin as [->|Hin].
  - eexists; split; [left; reflexivity|]. cbn; repeat split; lia.
  - destruct (IH (S id) Hin) as [f [Hf [Hu [Hp [Hs Hid]]]]].
    exists f; split; [right; exact Hf|]. repeat split; auto; lia.
Qed.

Lemma freeRows_length (id : nat) (now : Z) (trials : list Subscription) :
  List.length (freeRows id now trials) = List.length trials.
Proof.
  revert id; induction trials as [|a rest IH]; intros id; [reflexivity|].
  cbn [freeRows List.length]; rewrite IH; reflexivity.
Qed.

Lemma marked_none_lapsed (now : Z) (l : list Subscription) :
  filter (lapsedTrial now)
    (map (fun r => if lapsedTrial now r then setStatus EXPIRED r else r) l) = [].
Proof.
  induction l as [|a r IH]; [reflexivity|].
  cbn [map filter]; destruct (lapsedTrial now a) eqn:E.
  - unfold lapsedTrial at 1; cbn [setStatus sub_planType sub_status status_eqb].
    rewrite andb_false_r; cbn [andb]; exact IH.
  - rewrite E; exact IH.
Qed.

Lemma freeRows_none_lapsed (now : Z) (id : nat) (created : Z)
  (trials : list Subscription) :
  filter (lapsedTrial now) (freeRows id created trials) = [].
Proof.
  revert id; induction trials as [|a r IH]; intros id; [reflexivity|].
  cbn [freeRows filter]; unfold lapsedTrial at 1; cbn; apply IH.
Qed.

(** [processExpiredTrials] over a table with distinct keys resolves;
    afterwards no row is a TRIAL in status TRIALING that ended before now,
    each such row is EXPIRED and its user has a new FREE row in status
    ACTIVE, every other row is as it was, one row was added per trial, and
    running it again changes nothing. *)
Theorem processExpiredTrials_downgrades_lapsed_trials (w : World) :
  NoDup (map sub_id (subscriptions w)) ->
  let w' := snd (processExpiredTrials w) in
  fst (processExpiredTrials w) = Ok tt
  /\ filter (lapsedTrial (clock w)) (subscriptions w') = []
  /\ (forall t, In t (subscriptions w) -> lapsedTrial (clock w) t = true ->
        In (setStatus EXPIRED t) (subscriptions w')
        /\ exists free,
             In free (subscriptions w')
             /\ ~ In (sub_id free) (map sub_id (subscriptions w))
             /\ sub_userId free = sub_userId t
             /\ sub_planType free = FREE
             /\ sub_status free = ACTIVE)
  /\ (forall r, In r (subscriptions w) -> lapsedTrial (clock w) r = false ->
        In r (subscriptions w'))
  /\ List.length (subscriptions w')
     = (List.length (subscriptions w)
        + List.length (filter (lapsedTrial (clock w)) (subscriptions w)))%nat
  /\ processExpiredTrials w' = (Ok tt, w').
Proof.
  intros Hnd; cbv zeta.
  rewrite (processExpiredTrials_run w Hnd); cbn [fst snd subscriptions].
  set (marked := map (fun r => if lapsedTrial (clock w) r then setStatus EXPIRED r else r)
                   (subscriptions w)).
  set (added := freeRows (freshId (subscriptions w)) (clock w)
                  (filter (lapsedTrial (clock w)) (subscriptions w))).
  assert (Hnone : filter (lapsedTrial (clock w)) (marked ++ added) = []).
  { subst marked added.
    rewrite filter_app, marked_none_lapsed, freeRows_none_lapsed; reflexivity. }
  split; [reflexivity|]. split; [exact Hnone|].
  split; [|split; [|split]].
  - intros t Ht Hl; split.
    + apply in_or_app; left; subst marked.
      apply in_map_iff; exists t; rewrite Hl; auto.
    + destruct (freeRows_for (freshId (subscriptions w)) (clock w)
                  (filter (lapsedTrial (clock w)) (subscriptions w)) t)
        as [f [Hf [Hu [Hp [Hs Hid]]]]]; [apply filter_In; auto|].
      exists f; split; [apply in_or_app; right; exact Hf|].
      repeat split; auto.
      intros Hin; apply in_map_iff in Hin; destruct Hin as [x [Hx Hin]].
      apply id_le_max in Hin; unfold freshId in Hid; lia.
  - intros r Hr Hl; apply in_or_app; left; subst marked.
    apply in_map_iff; exists r; rewrite Hl; auto.
  - subst marked added.
    rewrite length_app, length_map, freeRows_length; reflexivity.
  - unfold processExpiredTrials, subscription_findMany; run_prisma.
    cbn [subscriptions clock].
    change (fun s : Subscription =>
              plan_eqb (sub_planType s) TRIAL && status_eqb (sub_status s) TRIALING
              && match sub_trialEnd s with
                 | Some e => e <? clock w
                 | None => false
                 end) with (lapsedTrial (clock w)).
    rewrite Hnone; reflexivity.
Qed.

Lemma processExpiredTrials_downgrades_lapsed_trials_witness :
  fst (processExpiredTrials aliceAfterTrial) = Ok tt
  /\ filter (lapsedTrial (clock aliceAfterTrial))
       (subscriptions (snd (processExpiredTrials aliceAfterTrial))) = [].
Proof.
  destruct (processExpiredTrials_downgrades_lapsed_trials aliceAfterTrial)
    as [Hok [Hnone _]]; [repeat constructor; simpl; tauto|].
  split; [exact Hok|exact Hnone].
Defined.

(** ** The life of a trial *)

(** The remaining days are the days still to come, a started day counting
    as a whole one. *)
Lemma daysLeft_ceiling (trialEnd now k : Z) :
  0 < k ->
  (daysLeft trialEnd now = k
   <-> (k - 1) * msPerDay < trialEnd - now <= k * msPerDay).
Proof.
  intros Hk; unfold daysLeft, ceilDiv, msPerDay.
  generalize (trialEnd - now); intros d.
  split; intros H; lia_div.
Qed.

Lemma daysLeft_zero (trialEnd now : Z) :
  daysLeft trialEnd now = 0 <-> trialEnd <= now.
Proof.
  split; [|apply daysLeft_past].
  intros H; destruct (Z_le_gt_dec trialEnd now) as [Hle|Hgt]; [exact Hle|].
  pose proof (daysLeft_future trialEnd now ltac:(lia)); lia.
Qed.





(** The days left of a trial round up: while the end of the trial is
    ahead, [getSubscriptionInfo] reports an active trial and a number of
    days [d >= 1] with the time left in [(d - 1, d]] days. *)
Theorem trial_days_left_round_up
  (w : World) (userId : string) (s : Subscription) (trialEnd : Z) :
  currentSubscription w userId = Some s ->
  sub_planType s = TRIAL ->
  sub_trialEnd s = Some trialEnd ->
  clock w < trialEnd ->
  exists info,
    getSubscriptionInfo userId w = (Ok (Some info), w)
    /\ isTrialActive info = true
    /\ 1 <= trialDaysLeft info
    /\ (trialDaysLeft info - 1) * msPerDay < trialEnd - clock w
       <= trialDaysLeft info * msPerDay.
Proof.
  intros Hs Hp He Hlt.
  pose proof (daysLeft_future trialEnd (clock w) Hlt) as Hpos.
  assert (Hr : expiresOnRead w userId = false).
  { unfold expiresOnRead; rewrite Hs, Hp, He; cbn [plan_eqb andb].
    destruct (Z.eqb_spec (daysLeft trialEnd (clock w)) 0); [lia|reflexivity]. }
  rewrite (getSubscriptionInfo_pure w userId Hr), Hs; cbn [option_map].
  eexists; split; [reflexivity|].
  unfold infoOf, remainingTrialDays; rewrite Hp, He; cbn [isTrialActive trialDaysLeft].
  split; [apply Z.ltb_lt; exact Hpos|]. split; [lia|].
  apply (daysLeft_ceiling trialEnd (clock w) (daysLeft trialEnd (clock w)) Hpos).
  reflexivity.
Qed.

Lemma trial_days_left_round_up_witness :
  exists info,
    getSubscriptionInfo "alice" (atTime aliceAfterTrial (march1 + msPerDay + 1))
    = (Ok (Some info), atTime aliceAfterTrial (march1 + msPerDay + 1))
    /\ isTrialActive info = true
    /\ 1 <= trialDaysLeft info
    /\ (trialDaysLeft info - 1) * msPerDay
       < march1 + 14 * msPerDay - (march1 + msPerDay + 1)
       <= trialDaysLeft info * msPerDay.
Proof.
  apply (trial_days_left_round_up (atTime aliceAfterTrial (march1 + msPerDay + 1))
           "alice" aliceTrial (march1 + 14 * msPerDay));
    reflexivity.
Defined.

(** A row appended with the greatest [createdAt] is the newest. *)
Lemma newest_snoc (l : list Subscription) (x : Subscription) :
  Forall (fun r => sub_createdAt r < sub_createdAt x) l ->
  newest (l ++ [x]) = Some x.
Proof.
  induction l as [|a r IH]; intros H; [reflexivity|].
  inversion H as [|? ? Ha Hr]; subst.
  cbn [app newest]; rewrite (IH Hr).
  apply Z.ltb_lt in Ha; rewrite Ha; reflexivity.
Qed.

(** After a read expired a trial, the user reads as free: over a table
    with distinct keys whose rows were inserted before now, the next
    [getSubscriptionInfo] reports the FREE plan in status ACTIVE, the limits
    are the FREE ones, and that read writes nothing. *)
Theorem expired_trial_reads_as_free_afterwards
  (w : World) (userId : string) :
  NoDup (map sub_id (subscriptions w)) ->
  createdInThePast w ->
  expiresOnRead w userId = true ->
  let w' := snd (getSubscriptionInfo userId w) in
  getSubscriptionInfo userId w'
  = (Ok (Some {| info_planType := FREE; info_status := ACTIVE;
                 trialDaysLeft := 0; isTrialActive := false;
                 info_currentPeriodEnd := None |}), w')
  /\ getPlanLimits userId w' = (Ok (PLAN_LIMITS FREE), w')
  /\ expiresOnRead w' userId = false.
Proof.
  intros Hnd Hpast Hex; cbv zeta.
  unfold expiresOnRead in Hex.
  destruct (currentSubscription w userId) as [s|] eqn:Hs; [|discriminate].
  apply andb_true_iff in Hex; destruct Hex as [Hex Hst].
  apply andb_true_iff in Hex; destruct Hex as [Hp He].
  destruct (sub_planType s) eqn:Ep; try discriminate.
  destruct (sub_trialEnd s) as [e|] eqn:Ee; [|discriminate].
  destruct (currentSubscription_In w userId s Hs) as [Hin [Hu _]].
  assert (Hread : snd (getSubscriptionInfo userId w) = afterExpiry w s).
  { unfold getSubscriptionInfo, subscription_findFirst; run_prisma.
    fold (currentSubscription w userId); rewrite Hs, Ep, Ee, He, Hst; cbn [andb].
    rewrite (expireTrial_run w s Hnd Hin); reflexivity. }
  rewrite Hread; clear Hread Hs; subst userId.
  set (free := subscriptionRow (freshId (subscriptions w)) (sub_userId s) FREE ACTIVE
                 None None (clock w)).
  assert (Hcur : currentSubscription (afterExpiry w s) (sub_userId s) = Some free).
  { unfold currentSubscription, afterExpiry; cbn [subscriptions].
    rewrite filter_app; cbn [filter].
    unfold isCurrentOf at 2; cbn [subscriptionRow sub_userId sub_status isCurrentStatus].
    rewrite String.eqb_refl; cbn [andb].
    apply newest_snoc.
    apply Forall_forall; intros r Hr.
    apply filter_In in Hr; destruct Hr as [Hr _].
    apply in_map_iff in Hr; destruct Hr as [r0 [Hr0 Hin0]].
    unfold createdInThePast in Hpast; rewrite Forall_forall in Hpast.
    specialize (Hpast r0 Hin0).
    cbn [subscriptionRow sub_createdAt].
    destruct (Nat.eqb (sub_id r0) (sub_id s)); subst r; cbn [setStatus sub_createdAt];
      exact Hpast. }
  assert (Hr : expiresOnRead (afterExpiry w s) (sub_userId s) = false).
  { unfold expiresOnRead; rewrite Hcur; reflexivity. }
  rewrite (getSubscriptionInfo_pure _ _ Hr), (getPlanLimits_pure _ _ Hr), Hcur.
  repeat split; exact Hr.
Qed.

Lemma expired_trial_reads_as_free_afterwards_witness :
  getPlanLimits "alice" (snd (getSubscriptionInfo "alice" aliceAfterTrial))
  = (Ok (PLAN_LIMITS FREE), snd (getSubscriptionInfo "alice" aliceAfterTrial)).
Proof.
  apply (expired_trial_reads_as_free_afterwards aliceAfterTrial "alice").
  - repeat constructor; simpl; tauto.
  - repeat constructor.
  - reflexivity.
Defined.

(** ** Creating a code *)

Section CreateQrCode.
Context {libs : Libraries} {schema : Schema} {database : Database}.

Lemma qrCode_create_run (w : World) (data : QrCodeData) :
  let row :=
    {| qr_id := freshQrId (qrCodes w); qr_userId := qrData_userId data;
       qr_content := qrData_content data;
       qr_isDynamic := qrData_isDynamic data;
       qr_isActive := qrCode_isActive_default |} in
  qrCode_create data w
  = (Ok row, {| subscriptions := subscriptions w; usageTrackings := usageTrackings w;
                qrCodes := qrCodes w ++ [row]; clock := clock w |}).
Proof. reflexivity. Qed.

Lemma freshQrId_fresh (l : list QrCode) : ~ In (freshQrId l) (map qr_id l).
Proof.
  intros Hin; apply in_map_iff in Hin; destruct Hin as [q [Hid Hin]].
  assert (Hle : (qr_id q <= fold_right Nat.max 0 (map qr_id l))%nat).
  { clear - Hin; induction l as [|a r IH]; [destruct Hin|].
    cbn [map fold_right]; destruct Hin as [->|Hin]; [lia|].
    specialize (IH Hin); lia. }
  unfold freshQrId in Hid; lia.
Qed.

(** [createQrCode] once the quota check has answered on the store [w1]: the
    encoder, then the two writes. *)
Lemma createQrCode_after_check
  (w w1 : World) (d : Decision) (userId : string) (contentData : QrContentData)
  (styleConfig : QrStyleConfig) (title : option string) (logoBuffer : option Buffer) :
  canPerformAction userId qr_generated w = (Ok d, w1) ->
  let row :=
    {| qr_id := freshQrId (qrCodes w1); qr_userId := userId;
       qr_content := generateQrContent contentData;
       qr_isDynamic := false; qr_isActive := qrCode_isActive_default |} in
  let saved :=
    {| subscriptions := subscriptions w1; usageTrackings := usageTrackings w1;
       qrCodes := qrCodes w1 ++ [row]; clock := clock w1 |} in
  createQrCode userId contentData styleConfig title logoBuffer w
  = if negb (allowed d)
    then (Rejected (Error (reasonOr (reason d) "Cannot generate QR code")), w1)
    else
      match generateStyledQrCode (generateQrContent contentData) styleConfig logoBuffer with
      | None => (Rejected EncoderError, w1)
      | Some qrBuffer =>
          if rejects QrCodeCreate w1
          then (Rejected (WriteRejected QrCodeCreate), w1)
          else if rejects UsageUpsert saved
          then (Rejected (WriteRejected UsageUpsert), saved)
          else (Resolved (qr_id row, qrBuffer),
                snd (trackUsage userId "QR_GENERATED" 1 saved))
      end.
Proof.
  intros Hgate; cbv zeta; unfold createQrCode; rewrite Hgate.
  destruct (negb (allowed d)); [reflexivity|].
  destruct (generateStyledQrCode _ styleConfig logoBuffer) as [buf|]; [|reflexivity].
  destruct (rejects QrCodeCreate w1); [reflexivity|].
  rewrite qrCode_create_run; cbv zeta;
    cbn [qrData_userId qrData_content qrData_isDynamic].
  match goal with
  | |- context [rejects UsageUpsert ?w2] => destruct (rejects UsageUpsert w2)
  end; [reflexivity|].
  match goal with
  | |- context [trackUsage userId "QR_GENERATED" 1 ?w2] =>
      destruct (trackUsage_run w2 userId "QR_GENERATED" 1) as [rows [Hrun _]];
      rewrite Hrun
  end; reflexivity.
Qed.

(** [createQrCode] for a user who is not on an expired trial: the quota
    check, run on the store as it is. *)
Lemma createQrCode_settled
  (w : World) (userId : string) (contentData : QrContentData)
  (styleConfig : QrStyleConfig) (title : option string)
  (logoBuffer : option Buffer) (usage : Z) :
  onExpiredTrial w userId = false ->
  getCurrentMonthlyUsage userId "QR_GENERATED" w = (Ok usage, w) ->
  let row :=
    {| qr_id := freshQrId (qrCodes w); qr_userId := userId;
       qr_content := generateQrContent contentData;
       qr_isDynamic := false; qr_isActive := qrCode_isActive_default |} in
  let saved :=
    {| subscriptions := subscriptions w; usageTrackings := usageTrackings w;
       qrCodes := qrCodes w ++ [row]; clock := clock w |} in
  createQrCode userId contentData styleConfig title logoBuffer w
  = if negb (qrCodesPerMonth (limitsOf w userId) =? -1)
       && (qrCodesPerMonth (limitsOf w userId) <=? usage)
    then (Rejected (Error "Monthly QR code limit reached"), w)
    else
      match generateStyledQrCode (generateQrContent contentData) styleConfig logoBuffer with
      | None => (Rejected EncoderError, w)
      | Some qrBuffer =>
          if rejects QrCodeCreate w
          then (Rejected (WriteRejected QrCodeCreate), w)
          else if rejects UsageUpsert saved
          then (Rejected (WriteRejected UsageUpsert), saved)
          else (Resolved (qr_id row, qrBuffer),
                snd (trackUsage userId "QR_GENERATED" 1 saved))
      end.
Proof.
  intros Ht Husage; cbv zeta.
  pose proof (canPerformAction_settled w userId qr_generated Ht) as Hgate.
  cbv zeta in Hgate.
  rewrite getCurrentMonthlyUsage_sum in Husage; injection Husage as Husage.
  rewrite Husage in Hgate.
  rewrite (createQrCode_after_check w w _ userId contentData styleConfig title logoBuffer
             Hgate); cbv zeta.
  destruct (qrCodesPerMonth (limitsOf w userId) =? -1); cbn [negb andb];
    [reflexivity|].
  destruct (qrCodesPerMonth (limitsOf w userId) <=? usage); reflexivity.
Qed.

(** The usage read does not look at the codes. *)
Lemma usage_with_codes (w : World) (codes : list QrCode) (userId actionType : string)
  (usage : Z) :
  getCurrentMonthlyUsage userId actionType w = (Ok usage, w) ->
  let w2 := {| subscriptions := subscriptions w; usageTrackings := usageTrackings w;
               qrCodes := codes; clock := clock w |} in
  getCurrentMonthlyUsage userId actionType w2 = (Ok usage, w2).
Proof.
  intros Husage; cbv zeta.
  rewrite getCurrentMonthlyUsage_sum in Husage |- *; injection Husage as Husage.
  cbn [usageTrackings clock]; rewrite Husage; reflexivity.
Qed.

(** The store after a code was saved and counted. *)
Lemma saved_and_counted (w : World) (userId : string) (row : QrCode) (usage : Z) :
  uniqueCounters w ->
  getCurrentMonthlyUsage userId "QR_GENERATED" w = (Ok usage, w) ->
  let w' := snd (trackUsage userId "QR_GENERATED" 1
                   {| subscriptions := subscriptions w;
                      usageTrackings := usageTrackings w;
                      qrCodes := qrCodes w ++ [row]; clock := clock w |}) in
  qrCodes w' = qrCodes w ++ [row]
  /\ subscriptions w' = subscriptions w
  /\ getCurrentMonthlyUsage userId "QR_GENERATED" w' = (Ok (usage + 1), w').
Proof.
  intros Hu Husage; cbv zeta.
  set (w2 := {| subscriptions := subscriptions w; usageTrackings := usageTrackings w;
                qrCodes := qrCodes w ++ [row]; clock := clock w |}).
  assert (Hu2 : uniqueCounters w2) by exact Hu.
  pose proof (usage_with_codes w (qrCodes w ++ [row]) userId "QR_GENERATED" usage Husage)
    as Husage2; cbv zeta in Husage2; fold w2 in Husage2.
  split; [|split; [|exact (usage_after_trackUsage w2 userId "QR_GENERATED" 1 usage
                             Hu2 Husage2)]];
    destruct (trackUsage_run w2 userId "QR_GENERATED" 1) as [rows [Hrun _]];
    rewrite Hrun; reflexivity.
Qed.

(** What a rejected [createQrCode] leaves behind. The service awaits the
    creation of the row and then the tracking of the usage, in no
    transaction. When it rejects, no usage was counted. When the write the
    database rejected is the usage upsert, the row of the code stays saved,
    appended under a new key with the formatted content, though the caller
    gets no code; on every other rejection (the denial of [canPerformAction]
    with its reason, what the encoder threw, the rejected creation) the
    codes are as before. *)
Theorem createQrCode_rejections_and_their_traces
  (w : World) (userId : string) (contentData : QrContentData)
  (styleConfig : QrStyleConfig) (title : option string)
  (logoBuffer : option Buffer) (r : Rejection) :
  fst (createQrCode userId contentData styleConfig title logoBuffer w) = Rejected r ->
  let w' := snd (createQrCode userId contentData styleConfig title logoBuffer w) in
  let row :=
    {| qr_id := freshQrId (qrCodes w); qr_userId := userId;
       qr_content := generateQrContent contentData;
       qr_isDynamic := false; qr_isActive := qrCode_isActive_default |} in
  usageTrackings w' = usageTrackings w
  /\ match r with
     | WriteRejected UsageUpsert =>
         qrCodes w' = qrCodes w ++ [row]
         /\ exists qrBuffer,
              generateStyledQrCode (generateQrContent contentData) styleConfig logoBuffer
              = Some qrBuffer
     | WriteRejected QrCodeCreate =>
         qrCodes w' = qrCodes w
         /\ exists qrBuffer,
              generateStyledQrCode (generateQrContent contentData) styleConfig logoBuffer
              = Some qrBuffer
     | EncoderError =>
         qrCodes w' = qrCodes w
         /\ generateStyledQrCode (generateQrContent contentData) styleConfig logoBuffer
            = None
     | Error message =>
         qrCodes w' = qrCodes w
         /\ exists d, fst (canPerformAction userId qr_generated w) = Ok d
                      /\ allowed d = false
                      /\ message = reasonOr (reason d) "Cannot generate QR code"
     | StoreError _ => qrCodes w' = qrCodes w
     end.
Proof.
  destruct (canPerformAction_frame w userId qr_generated) as [[d Hd] [Hu [Hq _]]].
  destruct (canPerformAction userId qr_generated w) as [res w1] eqn:Hgate.
  cbn [fst snd] in Hd, Hu, Hq; subst res.
  rewrite (createQrCode_after_check w w1 d userId contentData styleConfig title logoBuffer
             Hgate); cbv zeta.
  rewrite Hq.
  destruct (allowed d) eqn:Ha; cbn [negb].
  - destruct (generateStyledQrCode _ styleConfig logoBuffer) as [buf|] eqn:Hbuf.
    + destruct (rejects QrCodeCreate w1).
      * cbn [fst snd]; intros Hr; injection Hr as <-; eauto.
      * match goal with
        | |- context [rejects UsageUpsert ?w2] => destruct (rejects UsageUpsert w2)
        end.
        -- cbn [fst snd usageTrackings qrCodes]; intros Hr; injection Hr as <-.
           eauto.
        -- cbn [fst]; discriminate.
    + cbn [fst snd]; intros Hr; injection Hr as <-; auto.
  - cbn [fst snd]; intros Hr; injection Hr as <-.
    split; [exact Hu|]. split; [exact Hq|]. exists d; auto.
Qed.

(** [createQrCode] within the quota: for a user who is not on an expired
    trial, whose plan is unlimited or whose usage of the month is below the
    quota, a content the encoder accepts, and a database that accepts the
    two writes, the call resolves with the key of the new row and the image;
    the row is appended under a new key, is the user's, holds the formatted
    content and is static; the QR_GENERATED usage of the month is one more;
    no user's count of active dynamic codes changes, and the subscriptions
    are as before. *)
Theorem createQrCode_saves_and_counts
  (w : World) (userId : string) (contentData : QrContentData)
  (styleConfig : QrStyleConfig) (title : option string)
  (logoBuffer : option Buffer)
  (qrBuffer : Buffer) (usage : Z) :
  onExpiredTrial w userId = false ->
  uniqueCounters w ->
  getCurrentMonthlyUsage userId "QR_GENERATED" w = (Ok usage, w) ->
  qrCodesPerMonth (limitsOf w userId) = -1
  \/ usage < qrCodesPerMonth (limitsOf w userId) ->
  generateStyledQrCode (generateQrContent contentData) styleConfig logoBuffer
  = Some qrBuffer ->
  let w' := snd (createQrCode userId contentData styleConfig title logoBuffer w) in
  let row :=
    {| qr_id := freshQrId (qrCodes w); qr_userId := userId;
       qr_content := generateQrContent contentData;
       qr_isDynamic := false; qr_isActive := qrCode_isActive_default |} in
  rejects QrCodeCreate w = false ->
  rejects UsageUpsert
    {| subscriptions := subscriptions w; usageTrackings := usageTrackings w;
       qrCodes := qrCodes w ++ [row]; clock := clock w |} = false ->
  fst (createQrCode userId contentData styleConfig title logoBuffer w)
  = Resolved (qr_id row, qrBuffer)
  /\ qrCodes w' = qrCodes w ++ [row]
  /\ ~ In (qr_id row) (map qr_id (qrCodes w))
  /\ getCurrentMonthlyUsage userId "QR_GENERATED" w' = (Ok (usage + 1), w')
  /\ (forall other, activeDynamicCodes w' other = activeDynamicCodes w other)
  /\ subscriptions w' = subscriptions w.
Proof.
  intros Ht Hu Husage Hquota Hbuf; cbv zeta; intros Hcreate Hupsert.
  pose proof (createQrCode_settled w userId contentData styleConfig title logoBuffer usage
                Ht Husage) as Hrun; cbv zeta in Hrun.
  rewrite Hrun, Hbuf, Hcreate, Hupsert; clear Hrun.
  assert (Hroom : negb (qrCodesPerMonth (limitsOf w userId) =? -1)
                  && (qrCodesPerMonth (limitsOf w userId) <=? usage) = false).
  { destruct (Z.eqb_spec (qrCodesPerMonth (limitsOf w userId)) (-1)); [reflexivity|].
    destruct (Z.leb_spec (qrCodesPerMonth (limitsOf w userId)) usage); [lia|reflexivity]. }
  rewrite Hroom; cbn [fst snd qr_id].
  destruct (saved_and_counted w userId
              {| qr_id := freshQrId (qrCodes w); qr_userId := userId;
                 qr_content := generateQrContent contentData;
                 qr_isDynamic := false; qr_isActive := qrCode_isActive_default |}
              usage Hu Husage) as [Hcodes [Hsubs Hafter]].
  split; [reflexivity|]. split; [exact Hcodes|].
  split; [apply freshQrId_fresh|]. split; [exact Hafter|].
  split; [|exact Hsubs].
  intros other; unfold activeDynamicCodes; rewrite Hcodes.
  rewrite filter_app; cbn [filter qr_isDynamic].
  rewrite andb_false_r; cbn [andb]; rewrite app_nil_r; reflexivity.
Qed.

(** [createQrCode] at the quota: for a user who is not on an expired
    trial and whose QR_GENERATED usage of the month has reached a finite
    quota, the call rejects with the message 'Monthly QR code limit reached'
    and the store is as before. *)
Theorem createQrCode_refused_at_quota
  (w : World) (userId : string) (contentData : QrContentData)
  (styleConfig : QrStyleConfig) (title : option string)
  (logoBuffer : option Buffer) (usage : Z) :
  onExpiredTrial w userId = false ->
  getCurrentMonthlyUsage userId "QR_GENERATED" w = (Ok usage, w) ->
  qrCodesPerMonth (limitsOf w userId) <> -1 ->
  qrCodesPerMonth (limitsOf w userId) <= usage ->
  createQrCode userId contentData styleConfig title logoBuffer w
  = (Rejected (Error "Monthly QR code limit reached"), w).
Proof.
  intros Ht Husage Hq Hle.
  pose proof (createQrCode_settled w userId contentData styleConfig title logoBuffer usage
                Ht Husage) as Hrun; cbv zeta in Hrun; rewrite Hrun.
  apply Z.eqb_neq in Hq; apply Z.leb_le in Hle; rewrite Hq, Hle.
  reflexivity.
Qed.

(** [createQrCode] never takes the usage past the quota: for a user who is
    not on an expired trial, with a finite quota and a usage within it, the
    usage after the call, whatever its outcome and whichever write the
    database rejects, is within the quota, and the limits are the same. *)
Theorem createQrCode_keeps_usage_within_quota
  (w : World) (userId : string) (contentData : QrContentData)
  (styleConfig : QrStyleConfig) (title : option string)
  (logoBuffer : option Buffer) (usage : Z) :
  onExpiredTrial w userId = false ->
  uniqueCounters w ->
  getCurrentMonthlyUsage userId "QR_GENERATED" w = (Ok usage, w) ->
  qrCodesPerMonth (limitsOf w userId) <> -1 ->
  usage <= qrCodesPerMonth (limitsOf w userId) ->
  let w' := snd (createQrCode userId contentData styleConfig title logoBuffer w) in
  exists usage',
    getCurrentMonthlyUsage userId "QR_GENERATED" w' = (Ok usage', w')
    /\ usage <= usage' <= qrCodesPerMonth (limitsOf w userId)
    /\ limitsOf w' userId = limitsOf w userId.
Proof.
  intros Ht Hu Husage Hq Hle; cbv zeta.
  pose proof (createQrCode_settled w userId contentData styleConfig title logoBuffer usage
                Ht Husage) as Hrun; cbv zeta in Hrun; rewrite Hrun; clear Hrun.
  apply Z.eqb_neq in Hq; rewrite Hq; cbn [negb andb].
  destruct (Z.leb_spec (qrCodesPerMonth (limitsOf w userId)) usage) as [Hfull|Hroom].
  - cbn [snd]; exists usage; split; [exact Husage|]. split; [lia|reflexivity].
  - destruct (generateStyledQrCode (generateQrContent contentData) styleConfig logoBuffer)
      as [buf|].
    + destruct (rejects QrCodeCreate w);
        [cbn [snd]; exists usage; split; [exact Husage|]; split; [lia|reflexivity]|].
      match goal with
      | |- context [rejects UsageUpsert ?w2] => destruct (rejects UsageUpsert w2)
      end.
      * cbn [snd]; exists usage.
        split; [exact (usage_with_codes w _ userId "QR_GENERATED" usage Husage)|].
        split; [lia|reflexivity].
      * cbn [snd].
        destruct (saved_and_counted w userId
                    {| qr_id := freshQrId (qrCodes w); qr_userId := userId;
                       qr_content := generateQrContent contentData;
                       qr_isDynamic := false; qr_isActive := qrCode_isActive_default |}
                    usage Hu Husage) as [_ [Hsubs Hafter]].
        exists (usage + 1); split; [exact Hafter|]. split; [lia|].
        unfold limitsOf, currentSubscription; rewrite Hsubs; reflexivity.
    + cbn [snd]; exists usage; split; [exact Husage|]. split; [lia|reflexivity].
Qed.

End CreateQrCode.

Lemma createQrCode_rejections_and_their_traces_witness :
  let run :=
    createQrCode (libs := demoLibraries) (schema := demoSchema)
      (database := lostBeforeUpsert)
      "bob" homePage demoStyle (Some "Home page") None (bobFree 9) in
  fst run = Rejected (WriteRejected UsageUpsert)
  /\ usageTrackings (snd run) = usageTrackings (bobFree 9)
  /\ qrCodes (snd run)
     = [{| qr_id := 1; qr_userId := "bob"; qr_content := "https://example.com";
           qr_isDynamic := false; qr_isActive := true |}].
Proof.
  intros run.
  destruct (createQrCode_rejections_and_their_traces
              (libs := demoLibraries) (schema := demoSchema)
              (database := lostBeforeUpsert)
              (bobFree 9) "bob" homePage demoStyle (Some "Home page") None
              (WriteRejected UsageUpsert) eq_refl) as [Hu [Hq _]].
  split; [reflexivity|]. split; [exact Hu|exact Hq].
Defined.

Lemma createQrCode_saves_and_counts_witness :
  fst (createQrCode (libs := demoLibraries) (schema := demoSchema)
         (database := reliableDatabase)
         "bob" homePage demoStyle (Some "Home page") None (bobFree 9))
  = Resolved (1%nat, bufferFrom "PNG").
Proof.
  apply (createQrCode_saves_and_counts (libs := demoLibraries) (schema := demoSchema)
           (database := reliableDatabase)
           (bobFree 9) "bob" homePage demoStyle (Some "Home page") None
           (bufferFrom "PNG") 9).
  - reflexivity.
  - unfold uniqueCounters; simpl.
    repeat (constructor; [simpl; intuition congruence|]); constructor.
  - reflexivity.
  - right; reflexivity.
  - reflexivity.
  - reflexivity.
  - reflexivity.
Defined.

Lemma createQrCode_refused_at_quota_witness :
  createQrCode (libs := demoLibraries) (schema := demoSchema)
    (database := reliableDatabase)
    "bob" homePage demoStyle (Some "Home page") None (bobFree 10)
  = (Rejected (Error "Monthly QR code limit reached"), bobFree 10).
Proof.
  apply (createQrCode_refused_at_quota (libs := demoLibraries) (schema := demoSchema)
           (database := reliableDatabase)
           (bobFree 10) "bob" homePage demoStyle (Some "Home page") None 10);
    [reflexivity|reflexivity|discriminate|vm_compute; discriminate].
Defined.

Lemma createQrCode_keeps_usage_within_quota_witness :
  exists usage',
    getCurrentMonthlyUsage "bob" "QR_GENERATED"
      (snd (createQrCode (libs := demoLibraries) (schema := demoSchema)
              (database := reliableDatabase)
              "bob" homePage demoStyle (Some "Home page") None (bobFree 9)))
    = (Ok usage',
       snd (createQrCode (libs := demoLibraries) (schema := demoSchema)
              (database := reliableDatabase)
              "bob" homePage demoStyle (Some "Home page") None (bobFree 9)))
    /\ 9 <= usage' <= 10.
Proof.
  destruct (createQrCode_keeps_usage_within_quota
              (libs := demoLibraries) (schema := demoSchema)
              (database := reliableDatabase)
              (bobFree 9) "bob" homePage demoStyle (Some "Home page") None 9)
    as [usage' [Hread [Hbound _]]].
  - reflexivity.
  - unfold uniqueCounters; simpl.
    repeat (constructor; [simpl; intuition congruence|]); constructor.
  - reflexivity.
  - discriminate.
  - vm_compute; discriminate.
  - exists usage'; split; [exact Hread|exact Hbound].
Defined.

(** ** The subscription middleware *)

Lemma accessSubscription_In (w : World) (userId : string) (s : Subscription) :
  accessSubscription w userId = Some s ->
  In s (subscriptions w) /\ isAccessOf userId s = true.
Proof.
  unfold accessSubscription; intros H.
  apply newest_In, filter_In in H; exact H.
Qed.

Lemma checkSubscriptionAccess_expired_run
  (w : World) (userId : string) (s : Subscription) (trialEnd : Z) :
  accessSubscription w userId = Some s ->
  sub_planType s = TRIAL ->
  sub_trialEnd s = Some trialEnd ->
  trialEnd < clock w ->
  checkSubscriptionAccess (Some userId) w
  = (Respond 403 "Trial expired"
       (Some "Your free trial has expired. Please upgrade to continue using the service"),
     {| subscriptions :=
          map (fun r => if Nat.eqb (sub_id r) (sub_id s) then setStatus EXPIRED r else r)
            (subscriptions w);
        usageTrackings := usageTrackings w;
        qrCodes := qrCodes w;
        clock := clock w |}).
Proof.
  intros Hs Hp He Hlt.
  destruct (accessSubscription_In w userId s Hs) as [Hin Hacc].
  unfold checkSubscriptionAccess, subscription_findFirst, subscription_update;
    run_prisma.
  fold (accessSubscription w userId); rewrite Hs, Hp, He.
  apply Z.ltb_lt in Hlt; rewrite Hlt, (existsb_id _ _ Hin).
  reflexivity.
Qed.

Lemma checkSubscriptionAccess_none_run (w : World) (userId : string) :
  accessSubscription w userId = None ->
  checkSubscriptionAccess (Some userId) w
  = (Respond 403 "No active subscription found"
       (Some "Please subscribe to access this feature"), w).
Proof.
  intros Hs.
  unfold checkSubscriptionAccess, subscription_findFirst; run_prisma.
  fold (accessSubscription w userId); rewrite Hs; reflexivity.
Qed.

(** [checkSubscriptionAccess] on a trial that ended: when the newest
    ACTIVE or TRIALING row of the user is a TRIAL whose end is before now,
    the middleware answers 403 'Trial expired' and sets that row to EXPIRED
    in place; no row is added. If it was the user's only ACTIVE or TRIALING
    row, the next request is answered 403 'No active subscription found',
    and [getSubscriptionInfo] then writes nothing and finds at most a
    PAST_DUE row. *)
Theorem checkSubscriptionAccess_expires_without_fallback
  (w : World) (userId : string) (s : Subscription) (trialEnd : Z) :
  NoDup (map sub_id (subscriptions w)) ->
  accessSubscription w userId = Some s ->
  sub_planType s = TRIAL ->
  sub_trialEnd s = Some trialEnd ->
  trialEnd < clock w ->
  let w' := snd (checkSubscriptionAccess (Some userId) w) in
  fst (checkSubscriptionAccess (Some userId) w)
  = Respond 403 "Trial expired"
      (Some "Your free trial has expired. Please upgrade to continue using the service")
  /\ subscriptions w'
     = map (fun r => if Nat.eqb (sub_id r) (sub_id s) then setStatus EXPIRED r else r)
         (subscriptions w)
  /\ find (fun r => Nat.eqb (sub_id r) (sub_id s)) (subscriptions w')
     = Some (setStatus EXPIRED s)
  /\ List.length (subscriptions w') = List.length (subscriptions w)
  /\ (filter (isAccessOf userId) (subscriptions w) = [s] ->
      fst (checkSubscriptionAccess (Some userId) w')
      = Respond 403 "No active subscription found"
          (Some "Please subscribe to access this feature")
      /\ getSubscriptionInfo userId w'
         = (Ok (option_map (fun r => infoOf r (clock w)) (currentSubscription w' userId)),
            w')
      /\ forall r, currentSubscription w' userId = Some r -> sub_status r = PAST_DUE).
Proof.
  intros Hnd Hs Hp He Hlt; cbv zeta.
  destruct (accessSubscription_In w userId s Hs) as [Hin Hacc].
  rewrite (checkSubscriptionAccess_expired_run w userId s trialEnd Hs Hp He Hlt).
  cbn [fst snd subscriptions].
  split; [reflexivity|]. split; [reflexivity|].
  split; [rewrite find_after_update, (find_by_id _ _ Hnd Hin); reflexivity|].
  split; [apply length_map|].
  intros Honly.
  set (l' := map (fun r => if Nat.eqb (sub_id r) (sub_id s) then setStatus EXPIRED r else r)
               (subscriptions w)).
  set (w' := {| subscriptions := l'; usageTrackings := usageTrackings w;
                qrCodes := qrCodes w; clock := clock w |}).
  assert (Hnone : filter (isAccessOf userId) l' = []).
  { subst l'. clear Hs Hin.
    assert (Hall : forall r, In r (subscriptions w) -> isAccessOf userId r = true -> r = s).
    { intros r Hr Ha.
      assert (Hrs : In r (filter (isAccessOf userId) (subscriptions w)))
        by (apply filter_In; auto).
      rewrite Honly in Hrs; destruct Hrs as [<-|[]]; reflexivity. }
    clear Honly Hnd.
    induction (subscriptions w) as [|a r IH]; [reflexivity|].
    cbn [map filter].
    destruct (Nat.eqb (sub_id a) (sub_id s)) eqn:E.
    - unfold isAccessOf at 1; cbn [setStatus sub_userId sub_status isActiveOrTrialing].
      rewrite andb_false_r; apply IH; intros x Hx; apply Hall; right; exact Hx.
    - destruct (isAccessOf userId a) eqn:Ea.
      + rewrite (Hall a (or_introl eq_refl) Ea), Nat.eqb_refl in E; discriminate.
      + apply IH; intros x Hx; apply Hall; right; exact Hx. }
  split.
  - rewrite checkSubscriptionAccess_none_run; [reflexivity|].
    unfold accessSubscription; cbn [subscriptions w']; rewrite Hnone; reflexivity.
  - assert (Hcur : forall r, currentSubscription w' userId = Some r ->
                             sub_status r = PAST_DUE).
    { intros r Hr.
      apply currentSubscription_In in Hr; destruct Hr as [Hr [Hu Hst]].
      destruct (sub_status r) eqn:Est; try discriminate; try reflexivity;
        exfalso;
        assert (Hf : In r (filter (isAccessOf userId) l'))
          by (apply filter_In; split; [exact Hr|];
              unfold isAccessOf; rewrite Hu, Est, String.eqb_refl; reflexivity);
        rewrite Hnone in Hf; exact Hf. }
    split; [|exact Hcur].
    apply (getSubscriptionInfo_pure w' userId).
    unfold expiresOnRead.
    destruct (currentSubscription w' userId) as [r|] eqn:Hr; [|reflexivity].
    rewrite (Hcur r eq_refl); cbn [status_eqb]; apply andb_false_r.
Qed.

Lemma checkSubscriptionAccess_expires_without_fallback_witness :
  fst (checkSubscriptionAccess (Some "alice") aliceAfterTrial)
  = Respond 403 "Trial expired"
      (Some "Your free trial has expired. Please upgrade to continue using the service")
  /\ subscriptions (snd (checkSubscriptionAccess (Some "alice") aliceAfterTrial))
     = [setStatus EXPIRED aliceTrial].
Proof.
  destruct (checkSubscriptionAccess_expires_without_fallback
              aliceAfterTrial "alice" aliceTrial (march1 + 14 * msPerDay))
    as [Hfst [Hsubs _]];
    [repeat constructor; simpl; tauto|reflexivity|reflexivity|reflexivity
    |vm_compute; reflexivity|].
  split; [exact Hfst|exact Hsubs].
Defined.

(** [checkSubscriptionAccess] lets a request through with the newest
    ACTIVE or TRIALING row of the user, unless that row is a TRIAL whose end
    is before now (at the instant of the end it still passes); the store is
    not written. *)
Theorem checkSubscriptionAccess_passes
  (w : World) (userId : string) (s : Subscription) :
  accessSubscription w userId = Some s ->
  match sub_planType s, sub_trialEnd s with
  | TRIAL, Some trialEnd => clock w <= trialEnd
  | _, _ => True
  end ->
  checkSubscriptionAccess (Some userId) w = (Next s, w)
  /\ In s (subscriptions w)
  /\ sub_userId s = userId
  /\ (sub_status s = ACTIVE \/ sub_status s = TRIALING).
Proof.
  intros Hs Hok.
  destruct (accessSubscription_In w userId s Hs) as [Hin Hacc].
  split.
  - unfold checkSubscriptionAccess, subscription_findFirst; run_prisma.
    fold (accessSubscription w userId); rewrite Hs.
    destruct (sub_planType s); try reflexivity.
    destruct (sub_trialEnd s) as [e|]; [|reflexivity].
    destruct (Z.ltb_spec e (clock w)); [lia|reflexivity].
  - split; [exact Hin|].
    unfold isAccessOf in Hacc; apply andb_true_iff in Hacc; destruct Hacc as [Hu Hst].
    apply String.eqb_eq in Hu; split; [exact Hu|].
    destruct (sub_status s); try discriminate; auto.
Qed.

Lemma checkSubscriptionAccess_passes_witness :
  checkSubscriptionAccess (Some "bob") (bobFree 0)
  = (Next (subscriptionRow 1 "bob" FREE ACTIVE None None march1), bobFree 0).
Proof.
  apply (checkSubscriptionAccess_passes (bobFree 0) "bob"
           (subscriptionRow 1 "bob" FREE ACTIVE None None march1));
    [reflexivity|exact I].
Defined.

(** ** Escaped fields of the content *)

Lemma allChars_app (p : ascii -> bool) (s t : string) :
  allChars p (s +++ t) = allChars p s && allChars p t.
Proof.
  induction s as [|a r IH]; [reflexivity|].
  cbn [String.append allChars]; rewrite IH, andb_assoc; reflexivity.
Qed.

Lemma hexDigitUpper_escaped (n : nat) : isEscapedChar (hexDigitUpper n) = true.
Proof. do 16 (destruct n as [|n]; [reflexivity|]); reflexivity. Qed.

Lemma percentByte_escaped (b : nat) : allChars isEscapedChar (percentByte b) = true.
Proof.
  unfold percentByte; cbn [allChars]; rewrite !hexDigitUpper_escaped; reflexivity.
Qed.

Lemma nat_of_ascii_bound (a : ascii) : (nat_of_ascii a < 256)%nat.
Proof. apply nat_ascii_bounded. Qed.

Lemma hexDigitUpper_code (n : nat) :
  (n < 16)%nat ->
  nat_of_ascii (hexDigitUpper n) = (if (n <? 10)%nat then 48 + n else 55 + n)%nat.
Proof.
  intros H.
  do 16 (destruct n as [|n]; [reflexivity|]); lia.
Qed.

Lemma hexDigitUpper_inj (n m : nat) :
  (n < 16)%nat -> (m < 16)%nat -> hexDigitUpper n = hexDigitUpper m -> n = m.
Proof.
  intros Hn Hm H.
  apply (f_equal nat_of_ascii) in H.
  rewrite !hexDigitUpper_code in H by assumption.
  destruct (Nat.ltb_spec n 10), (Nat.ltb_spec m 10); lia.
Qed.

Lemma percentByte_append (n : nat) (x : string) :
  percentByte n +++ x
  = String "%"%char (String (hexDigitUpper (n / 16)) (String (hexDigitUpper (n mod 16)) x)).
Proof. reflexivity. Qed.

Lemma percentByte_inj (n m : nat) (x y : string) :
  (n < 256)%nat -> (m < 256)%nat ->
  percentByte n +++ x = percentByte m +++ y -> n = m /\ x = y.
Proof.
  intros Hn Hm H; rewrite !percentByte_append in H.
  pose proof (Nat.div_mod_eq n 16) as En; pose proof (Nat.div_mod_eq m 16) as Em.
  assert (Hqn : (n / 16 < 16)%nat) by (apply Nat.Div0.div_lt_upper_bound; lia).
  assert (Hqm : (m / 16 < 16)%nat) by (apply Nat.Div0.div_lt_upper_bound; lia).
  pose proof (Nat.mod_upper_bound n 16 ltac:(lia)) as Hrn.
  pose proof (Nat.mod_upper_bound m 16 ltac:(lia)) as Hrm.
  revert H En Em Hqn Hqm Hrn Hrm.
  generalize (n / 16)%nat (n mod 16)%nat (m / 16)%nat (m mod 16)%nat.
  intros qn rn qm rm H En Em Hqn Hqm Hrn Hrm.
  injection H as H1 H2 Hxy.
  apply hexDigitUpper_inj in H1; [|lia|lia].
  apply hexDigitUpper_inj in H2; [|lia|lia].
  split; [lia|exact Hxy].
Qed.

Lemma nat_of_ascii_inj (a b : ascii) : nat_of_ascii a = nat_of_ascii b -> a = b.
Proof.
  intros H; rewrite <- (ascii_nat_embedding a), <- (ascii_nat_embedding b), H.
  reflexivity.
Qed.

Lemma append_empty (s : string) : s +++ "" = s.
Proof. induction s as [|a r IH]; [reflexivity|cbn; rewrite IH; reflexivity]. Qed.

Lemma append_cancel (p x y : string) : p +++ x = p +++ y -> x = y.
Proof.
  induction p as [|a r IH]; cbn [String.append]; intros H; [exact H|].
  injection H as H; exact (IH H).
Qed.

(** The content of an email payload, by the fields given. *)
Lemma email_content_form (address subject body : option string) :
  generateQrContent (emailPayload address subject body)
  = "mailto:" +++ orEmpty address
    +++ match given subject, given body with
        | Some s, Some b =>
            "?subject=" +++ encodeURIComponent s +++ "&body=" +++ encodeURIComponent b
        | Some s, None => "?subject=" +++ encodeURIComponent s
        | None, Some b => "?body=" +++ encodeURIComponent b
        | None, None => ""
        end.
Proof.
  unfold generateQrContent, emailPayload, given;
    cbn [qrType emailAddress emailSubject emailBody].
  destruct subject as [[|a r]|], body as [[|c t]|];
    cbn [truthy orEmpty app List.length Nat.ltb Nat.leb join];
    rewrite ?append_assoc, ?append_empty; reflexivity.
Qed.

(** *** Code units *)

Lemma units_app (s t : string) : units (s +++ t) = units s ++ units t.
Proof.
  induction s as [|a r IH]; [reflexivity|].
  unfold units in *; cbn [String.append list_ascii_of_string map app].
  rewrite IH; reflexivity.
Qed.

Lemma units_inj (s t : string) : units s = units t -> s = t.
Proof.
  revert t; induction s as [|a r IH]; intros [|b t]; unfold units;
    cbn [list_ascii_of_string map]; intros H; try discriminate; [reflexivity|].
  injection H as Ha Hr.
  apply Nat2Z.inj, nat_of_ascii_inj in Ha; subst b.
  rewrite (IH t Hr); reflexivity.
Qed.

Lemma units_allUnits (s : string) : allUnits (units s) = true.
Proof.
  induction s as [|a r IH]; [reflexivity|].
  unfold units, allUnits in *; cbn [list_ascii_of_string map forallb].
  rewrite IH, andb_true_r.
  pose proof (nat_of_ascii_bound a); unfold isCodeUnit.
  apply andb_true_iff; split; [apply Z.leb_le|apply Z.ltb_lt]; lia.
Qed.

Lemma list_length_ind (P : list Z -> Prop) :
  (forall s, (forall t, (List.length t < List.length s)%nat -> P t) -> P s) ->
  forall s, P s.
Proof.
  intros Hstep s.
  assert (H : forall n t, (List.length t < n)%nat -> P t).
  { induction n as [|n IH]; intros t Ht; [lia|].
    apply Hstep; intros u Hu; apply IH; lia. }
  apply (H (S (List.length s))); lia.
Qed.

Ltac bools :=
  repeat match goal with
  | H : _ && _ = true |- _ => apply andb_true_iff in H; destruct H
  | H : _ && _ = false |- _ => apply andb_false_iff in H; destruct H
  | H : negb _ = true |- _ => apply negb_true_iff in H
  | H : (_ <=? _) = true |- _ => apply Z.leb_le in H
  | H : (_ <=? _) = false |- _ => apply Z.leb_gt in H
  | H : (_ <? _) = true |- _ => apply Z.ltb_lt in H
  | H : (_ <? _) = false |- _ => apply Z.ltb_ge in H
  end.

Ltac split_tests :=
  repeat match goal with
  | |- context [?a <=? ?b] => destruct (Z.leb_spec a b); cbv iota
  | |- context [?a <? ?b] => destruct (Z.ltb_spec a b); cbv iota
  end.

Lemma isScalar_range (cp : Z) :
  isScalar cp = true -> 0 <= cp < 1114112 /\ (cp < 55296 \/ 57343 < cp).
Proof.
  unfold isScalar, isLeadingSurrogate, isTrailingSurrogate; intros H; bools; lia.
Qed.

Lemma isScalar_intro (cp : Z) :
  0 <= cp < 1114112 -> cp < 55296 \/ 57343 < cp -> isScalar cp = true.
Proof.
  intros H1 H2; unfold isScalar, isLeadingSurrogate, isTrailingSurrogate.
  split_tests; cbn [andb negb]; try reflexivity; lia.
Qed.

Lemma isUnescaped_range (c : Z) : isUnescaped c = true -> 0 <= c < 128.
Proof. unfold isUnescaped; intros H; bools; lia. Qed.

Lemma isUnescaped_above (c : Z) : 128 <= c -> isUnescaped c = false.
Proof.
  intros H; unfold isUnescaped.
  destruct (Z.ltb_spec c 128); [lia|]. rewrite andb_false_r; reflexivity.
Qed.

Lemma unescaped_no_surrogate (c : Z) :
  isUnescaped c = true -> isTrailingSurrogate c = false /\ isLeadingSurrogate c = false.
Proof.
  intros H; apply isUnescaped_range in H.
  unfold isTrailingSurrogate, isLeadingSurrogate.
  split; split_tests; cbn [andb]; try reflexivity; lia.
Qed.

(** *** The escape of one code point *)

Lemma octet_head_inj (b1 b2 : Z) (x y : string) :
  0 <= b1 < 256 -> 0 <= b2 < 256 ->
  percentByte (Z.to_nat b1) +++ x = percentByte (Z.to_nat b2) +++ y ->
  b1 = b2 /\ x = y.
Proof.
  intros H1 H2 H; apply percentByte_inj in H; [|lia|lia].
  destruct H as [Hb Hxy]; split; [lia|exact Hxy].
Qed.

Lemma escape_utf8_head (cp : Z) (x : string) :
  exists rest, escapeOctets (utf8 cp) +++ x = String "%"%char rest.
Proof.
  unfold utf8; split_tests; cbn [escapeOctets fold_right];
    rewrite ?append_assoc, percentByte_append; eexists; reflexivity.
Qed.

Lemma escape_utf8_escaped (cp : Z) :
  allChars isEscapedChar (escapeOctets (utf8 cp)) = true.
Proof.
  unfold utf8; split_tests; cbn [escapeOctets fold_right];
    rewrite ?allChars_app, ?percentByte_escaped; reflexivity.
Qed.

(** The escaped octets of a code point, followed by anything, tell the
    code point: the first octet tells how many follow. *)
Lemma escape_utf8_inj (cp1 cp2 : Z) (x y : string) :
  0 <= cp1 < 1114112 -> 0 <= cp2 < 1114112 ->
  escapeOctets (utf8 cp1) +++ x = escapeOctets (utf8 cp2) +++ y ->
  cp1 = cp2 /\ x = y.
Proof.
  intros H1 H2; unfold utf8; split_tests; cbn [escapeOctets fold_right];
    rewrite ?append_assoc; intros Heq;
    repeat (apply octet_head_inj in Heq; [destruct Heq as [? Heq]|lia_div|lia_div]);
    first [ split; [lia_div|exact Heq] | exfalso; lia_div ].
Qed.

Lemma escapePoint_inj (cp1 cp2 : Z) (x y : string) :
  isScalar cp1 = true -> isScalar cp2 = true ->
  escapePoint cp1 +++ x = escapePoint cp2 +++ y ->
  cp1 = cp2 /\ x = y.
Proof.
  intros H1 H2; apply isScalar_range in H1, H2; unfold escapePoint.
  destruct (isUnescaped cp1) eqn:E1, (isUnescaped cp2) eqn:E2.
  - pose proof (isUnescaped_range _ E1); pose proof (isUnescaped_range _ E2).
    cbn [String.append]; intros Heq; injection Heq as Ha Hxy.
    apply (f_equal nat_of_ascii) in Ha.
    rewrite !nat_ascii_embedding in Ha by lia.
    split; [lia|exact Hxy].
  - destruct (escape_utf8_head cp2 y) as [rest ->].
    cbn [String.append]; intros H; injection H as Ha _.
    unfold isUnescaped in E1; rewrite Ha in E1.
    rewrite andb_false_r in E1; discriminate.
  - destruct (escape_utf8_head cp1 x) as [rest ->].
    cbn [String.append]; intros H; injection H as Ha _.
    unfold isUnescaped in E2; rewrite <- Ha in E2.
    rewrite andb_false_r in E2; discriminate.
  - apply escape_utf8_inj; lia.
Qed.

Lemma escapePoint_starts (cp : Z) (x : string) :
  startsEscaped (escapePoint cp +++ x) = true.
Proof.
  unfold escapePoint; destruct (isUnescaped cp) eqn:E.
  - unfold isUnescaped in E; apply andb_true_iff in E; destruct E as [_ E].
    cbn [String.append startsEscaped]; unfold isEscapedChar; rewrite E; reflexivity.
  - destruct (escape_utf8_head cp x) as [rest ->]; reflexivity.
Qed.

Lemma escapePoint_escaped (cp : Z) : allChars isEscapedChar (escapePoint cp) = true.
Proof.
  unfold escapePoint; destruct (isUnescaped cp) eqn:E.
  - unfold isUnescaped in E; apply andb_true_iff in E; destruct E as [_ E].
    cbn [allChars]; unfold isEscapedChar; rewrite E; reflexivity.
  - apply escape_utf8_escaped.
Qed.

(** *** The escape of a string *)

(** What [encodeURIComponent] does at the head of a string it accepts: it
    reads one code point, from one code unit or from a pair. *)
Lemma encode16_head (c : Z) (r : list Z) (e : string) :
  isCodeUnit c = true ->
  encodeURIComponent16 (c :: r) = Some e ->
  exists cp rest e',
    isScalar cp = true
    /\ c :: r = unitsOfPoint cp ++ rest
    /\ encodeURIComponent16 rest = Some e'
    /\ e = escapePoint cp +++ e'
    /\ (List.length rest <= List.length r)%nat.
Proof.
  intros Hc; unfold isCodeUnit in Hc; bools.
  cbn [encodeURIComponent16].
  destruct (isUnescaped c) eqn:Eu.
  - destruct (encodeURIComponent16 r) as [e'|] eqn:Er; [|discriminate].
    cbn [option_map]; intros Heq; injection Heq as <-.
    pose proof (isUnescaped_range _ Eu).
    exists c, r, e'; split; [apply isScalar_intro; lia|].
    split; [unfold unitsOfPoint; destruct (Z.ltb_spec c 65536); [reflexivity|lia]|].
    split; [exact Er|]. split; [|lia].
    unfold escapePoint; rewrite Eu; reflexivity.
  - destruct (isTrailingSurrogate c) eqn:Et; [discriminate|].
    destruct (isLeadingSurrogate c) eqn:El.
    + destruct r as [|d r']; [discriminate|].
      destruct (isTrailingSurrogate d) eqn:Ed; [|discriminate].
      destruct (encodeURIComponent16 r') as [e'|] eqn:Er; [|discriminate].
      cbn [option_map]; intros Heq; injection Heq as <-.
      unfold isLeadingSurrogate in El; unfold isTrailingSurrogate in Ed; bools.
      exists (codePointOfPair c d), r', e'.
      assert (Hcp : 65536 <= codePointOfPair c d < 1114112)
        by (unfold codePointOfPair; lia).
      split; [apply isScalar_intro; lia|].
      split.
      { unfold unitsOfPoint; destruct (Z.ltb_spec (codePointOfPair c d) 65536); [lia|].
        unfold codePointOfPair; cbn [app]; f_equal; [lia_div|f_equal; lia_div]. }
      split; [exact Er|]. split; [|cbn [List.length]; lia].
      unfold escapePoint; rewrite isUnescaped_above by lia; reflexivity.
    + destruct (encodeURIComponent16 r) as [e'|] eqn:Er; [|discriminate].
      cbn [option_map]; intros Heq; injection Heq as <-.
      exists c, r, e'.
      assert (Hns : c < 55296 \/ 57343 < c).
      { unfold isLeadingSurrogate in El; unfold isTrailingSurrogate in Et; bools; lia. }
      split; [apply isScalar_intro; lia|].
      split; [unfold unitsOfPoint; destruct (Z.ltb_spec c 65536); [reflexivity|lia]|].
      split; [exact Er|]. split; [|lia].
      unfold escapePoint; rewrite Eu; reflexivity.
Qed.

Lemma allUnits_app (s t : list Z) : allUnits (s ++ t) = allUnits s && allUnits t.
Proof. apply forallb_app. Qed.

(** Induction on what [encodeURIComponent] reads, one code point at a
    time. *)
Lemma encode16_ind (P : list Z -> string -> Prop) :
  P [] "" ->
  (forall cp rest e',
     isScalar cp = true -> allUnits rest = true ->
     encodeURIComponent16 rest = Some e' ->
     P rest e' -> P (unitsOfPoint cp ++ rest) (escapePoint cp +++ e')) ->
  forall s e, allUnits s = true -> encodeURIComponent16 s = Some e -> P s e.
Proof.
  intros Hnil Hstep s; induction s as [s IH] using list_length_ind.
  intros e Hu He; destruct s as [|c r].
  - injection He as <-; exact Hnil.
  - assert (Hc : isCodeUnit c = true)
      by (cbn [allUnits forallb] in Hu; apply andb_true_iff in Hu; tauto).
    destruct (encode16_head c r e Hc He) as [cp [rest [e' [Hs [Hsplit [Hr [-> Hlen]]]]]]].
    rewrite Hsplit in Hu |- *; rewrite allUnits_app in Hu.
    apply andb_true_iff in Hu; destruct Hu as [_ Hu].
    apply Hstep; try assumption.
    apply IH; [cbn [List.length]; lia|assumption|assumption].
Qed.

(** What [encodeURIComponent] returns holds unreserved characters and
    escapes only. *)
Lemma encode16_escaped (s : list Z) (e : string) :
  allUnits s = true -> encodeURIComponent16 s = Some e ->
  allChars isEscapedChar e = true.
Proof.
  revert s e; apply encode16_ind; [reflexivity|].
  intros cp rest e' _ _ _ IH; rewrite allChars_app, escapePoint_escaped, IH; reflexivity.
Qed.

(** An escaped component is told apart from what follows it, when that
    starts with a delimiter. *)
Lemma encode16_split (s : list Z) (e1 : string) :
  allUnits s = true -> encodeURIComponent16 s = Some e1 ->
  forall t e2 x y,
    allUnits t = true -> encodeURIComponent16 t = Some e2 ->
    startsEscaped x = false -> startsEscaped y = false ->
    e1 +++ x = e2 +++ y ->
    s = t /\ x = y.
Proof.
  revert s e1.
  apply (encode16_ind
           (fun s e1 =>
              forall t e2 x y,
                allUnits t = true -> encodeURIComponent16 t = Some e2 ->
                startsEscaped x = false -> startsEscaped y = false ->
                e1 +++ x = e2 +++ y -> s = t /\ x = y)).
  - intros [|c r] e2 x y Hu He Hx Hy H.
    + injection He as <-; split; [reflexivity|exact H].
    + assert (Hc : isCodeUnit c = true)
        by (cbn [allUnits forallb] in Hu; apply andb_true_iff in Hu; tauto).
      destruct (encode16_head c r e2 Hc He) as [cp [rest [e' [_ [_ [_ [-> _]]]]]]].
      cbn [String.append] in H; rewrite append_assoc in H.
      rewrite H, escapePoint_starts in Hx; discriminate.
  - intros cp rest e' Hs Hrest Hr IH [|c r] e2 x y Hu He Hx Hy H.
    + injection He as <-; cbn [String.append] in H; rewrite append_assoc in H.
      rewrite <- H, escapePoint_starts in Hy; discriminate.
    + assert (Hc : isCodeUnit c = true)
        by (cbn [allUnits forallb] in Hu; apply andb_true_iff in Hu; tauto).
      destruct (encode16_head c r e2 Hc He)
        as [cp2 [rest2 [e2' [Hs2 [Hsplit [Hr2 [-> _]]]]]]].
      rewrite Hsplit in Hu |- *; rewrite allUnits_app in Hu.
      apply andb_true_iff in Hu; destruct Hu as [_ Hu].
      rewrite !append_assoc in H.
      apply escapePoint_inj in H; [|assumption|assumption].
      destruct H as [-> H].
      destruct (IH rest2 e2' x y Hu Hr2 Hx Hy H) as [-> ->]; auto.
Qed.

Lemma encode16_inj (s t : list Z) (e : string) :
  allUnits s = true -> allUnits t = true ->
  encodeURIComponent16 s = Some e -> encodeURIComponent16 t = Some e -> s = t.
Proof.
  intros Hs Ht Es Et.
  apply (encode16_split s e Hs Es t e "" "" Ht Et eq_refl eq_refl eq_refl).
Qed.

Lemma option_map_none {A B : Type} (f : A -> B) (o : option A) :
  option_map f o = None <-> o = None.
Proof. destruct o; cbn; split; intros H; try discriminate; reflexivity. Qed.

(** [encodeURIComponent] throws on the strings that hold a surrogate
    without its pair, and on no other. *)
Lemma encode16_throws (s : list Z) :
  encodeURIComponent16 s = None <-> hasLoneSurrogate s = true.
Proof.
  induction s as [s IH] using list_length_ind.
  destruct s as [|c r]; [cbn; split; discriminate|].
  cbn [encodeURIComponent16 hasLoneSurrogate].
  destruct (isUnescaped c) eqn:Eu.
  - destruct (unescaped_no_surrogate c Eu) as [-> ->].
    rewrite option_map_none; apply IH; cbn [List.length]; lia.
  - destruct (isTrailingSurrogate c); [tauto|].
    destruct (isLeadingSurrogate c).
    + destruct r as [|d r']; [tauto|].
      destruct (isTrailingSurrogate d); [|tauto].
      rewrite option_map_none; apply IH; cbn [List.length]; lia.
    + rewrite option_map_none; apply IH; cbn [List.length]; lia.
Qed.

Lemma encode16_accepts (s : list Z) :
  hasLoneSurrogate s = false -> exists e, encodeURIComponent16 s = Some e.
Proof.
  intros H; destruct (encodeURIComponent16 s) as [e|] eqn:E; [eauto|].
  apply encode16_throws in E; congruence.
Qed.

(** On a string of code units below 256 it is [encodeURIComponent] as
    modelled on [string]. *)
Lemma encode16_latin1 (a : ascii) (r : list Z) :
  encodeURIComponent16 (Z.of_nat (nat_of_ascii a) :: r)
  = option_map (String.append (encodeURIComponent (String a "")))
      (encodeURIComponent16 r).
Proof. destruct a as [[] [] [] [] [] [] [] []]; reflexivity. Qed.

Lemma encode_cons (a : ascii) (r : string) :
  encodeURIComponent (String a r)
  = encodeURIComponent (String a EmptyString) +++ encodeURIComponent r.
Proof.
  cbn [encodeURIComponent]; cbv zeta; rewrite append_empty; reflexivity.
Qed.

Lemma encode16_units (s : string) :
  encodeURIComponent16 (units s) = Some (encodeURIComponent s).
Proof.
  induction s as [|a r IH]; [reflexivity|].
  change (units (String a r)) with (Z.of_nat (nat_of_ascii a) :: units r).
  rewrite encode16_latin1, IH, (encode_cons a r); reflexivity.
Qed.

(** The escapes of the euro sign and of a surrogate pair, and the refusal
    of either half of the pair alone. *)
Example encodeURIComponent16_samples :
  encodeURIComponent16 [euro] = Some "%E2%82%AC"
  /\ encodeURIComponent16 grinningFace = Some "%F0%9F%98%80"
  /\ encodeURIComponent16 (units "a b" ++ [233]) = Some "a%20b%C3%A9"
  /\ encodeURIComponent16 [55357] = None
  /\ encodeURIComponent16 [56832; 55357] = None
  /\ encodeURIComponent16 (units "ok" ++ [55357] ++ units "!") = None.
Proof. repeat split; reflexivity. Qed.

(** *** The two cases of the formatter *)

Lemma emailCase_form (address subject body : option (list Z)) :
  emailCase address subject body
  = option_map (fun query => units "mailto:" ++ orEmpty16 address ++ units query)
      (emailQuery (given16 subject) (given16 body)).
Proof.
  unfold emailCase, emailQuery, given16.
  destruct subject as [[|a r]|], body as [[|c t]|]; cbn [truthy16 orEmpty16];
    repeat match goal with
           | |- context [encodeURIComponent16 (?u :: ?l)] =>
               destruct (encodeURIComponent16 (u :: l))
           end;
    cbn [option_map app List.length Nat.ltb Nat.leb join16];
    rewrite ?units_app, <- ?app_assoc, ?app_nil_r; reflexivity.
Qed.

Lemma smsCase_form (number message : option (list Z)) :
  smsCase number message
  = match given16 message with
    | Some m =>
        option_map
          (fun escaped => units "sms:" ++ orEmpty16 number ++ units "?body=" ++ units escaped)
          (encodeURIComponent16 m)
    | None => Some (units "sms:" ++ orEmpty16 number)
    end.
Proof.
  unfold smsCase, given16.
  destruct message as [[|a r]|]; cbn [truthy16 orEmpty16]; rewrite ?app_nil_r;
    try reflexivity.
  destruct (encodeURIComponent16 (a :: r)); reflexivity.
Qed.

Lemma given16_units (o : option string) :
  given16 (option_map units o) = option_map units (given o).
Proof. destruct o as [[|a r]|]; reflexivity. Qed.

Lemma orEmpty16_units (o : option string) :
  orEmpty16 (option_map units o) = units (orEmpty o).
Proof. destruct o; reflexivity. Qed.

(** On strings of code units below 256 the two cases are those of
    [generateQrContent]. *)
Lemma emailCase_units (address subject body : option string) :
  emailCase (option_map units address) (option_map units subject)
    (option_map units body)
  = Some (units (generateQrContent (emailPayload address subject body))).
Proof.
  rewrite emailCase_form, email_content_form, !given16_units, orEmpty16_units.
  unfold emailQuery.
  destruct (given subject) as [s|], (given body) as [b|]; cbn [option_map];
    rewrite ?encode16_units; cbn [option_map]; rewrite !units_app; reflexivity.
Qed.

Lemma smsCase_units (number message : option string) :
  smsCase (option_map units number) (option_map units message)
  = Some (units (generateQrContent (smsPayload number message))).
Proof.
  rewrite smsCase_form, given16_units, orEmpty16_units.
  unfold generateQrContent, smsPayload, given; cbn [qrType smsNumber smsMessage].
  destruct message as [[|a r]|]; cbn [truthy orEmpty option_map];
    rewrite ?encode16_units; cbn [option_map];
    rewrite ?append_assoc, ?append_empty, ?units_app; reflexivity.
Qed.

Lemma given16_valid (o : option (list Z)) (s : list Z) :
  valid16 o = true -> given16 o = Some s -> allUnits s = true /\ o = Some s /\ s <> [].
Proof.
  unfold valid16, given16; destruct o as [[|a r]|]; cbn [truthy16 orEmpty16];
    intros Hv H; try discriminate.
  injection H as <-; repeat split; [exact Hv|discriminate].
Qed.

Lemma given16_lone (o : option (list Z)) :
  hasLoneSurrogate (orEmpty16 o) = true
  <-> exists s, given16 o = Some s /\ hasLoneSurrogate s = true.
Proof.
  unfold given16; destruct o as [[|a r]|]; cbn [truthy16 orEmpty16]; split;
    try discriminate; try (intros [s [H _]]; discriminate).
  - intros H; eauto.
  - intros [s [H Hs]]; injection H as <-; exact Hs.
Qed.

Lemma emailQuery_throws (subject body : option (list Z)) :
  emailQuery subject body = None
  <-> (exists s, subject = Some s /\ hasLoneSurrogate s = true)
      \/ (exists b, body = Some b /\ hasLoneSurrogate b = true).
Proof.
  unfold emailQuery; destruct subject as [s|], body as [b|].
  - destruct (encodeURIComponent16 s) as [es|] eqn:Es;
      [destruct (encodeURIComponent16 b) as [eb|] eqn:Eb|].
    + split; [discriminate|].
      intros [[s' [H Hs]]|[b' [H Hb]]]; injection H as <-.
      * apply encode16_throws in Hs; congruence.
      * apply encode16_throws in Hb; congruence.
    + split; [|reflexivity]. intros _; right; exists b; split; [reflexivity|].
      apply encode16_throws; exact Eb.
    + split; [|reflexivity]. intros _; left; exists s; split; [reflexivity|].
      apply encode16_throws; exact Es.
  - rewrite option_map_none, encode16_throws; split.
    + intros H; left; eauto.
    + intros [[s' [H Hs]]|[b' [H _]]]; [injection H as <-; exact Hs|discriminate].
  - rewrite option_map_none, encode16_throws; split.
    + intros H; right; eauto.
    + intros [[s' [H _]]|[b' [H Hb]]]; [discriminate|injection H as <-; exact Hb].
  - split; [discriminate|].
    intros [[s' [H _]]|[b' [H _]]]; discriminate.
Qed.

Ltac escaped_of l k :=
  match goal with
  | E : encodeURIComponent16 l = Some ?e |- _ => k e E
  end.

(** The query of an email link tells the subject and the body given. *)
Lemma emailQuery_inj (subject body subject' body' : option (list Z)) (query : string) :
  (forall s, subject = Some s -> allUnits s = true) ->
  (forall b, body = Some b -> allUnits b = true) ->
  (forall s, subject' = Some s -> allUnits s = true) ->
  (forall b, body' = Some b -> allUnits b = true) ->
  emailQuery subject body = Some query ->
  emailQuery subject' body' = Some query ->
  subject = subject' /\ body = body'.
Proof.
  intros Vs Vb Vs' Vb'; unfold emailQuery.
  destruct subject as [s|], body as [b|], subject' as [s'|], body' as [b'|];
    repeat match goal with
           | |- context [encodeURIComponent16 ?l] =>
               let e := fresh "e" in
               let E := fresh "E" in
               destruct (encodeURIComponent16 l) as [e|] eqn:E
           end;
    cbn [option_map]; intros H1 H2; try discriminate;
    rewrite <- H1 in H2; clear H1; try discriminate;
    try (split; reflexivity); injection H2 as H;
    repeat match goal with
           | V : forall x, Some ?l = Some x -> _ |- _ => specialize (V l eq_refl)
           end.
  - escaped_of s ltac:(fun es Es => escaped_of s' ltac:(fun es' Es' =>
      apply (encode16_split s' es' Vs' Es' s es _ _ Vs Es) in H;
      [|reflexivity|reflexivity])).
    destruct H as [Hs H]; injection H as H; subst.
    escaped_of b ltac:(fun eb Eb => escaped_of b' ltac:(fun eb' Eb' =>
      rewrite (encode16_inj b b' eb Vb Vb' Eb Eb'))); auto.
  - escaped_of s ltac:(fun es Es => escaped_of s' ltac:(fun es' Es' =>
      rewrite <- (append_empty es') in H;
      apply (encode16_split s' es' Vs' Es' s es _ _ Vs Es) in H;
      [|reflexivity|reflexivity])).
    destruct H as [_ H]; discriminate.
  - escaped_of s ltac:(fun es Es => escaped_of s' ltac:(fun es' Es' =>
      rewrite <- (append_empty es) in H;
      apply (encode16_split s' es' Vs' Es' s es _ _ Vs Es) in H;
      [|reflexivity|reflexivity])).
    destruct H as [_ H]; discriminate.
  - subst.
    escaped_of s ltac:(fun es Es => escaped_of s' ltac:(fun es' Es' =>
      rewrite (encode16_inj s s' es Vs Vs' Es Es'))); auto.
  - subst.
    escaped_of b ltac:(fun eb Eb => escaped_of b' ltac:(fun eb' Eb' =>
      rewrite (encode16_inj b b' eb Vb Vb' Eb Eb'))); auto.
Qed.

(** The EMAIL case of [generateQrContent], on strings of any UTF-16 code
    unit. It throws exactly when the subject or the body holds a surrogate
    without its pair. When it returns, the content tells the subject and
    the body: for one address, two payloads with the same content have the
    same subject and the same body, an empty one counting as absent. *)
Theorem email_content_tells_subject_and_body
  (address subject body subject' body' : option (list Z)) :
  valid16 subject = true -> valid16 body = true ->
  valid16 subject' = true -> valid16 body' = true ->
  (emailCase address subject body = None
   <-> hasLoneSurrogate (orEmpty16 subject) = true
       \/ hasLoneSurrogate (orEmpty16 body) = true)
  /\ (emailCase address subject body <> None ->
      emailCase address subject body = emailCase address subject' body' ->
      given16 subject = given16 subject' /\ given16 body = given16 body').
Proof.
  intros Vs Vb Vs' Vb'; rewrite !emailCase_form; split.
  - rewrite option_map_none, emailQuery_throws, !given16_lone; reflexivity.
  - destruct (emailQuery (given16 subject) (given16 body)) as [query|] eqn:E;
      cbn [option_map]; [|congruence].
    intros _ H.
    destruct (emailQuery (given16 subject') (given16 body')) as [query'|] eqn:E';
      cbn [option_map] in H; [|discriminate].
    injection H as H; apply app_inv_head, units_inj in H; subst query'.
    apply (emailQuery_inj _ _ _ _ query);
      [ intros s Hs; exact (proj1 (given16_valid _ _ Vs Hs))
      | intros s Hs; exact (proj1 (given16_valid _ _ Vb Hs))
      | intros s Hs; exact (proj1 (given16_valid _ _ Vs' Hs))
      | intros s Hs; exact (proj1 (given16_valid _ _ Vb' Hs))
      | exact E | exact E' ].
Qed.

Lemma email_content_tells_subject_and_body_witness :
  emailCase (Some (units "a@b.example")) (Some (units "Fee: 5 " ++ [euro]))
    (Some grinningFace)
  = Some (units "mailto:a@b.example?subject=Fee%3A%205%20%E2%82%AC&body=%F0%9F%98%80")
  /\ given16 (Some (units "Hello")) = given16 (Some (units "Hello"))
  /\ given16 (Some []) = given16 None.
Proof.
  split; [reflexivity|].
  destruct (email_content_tells_subject_and_body (Some (units "a@b.example"))
              (Some (units "Hello")) (Some []) (Some (units "Hello")) None
              eq_refl eq_refl eq_refl eq_refl) as [_ H].
  apply H; [discriminate|reflexivity].
Defined.

(** The SMS case of [generateQrContent], on strings of any UTF-16 code
    unit. With a message that holds a surrogate without its pair it throws.
    With any other message the content is
    [sms:<number>?body=<escaped message>], where the escaped message is what
    [encodeURIComponent] returns, holds unreserved characters and [%XX]
    escapes only, and tells the message; with an empty or absent message the
    content is [sms:<number>]. *)
Theorem sms_message_is_escaped (number message : list Z) :
  message <> [] ->
  allUnits message = true ->
  (hasLoneSurrogate message = true ->
   smsCase (Some number) (Some message) = None)
  /\ (hasLoneSurrogate message = false ->
      exists escaped,
        encodeURIComponent16 message = Some escaped
        /\ smsCase (Some number) (Some message)
           = Some (units "sms:" ++ number ++ units "?body=" ++ units escaped)
        /\ allChars isEscapedChar escaped = true
        /\ forall other,
             allUnits other = true ->
             smsCase (Some number) (Some other) = smsCase (Some number) (Some message) ->
             other = message)
  /\ smsCase (Some number) (Some []) = Some (units "sms:" ++ number)
  /\ smsCase (Some number) None = Some (units "sms:" ++ number).
Proof.
  intros Hm Hu.
  assert (Hform : forall m, m <> [] ->
            smsCase (Some number) (Some m)
            = option_map
                (fun escaped => units "sms:" ++ number ++ units "?body=" ++ units escaped)
                (encodeURIComponent16 m)).
  { intros m Hne; rewrite smsCase_form; destruct m as [|a r]; [contradiction|].
    reflexivity. }
  split; [|split; [|split; rewrite smsCase_form; reflexivity]].
  - intros Hlone; rewrite (Hform message Hm).
    apply encode16_throws in Hlone; rewrite Hlone; reflexivity.
  - intros Hlone; destruct (encode16_accepts message Hlone) as [escaped He].
    exists escaped; split; [exact He|].
    split; [rewrite (Hform message Hm), He; reflexivity|].
    split; [exact (encode16_escaped message escaped Hu He)|].
    intros other Ho; rewrite (Hform message Hm), He; cbn [option_map].
    destruct other as [|a r].
    + rewrite smsCase_form; cbn [given16 truthy16 orEmpty16]; intros H.
      injection H as H.
      rewrite <- (app_nil_r number) in H at 1.
      apply app_inv_head in H; discriminate.
    + rewrite Hform by discriminate.
      destruct (encodeURIComponent16 (a :: r)) as [escaped'|] eqn:He';
        cbn [option_map]; [|discriminate].
      intros H; injection H as H.
      apply app_inv_head in H; injection H as H.
      apply units_inj in H; subst escaped'.
      exact (encode16_inj _ _ escaped Ho Hu He' He).
Qed.

Lemma sms_message_is_escaped_witness :
  smsCase (Some (units "+15551234")) (Some (units "Pay 5 " ++ [euro] ++ grinningFace))
  = Some (units "sms:+15551234?body=Pay%205%20%E2%82%AC%F0%9F%98%80")
  /\ smsCase (Some (units "+15551234")) (Some (units "Pay 5 " ++ [55357])) = None.
Proof.
  split.
  - destruct (sms_message_is_escaped (units "+15551234")
                (units "Pay 5 " ++ [euro] ++ grinningFace)) as [_ [H _]];
      [discriminate|reflexivity|].
    destruct (H eq_refl) as [escaped [He [Hs _]]].
    injection He as <-; exact Hs.
  - reflexivity.
Defined.

(** ** Bearer tokens and colours *)

Lemma splitOn_nonempty (sep : ascii) (s : string) : splitOn sep s <> [].
Proof.
  destruct s as [|a r]; cbn [splitOn]; [discriminate|].
  destruct (Ascii.eqb a sep); [discriminate|].
  destruct (splitOn sep r); discriminate.
Qed.

(** A piece holds no separator. *)
Lemma splitOn_pieces (sep : ascii) (s : string) :
  Forall (fun piece => allChars (fun a => negb (Ascii.eqb a sep)) piece = true)
    (splitOn sep s).
Proof.
  induction s as [|a r IH]; cbn [splitOn]; [repeat constructor|].
  destruct (Ascii.eqb a sep) eqn:E; [constructor; [reflexivity|exact IH]|].
  destruct (splitOn sep r) as [|piece rest]; [repeat constructor; cbn; rewrite E; reflexivity|].
  inversion IH; subst; constructor; [|assumption].
  cbn [allChars]; rewrite E; assumption.
Qed.

(** Joining the pieces with the separator gives the string back. *)
Lemma join_splitOn (sep : ascii) (s : string) :
  join (String sep EmptyString) (splitOn sep s) = s.
Proof.
  induction s as [|a r IH]; [reflexivity|].
  cbn [splitOn]; destruct (Ascii.eqb_spec a sep) as [->|Hne].
  - pose proof (splitOn_nonempty sep r) as Hn.
    destruct (splitOn sep r) as [|piece rest] eqn:Es; [contradiction|].
    change (join (String sep "") ("" :: piece :: rest))
      with (String sep (join (String sep "") (piece :: rest))).
    rewrite IH; reflexivity.
  - pose proof (splitOn_nonempty sep r) as Hn.
    destruct (splitOn sep r) as [|piece rest] eqn:Es; [contradiction|].
    rewrite <- IH.
    destruct rest as [|next rest]; reflexivity.
Qed.

Lemma splitOn_clean (sep : ascii) (s : string) :
  allChars (fun a => negb (Ascii.eqb a sep)) s = true -> splitOn sep s = [s].
Proof.
  induction s as [|a r IH]; [reflexivity|].
  cbn [allChars splitOn]; intros H; apply andb_true_iff in H; destruct H as [Ha Hr].
  apply negb_true_iff in Ha; rewrite Ha, (IH Hr); reflexivity.
Qed.

Lemma splitOn_append (sep : ascii) (p r : string) :
  allChars (fun a => negb (Ascii.eqb a sep)) p = true ->
  splitOn sep (p +++ String sep r) = p :: splitOn sep r.
Proof.
  induction p as [|a q IH]; cbn [allChars String.append splitOn]; intros H.
  - rewrite Ascii.eqb_refl; reflexivity.
  - apply andb_true_iff in H; destruct H as [Ha Hq].
    apply negb_true_iff in Ha; rewrite Ha, (IH Hq); reflexivity.
Qed.

(** [extractTokenFromHeader] returns a token exactly for a header that
    reads [Bearer], one space, and a token without a space: the token is
    what follows the space. *)
Theorem extractTokenFromHeader_bearer (authHeader token : string) :
  extractTokenFromHeader (Some authHeader) = Some token
  <-> authHeader = "Bearer " +++ token
      /\ allChars (fun a => negb (Ascii.eqb a " "%char)) token = true.
Proof.
  unfold extractTokenFromHeader; split.
  - destruct authHeader as [|c rest]; cbn [truthy negb orEmpty]; [discriminate|].
    pose proof (join_splitOn " "%char (String c rest)) as Hj.
    pose proof (splitOn_pieces " "%char (String c rest)) as Hp.
    destruct (splitOn " "%char (String c rest)) as [|scheme [|tok [|more l]]];
      try discriminate.
    destruct (String.eqb_spec scheme "Bearer") as [->|]; [|discriminate].
    intros H; injection H as ->.
    split; [symmetry; exact Hj|].
    inversion Hp as [|? ? _ Hrest]; inversion Hrest; assumption.
  - intros [-> Hclean].
    cbn [truthy negb orEmpty String.append].
    change (String "B" (String "e" (String "a" (String "r" (String "e"
              (String "r" (String " " token)))))))
      with ("Bearer" +++ String " "%char token).
    rewrite splitOn_append by reflexivity.
    rewrite (splitOn_clean _ _ Hclean); reflexivity.
Qed.

(** The two digits of a byte read back as the byte. *)
Lemma twoHex_parse (v : Z) :
  0 <= v <= 255 ->
  exists a b, twoHex v = String a (String b EmptyString)
              /\ parseInt16 (String a (String b EmptyString)) = Some v.
Proof.
  intros Hv.
  assert (Hall : forallb
            (fun n => match twoHex (Z.of_nat n) with
                      | String a (String b EmptyString) =>
                          match parseInt16 (String a (String b EmptyString)) with
                          | Some x => x =? Z.of_nat n
                          | None => false
                          end
                      | _ => false
                      end) (seq 0 256) = true) by (vm_compute; reflexivity).
  rewrite forallb_forall in Hall.
  specialize (Hall (Z.to_nat v)).
  rewrite Z2Nat.id in Hall by lia.
  assert (Hin : In (Z.to_nat v) (seq 0 256)) by (apply in_seq; lia).
  specialize (Hall Hin).
  destruct (twoHex v) as [|a [|b [|c r]]]; try discriminate.
  exists a, b; split; [reflexivity|].
  destruct (parseInt16 (String a (String b ""))) as [x|]; [|discriminate].
  apply Z.eqb_eq in Hall; subst; reflexivity.
Qed.

(** [adjustBrightness] on a colour [#rrggbb]: each channel is moved by the
    amount and clamped to 0..255, and the result is again such a colour. *)
Theorem adjustBrightness_rgb (r g b amount : Z) :
  0 <= r <= 255 -> 0 <= g <= 255 -> 0 <= b <= 255 ->
  adjustBrightness (rgb r g b) amount
  = rgb (clampByte (r + amount)) (clampByte (g + amount)) (clampByte (b + amount))
  /\ 0 <= clampByte (r + amount) <= 255
  /\ 0 <= clampByte (g + amount) <= 255
  /\ 0 <= clampByte (b + amount) <= 255.
Proof.
  intros Hr Hg Hb.
  split; [|unfold clampByte; lia].
  destruct (twoHex_parse r Hr) as [r1 [r2 [Er Pr]]].
  destruct (twoHex_parse g Hg) as [g1 [g2 [Eg Pg]]].
  destruct (twoHex_parse b Hb) as [b1 [b2 [Eb Pb]]].
  assert (Ergb : rgb r g b
                 = String "#" (String r1 (String r2 (String g1 (String g2
                     (String b1 (String b2 EmptyString))))))).
  { unfold rgb; rewrite Er, Eg, Eb; reflexivity. }
  rewrite Ergb; unfold adjustBrightness.
  cbn [removeFirst Ascii.eqb Bool.eqb substring].
  unfold adjustChannel; rewrite Pr, Pg, Pb.
  reflexivity.
Qed.

Lemma adjustBrightness_rgb_witness :
  adjustBrightness "#1a0cf5" (-20) = "#0600e1".
Proof.
  destruct (adjustBrightness_rgb 26 12 245 (-20)) as [H _]; [lia|lia|lia|].
  exact H.
Defined.

(** ** The drawing state *)

Lemma runOps_app (a b : Ctx) (st : DrawingState) :
  runOps (a ++ b) st = runOps b (runOps a st).
Proof. apply fold_left_app. Qed.

Lemma runOps_cons (op : CanvasOp) (r : Ctx) (st : DrawingState) :
  runOps (op :: r) st = runOps r (runOp st op).
Proof. reflexivity. Qed.

Lemma statesAtImages_app (a b : Ctx) (st : DrawingState) :
  statesAtImages (a ++ b) st = statesAtImages a st ++ statesAtImages b (runOps a st).
Proof.
  revert st; induction a as [|op r IH]; intros st; [reflexivity|].
  cbn [app statesAtImages runOps fold_left]; rewrite IH, app_assoc; reflexivity.
Qed.

Lemma plain_state (st : DrawingState) :
  plain st ->
  st = {| globalAlpha := 1%float; shadowBlur := 0%float; savedStates := savedStates st |}.
Proof. destruct st as [a b s]; intros [Ha Hb]; cbn in *; subst; reflexivity. Qed.

(** A module leaves the state plain, whatever its style, and draws no
    image. *)
Lemma drawStyledModule_plain (x y s : float) (style color : string)
  (st : DrawingState) :
  plain st ->
  runOps (drawStyledModule [] x y s style color) st = st
  /\ statesAtImages (drawStyledModule [] x y s style color) st = [].
Proof.
  intros Hp; rewrite (plain_state st Hp).
  unfold drawStyledModule, drawRoundedRect.
  case_names; split; reflexivity.
Qed.

Lemma paintCells_plain (cellSize : float) (style color : string)
  (l : list (nat * nat)) (st : DrawingState) :
  plain st ->
  runOps (paintCells cellSize style color l) st = st
  /\ statesAtImages (paintCells cellSize style color l) st = [].
Proof.
  intros Hp; unfold paintCells; induction l as [|c r IH]; [split; reflexivity|].
  cbn [flat_map].
  destruct (drawStyledModule_plain (fst (cornerOf cellSize c)) (snd (cornerOf cellSize c))
              cellSize style color st Hp) as [Hrun Himg].
  destruct IH as [IHrun IHimg].
  rewrite runOps_app, statesAtImages_app, Hrun, Himg, IHrun, IHimg.
  split; reflexivity.
Qed.

Section LogoState.
Context {libs : Libraries}.

(** The logo is drawn in the state the call found, and the call leaves that
    state. *)
Lemma addLogoToCanvas_state (logo : Buffer) (s : float) (ls : option string)
  (st : DrawingState) :
  runOps (fst (addLogoToCanvas [] logo s ls)) st = st
  /\ Forall (fun at_image =>
               globalAlpha at_image = globalAlpha st
               /\ shadowBlur at_image = shadowBlur st)
       (statesAtImages (fst (addLogoToCanvas [] logo s ls)) st).
Proof.
  unfold addLogoToCanvas, drawRoundedRect.
  destruct (loadImage logo) as [img|]; cbn [fst]; [|split; [reflexivity|constructor]].
  destruct st as [a b saved].
  case_names; split; try reflexivity; repeat constructor.
Qed.

(** The styles of the modules do not leak: whatever the style, the
    commands [generateStyledQrCode] issues leave the context opaque, without
    shadow and with no state saved, and the logo, the only image, is drawn
    opaque and without shadow. *)
Theorem styles_do_not_leak_into_the_logo
  (content : string) (styleConfig : QrStyleConfig) (logoBuffer : option Buffer)
  (canvas : Canvas) (logged : list string) :
  renderCanvas content styleConfig logoBuffer = Some (canvas, logged) ->
  runOps (canvas_ops canvas) initialState = initialState
  /\ Forall plain (statesAtImages (canvas_ops canvas) initialState)
  /\ (List.length (statesAtImages (canvas_ops canvas) initialState) <= 1)%nat.
Proof.
  intros Hr.
  destruct (QRCode_create content (errorLevel styleConfig)) as [modules|] eqn:Hq;
    [|unfold renderCanvas in Hr; rewrite Hq in Hr; discriminate].
  assert (Hplain : plain initialState) by (split; reflexivity).
  destruct logoBuffer as [logo|].
  - rewrite (renderCanvas_with_logo content styleConfig modules logo Hq) in Hr.
    injection Hr as <- _; cbn [canvasOf canvas_ops].
    destruct (paintCells_plain (cellSizeOf styleConfig modules) (style styleConfig)
                (fgColor styleConfig) (darkCellsOutside styleConfig modules)
                initialState Hplain) as [Hrun Himg].
    destruct (addLogoToCanvas_state logo (size styleConfig) (logoStyle styleConfig)
                initialState) as [Lrun Limg].
    rewrite !runOps_cons; cbn [statesAtImages isDrawImage app runOp].
    rewrite !runOps_app, !statesAtImages_app.
    rewrite Hrun, Himg, Lrun; cbn [app].
    split; [reflexivity|]. split.
    + revert Limg; apply Forall_impl; intros st [Ha Hb]; split; assumption.
    + unfold addLogoToCanvas, drawRoundedRect.
      destruct (loadImage logo) as [img|]; cbn [fst]; [|cbn; lia].
      case_names; cbn; lia.
  - rewrite (renderCanvas_without_logo content styleConfig modules Hq) in Hr.
    injection Hr as <- _; cbn [canvasOf canvas_ops].
    destruct (paintCells_plain (cellSizeOf styleConfig modules) (style styleConfig)
                (fgColor styleConfig) (darkCells modules) initialState Hplain)
      as [Hrun Himg].
    rewrite !runOps_cons; cbn [statesAtImages isDrawImage app runOp].
    rewrite Hrun, Himg; repeat split; [constructor|cbn; lia].
Qed.

End LogoState.

Lemma styles_do_not_leak_into_the_logo_witness :
  let neon :=
    {| size := 400%float; errorLevel := M; fgColor := "#000000";
       bgColor := "#ffffff"; style := "neon"; logoStyle := Some "circle" |} in
  Forall plain
    (statesAtImages
       (backgroundOps neon
        ++ paintCells (cellSizeOf neon checkerboard) "neon" "#000000"
             (darkCellsOutside neon checkerboard)
        ++ fst (addLogoToCanvas (libs := demoLibraries) [] someBytes 400%float
                  (Some "circle")))
       initialState).
Proof.
  intros neon.
  apply (styles_do_not_leak_into_the_logo (libs := demoLibraries)
           "https://example.com" neon (Some someBytes)
           (canvasOf neon
              (backgroundOps neon
               ++ paintCells (cellSizeOf neon checkerboard) "neon" "#000000"
                    (darkCellsOutside neon checkerboard)
               ++ fst (addLogoToCanvas (libs := demoLibraries) [] someBytes 400%float
                         (Some "circle"))))
           (snd (addLogoToCanvas (libs := demoLibraries) [] someBytes 400%float
                   (Some "circle")))).
  apply (renderCanvas_with_logo (libs := demoLibraries)); reflexivity.
Defined.
